(** * expensify-os: a shallow embedding of the rate limiter, the cost
    aggregators, the Expensify client and the run orchestrator.

    Every definition below is a transcription of a Python function of the
    repository (the file and the function are named in its comment), written
    as a Rocq function over explicit state.  Exceptions are values of [exn]
    carried by [result]. *)

From Stdlib Require Import String Ascii ZArith QArith Qround Qpower Bool Lia List
  Sorting.Sorted.
Import ListNotations.
Local Open Scope Z_scope.

(** ** Python exceptions and fallible results *)

Inductive exn : Type :=
| StopIteration
| IndexError
| KeyError
| TypeError
| AttributeError
| ValueError (msg : string)
| RuntimeError (msg : string)
| FileNotFoundError (msg : string)
| HTTPStatusError (status : Z)
| ConnectError
| DecimalOverflow
| RetryError
| Diverged.   (* not a Python exception: marks a call that does not return *)

Inductive result (A : Type) : Type :=
| Ok (a : A)
| Raise (e : exn).
Arguments Ok {A} a.
Arguments Raise {A} e.

Definition bind {A B} (r : result A) (k : A -> result B) : result B :=
  match r with
  | Ok a => k a
  | Raise e => Raise e
  end.

Notation "x <- r ;; k" := (bind r (fun x => k))
  (at level 61, r at next level, right associativity).

(** ** src/expensify_os/expensify/rate_limiter.py *)

Module RateLimiter.

(** The constructor's keyword arguments.  Instants and durations are
    integers: a number of clock ticks (the Python code holds them as numbers
    of seconds).  [_timestamps], the deque, is threaded as a [list Z],
    oldest first. *)
Record Config : Type := {
  short_limit : Z;
  short_window : Z;
  long_limit : Z;
  long_window : Z
}.

(** [RateLimiter()] with no argument: 5 per 10 s and 20 per 60 s. *)
Definition default : Config :=
  {| short_limit := 5; short_window := 10; long_limit := 20; long_window := 60 |}.

Section Limiter.
Variable L : Config.

(** [_prune]: [while self._timestamps and self._timestamps[0] < cutoff:
    popleft()]. *)
Fixpoint prune_below (cutoff : Z) (ts : list Z) : list Z :=
  match ts with
  | t :: rest => if t <? cutoff then prune_below cutoff rest else ts
  | [] => []
  end.

Definition _prune (now : Z) (ts : list Z) : list Z :=
  let cutoff := now - long_window L in
  prune_below cutoff ts.

(** [sum(1 for t in self._timestamps if t >= cutoff)]. *)
Definition count_ge (cutoff : Z) (ts : list Z) : Z :=
  Z.of_nat (length (filter (fun t => cutoff <=? t) ts)).

(** [next(t for t in self._timestamps if t >= short_cutoff)]: the first
    element that passes; [StopIteration] when there is none. *)
Definition next_ge (cutoff : Z) (ts : list Z) : result Z :=
  match find (fun t => cutoff <=? t) ts with
  | Some t => Ok t
  | None => Raise StopIteration
  end.

(** [_wait_time]: prunes the deque (a side effect, returned here as the
    first component) and computes the wait. *)
Definition _wait_time (now : Z) (ts : list Z) : result (list Z * Z) :=
  let ts := _prune now ts in
  let wait := 0 in
  let short_cutoff := now - short_window L in
  let short_count := count_ge short_cutoff ts in
  wait <- (if short_limit L <=? short_count then
             oldest_in_window <- next_ge short_cutoff ts ;;
             Ok (Z.max wait (oldest_in_window + short_window L - now))
           else Ok wait) ;;
  if long_limit L <=? Z.of_nat (length ts) then
    match ts with
    | t0 :: _ => Ok (ts, Z.max wait (t0 + long_window L - now))
    | [] => Raise IndexError
    end
  else Ok (ts, wait).

(** One pass through the body of [acquire]'s [while True]. *)
Inductive attempt_result : Type :=
| Recorded (ts : list Z)            (* wait <= 0: [now] appended, return *)
| Sleep (wait : Z) (ts : list Z)    (* await asyncio.sleep(wait) *)
| Crash (e : exn).

Definition attempt (now : Z) (ts : list Z) : attempt_result :=
  match _wait_time now ts with
  | Raise e => Crash e
  | Ok (ts', wait) =>
      if wait <=? 0 then Recorded (ts' ++ [now]) else Sleep wait ts'
  end.

(** A [StopIteration] that reaches the frame of a coroutine leaves it as
    a [RuntimeError]. *)
Definition leaving_coroutine (e : exn) : exn :=
  match e with
  | StopIteration => RuntimeError "coroutine raised StopIteration"
  | _ => e
  end.

(** What a call of [acquire] ends in. *)
Inductive outcome : Type :=
| Granted (at_ : Z) (ts : list Z)   (* returned; [at_] is the appended instant *)
| Failed (e : exn)
| Pending.                          (* the model's fuel ran out *)

(** [acquire]: the lock makes the whole loop one critical section, so a
    call runs alone from the clock reading [now] at its first attempt.
    [asyncio.sleep(wait)] resumes [wait] ticks later or more: the [k]-th
    sleep of the call oversleeps by [lag k >= 0]. *)
Fixpoint acquire_loop (fuel : nat) (lag : nat -> N) (k : nat)
    (now : Z) (ts : list Z) : outcome :=
  match fuel with
  | O => Pending
  | S fuel' =>
      match attempt now ts with
      | Recorded ts' => Granted now ts'
      | Sleep wait ts' =>
          acquire_loop fuel' lag (S k) (now + wait + Z.of_N (lag k)) ts'
      | Crash e => Failed (leaving_coroutine e)
      end
  end.

(** Each sleep that is not the last one moves a recorded timestamp out of
    one of the two windows, so [2 * len + 1] passes are always enough
    ([acquire_loop_enough] below). *)
Definition acquire (lag : nat -> N) (now : Z) (ts : list Z) : outcome :=
  acquire_loop (S (2 * length ts)) lag 0%nat now ts.

(** A caller: it calls [acquire] [gap] ticks after the previous call
    returned, and its sleeps oversleep by [lag]. *)
Record call : Type := { gap : Z; lag : nat -> N }.

(** A sequence of completed [acquire] calls on one limiter. *)
Fixpoint run (calls : list call) (now : Z) (ts : list Z) : outcome :=
  match calls with
  | [] => Granted now ts
  | c :: rest =>
      match acquire (lag c) (now + gap c) ts with
      | Granted at_ ts' => run rest at_ ts'
      | other => other
      end
  end.

(** The windows as [_wait_time] counts them ([t >= now - window]) and as
    half-open intervals ([t > now - window]). *)
Definition count_gt (cutoff : Z) (ts : list Z) : Z :=
  Z.of_nat (length (filter (fun t => cutoff <? t) ts)).



(** Timestamps that a sleep may still have to wait out. *)
Definition pending (now : Z) (ts : list Z) : nat :=
  Nat.add (length (filter (fun t => now <? t + short_window L) ts))
          (length (filter (fun t => now <? t + long_window L) ts)).

(** The spec's wording of one attempt, for C5. *)
Definition drop_older (cutoff : Z) (ts : list Z) : list Z :=
  filter (fun t => cutoff <=? t) ts.

Fixpoint oldest (ts : list Z) : option Z :=
  match ts with
  | [] => None
  | t :: rest =>
      match oldest rest with
      | None => Some t
      | Some m => Some (Z.min t m)
      end
  end.

Definition spec_wait (now : Z) (ts : list Z) : result (list Z * Z) :=
  let remaining := drop_older (now - long_window L) ts in
  let in_short := drop_older (now - short_window L) remaining in
  short_wait <- (if short_limit L <=? Z.of_nat (length in_short) then
                   match oldest in_short with
                   | Some o => Ok (Z.max 0 (o + short_window L - now))
                   | None => Raise StopIteration
                   end
                 else Ok 0) ;;
  if long_limit L <=? Z.of_nat (length remaining) then
    match oldest remaining with
    | Some o => Ok (remaining, Z.max short_wait (o + long_window L - now))
    | None => Raise IndexError
    end
  else Ok (remaining, short_wait).

End Limiter.

End RateLimiter.

(** ** Python's [decimal] module, as the plugins use it

    [Decimal] arithmetic runs in the default context: 28 significant digits,
    [ROUND_HALF_EVEN], exponents between [-999999] and [999999], [Overflow]
    trapped.  A finite [Decimal] is a signed coefficient and an exponent;
    an operation computes the exact result and hands it to [_fix], which
    rounds it to the context.  (The two zeros [0] and [-0] are one here; the
    code never tells them apart.) *)

Module Decimal.

Record t : Type := { coefficient : Z; exponent : Z }.

Definition prec : Z := 28.
Definition Emax : Z := 999999.
Definition Emin : Z := -999999.
Definition Etiny : Z := Emin - prec + 1.
Definition Etop : Z := Emax - prec + 1.

(** [len(self._int)]: the number of decimal digits of [n >= 0] (1 for 0). *)
Fixpoint ndigits_aux (fuel : nat) (n : Z) : Z :=
  match fuel with
  | O => 1
  | S fuel' => if n <? 10 then 1 else 1 + ndigits_aux fuel' (n / 10)
  end.

Definition ndigits (n : Z) : Z := ndigits_aux (Z.to_nat (Z.log2 n)) n.

(** [ROUND_HALF_EVEN] of the magnitude [m] when its [k] lowest digits are
    dropped. *)
Definition round_half_even (m k : Z) : Z :=
  let p := 10 ^ k in
  let q := m / p in
  let r := m mod p in
  if (p <? 2 * r) || ((p =? 2 * r) && Z.odd q) then q + 1 else q.

(** [Decimal._fix(context)]. *)
Definition _fix (d : t) : result t :=
  let c := coefficient d in
  let e := exponent d in
  if c =? 0 then
    Ok {| coefficient := 0; exponent := Z.min (Z.max e Etiny) Emax |}
  else
    let len := ndigits (Z.abs c) in
    let exp_min := len + e - prec in
    if Etop <? exp_min then Raise DecimalOverflow
    else
      let exp_min := if exp_min <? Etiny then Etiny else exp_min in
      if e <? exp_min then
        let digits := len + e - exp_min in
        let m := if digits <? 0 then 1 else Z.abs c in
        let e' := if digits <? 0 then exp_min - 1 else e in
        let coeff := round_half_even m (exp_min - e') in
        let carried := prec <? ndigits coeff in
        let coeff := if carried then coeff / 10 else coeff in
        let exp_min := if carried then exp_min + 1 else exp_min in
        if Etop <? exp_min then Raise DecimalOverflow
        else Ok {| coefficient := Z.sgn c * coeff; exponent := exp_min |}
      else Ok d.

(** The exact sum, written at the smaller of the two exponents. *)
Definition exact_add (a b : t) : t :=
  let e := Z.min (exponent a) (exponent b) in
  {| coefficient := coefficient a * 10 ^ (exponent a - e)
                    + coefficient b * 10 ^ (exponent b - e);
     exponent := e |}.

Definition exact_mul (a b : t) : t :=
  {| coefficient := coefficient a * coefficient b;
     exponent := exponent a + exponent b |}.

(** [a + b] and [a * b]. *)
Definition add (a b : t) : result t := _fix (exact_add a b).
Definition mul (a b : t) : result t := _fix (exact_mul a b).

(** [Decimal("0")] and the [int] operand [100]. *)
Definition zero : t := {| coefficient := 0; exponent := 0 |}.
Definition of_int (n : Z) : t := {| coefficient := n; exponent := 0 |}.

(** [math.ceil(d)], that is [d.__ceil__()]: exact. *)
Definition ceil (d : t) : Z :=
  if 0 <=? exponent d then coefficient d * 10 ^ exponent d
  else - ((- coefficient d) / 10 ^ (- exponent d)).

(** The rational number a [Decimal] denotes. *)
Definition to_Q (d : t) : Q :=
  (inject_Z (coefficient d) * inject_Z 10 ^ exponent d)%Q.

(** [_fix] leaves such a number as it is. *)
Definition fits_context (d : t) : Prop :=
  ndigits (Z.abs (coefficient d)) <= prec /\
  Etiny <= exponent d /\
  ndigits (Z.abs (coefficient d)) + exponent d - 1 <= Emax.

End Decimal.

(** ** [datetime.date] *)

Module Date.

Record date : Type := { year : Z; month : Z; day : Z }.

Definition MINYEAR : Z := 1.
Definition MAXYEAR : Z := 9999.

Definition _is_leap (y : Z) : bool :=
  (y mod 4 =? 0) && (negb (y mod 100 =? 0) || (y mod 400 =? 0)).

Definition _days_in_month (y m : Z) : Z :=
  if (m =? 2) && _is_leap y then 29
  else nth (Z.to_nat m) [0; 31; 28; 31; 30; 31; 30; 31; 31; 30; 31; 30; 31] 0.

(** [datetime.date(year, month, day)] with its range checks. *)
Definition make (y m d : Z) : result date :=
  if negb ((MINYEAR <=? y) && (y <=? MAXYEAR)) then
    Raise (ValueError "year is out of range")
  else if negb ((1 <=? m) && (m <=? 12)) then
    Raise (ValueError "month must be in 1..12")
  else if negb ((1 <=? d) && (d <=? _days_in_month y m)) then
    Raise (ValueError "day is out of range for month")
  else Ok {| year := y; month := m; day := d |}.

(** Dates compare as the triples (year, month, day). *)
Definition ltb (a b : date) : bool :=
  (year a <? year b)
  || ((year a =? year b)
      && ((month a <? month b) || ((month a =? month b) && (day a <? day b)))).


Definition _days_before_year (y : Z) : Z :=
  let y := y - 1 in y * 365 + y / 4 - y / 100 + y / 400.

Definition _days_before_month (y m : Z) : Z :=
  nth (Z.to_nat m) [0; 0; 31; 59; 90; 120; 151; 181; 212; 243; 273; 304; 334] 0
  + (if (2 <? m) && _is_leap y then 1 else 0).

(** [date.toordinal()]. *)
Definition toordinal (d : date) : Z :=
  _days_before_year (year d) + _days_before_month (year d) (month d) + day d.

(** [(b - a).days]. *)
Definition days_between (a b : date) : Z := toordinal b - toordinal a.

(** Seconds since the epoch of midnight UTC on [d]:
    [int(datetime.combine(d, time.min, tzinfo=utc).timestamp())]. *)
Definition utc_midnight_timestamp (d : date) : Z :=
  (toordinal d - 719163) * 86400.

End Date.

(** ** String formatting of integers *)

Module Fmt.

Definition digit (n : Z) : ascii := ascii_of_nat (48 + Z.to_nat n).

Fixpoint digits_aux (fuel : nat) (n : Z) (acc : string) : string :=
  match fuel with
  | O => acc
  | S fuel' =>
      let acc := String (digit (n mod 10)) acc in
      if n <? 10 then acc else digits_aux fuel' (n / 10) acc
  end.

(** [str(n)] for [n >= 0]. *)
Definition digits (n : Z) : string :=
  digits_aux (S (Z.to_nat (Z.log2 n))) n EmptyString.

(** [f"{n}"]. *)
Definition d (n : Z) : string :=
  if n <? 0 then String "-" (digits (- n)) else digits n.

(** [f"{n:02d}"]: the sign counts in the width. *)
Definition d02 (n : Z) : string :=
  if (0 <=? n) && (n <? 10) then String "0" (digits n) else d n.

(** [f"{n:04d}"] for [n >= 0]. *)
Definition d04 (n : Z) : string :=
  let s := digits n in
  (match String.length s with
   | 1%nat => "000"
   | 2%nat => "00"
   | 3%nat => "0"
   | _ => ""
   end ++ s)%string.

End Fmt.

Module DateFormat.
(** [date.isoformat()]: ["%04d-%02d-%02d"]. *)
Definition isoformat (d : Date.date) : string :=
  (Fmt.d04 (Date.year d) ++ "-" ++ Fmt.d02 (Date.month d) ++ "-"
   ++ Fmt.d02 (Date.day d))%string.
End DateFormat.
(** ** src/expensify_os/models.py *)

Module ExpenseData.
(** The pydantic model [ExpenseData]: its fields and their types, which is
    all the class declares ([amount: int] carries no bound). *)
Record t : Type := {
  merchant : string;
  amount : Z;
  currency : string;
  date : Date.date;
  category : string;
  comment : option string;
  receipt_path : string
}.

(** The property [amount_decimal] ([amount / 100], a float) only feeds log
    and console lines and is left out. *)
End ExpenseData.

Module PluginConfig.
Record t : Type := {
  enabled : bool;
  credentials : list (string * string);
  category : string
}.
End PluginConfig.

Module ExpensifyConfig.
Record t : Type := {
  partner_user_id : string;
  partner_user_secret : string;
  employee_email : string;
  default_currency : string
}.
End ExpensifyConfig.

(** ** What [httpx] gives back *)

Module Http.

Record Response (B : Type) : Type := { status_code : Z; body : B }.
Arguments status_code {B} _.
Arguments body {B} _.

Definition is_success {B} (r : Response B) : bool :=
  (200 <=? status_code r) && (status_code r <? 300).

(** [response.raise_for_status()]. *)
Definition raise_for_status {B} (r : Response B) : result unit :=
  if is_success r then Ok tt else Raise (HTTPStatusError (status_code r)).

End Http.

(** ** The paged cost report of a vendor

    [response.json()] of a cost report: [data[].results[]], [has_more] and
    [next_page].  A key that may be absent is an [option]; [has_more] is the
    truth value of the field ([False] when absent).  The vendor's API is the
    script of the responses it gives to the successive GET requests of the
    plugin; each request sent is logged. *)

Module CostReport.

Record Bucket (R : Type) : Type := { results : option (list R) }.
Arguments results {R} _.

Record Page (R : Type) : Type := {
  data : option (list (Bucket R));
  has_more : bool;
  next_page : option string
}.
Arguments data {R} _.
Arguments has_more {R} _.
Arguments next_page {R} _.

Record World (R P : Type) : Type := {
  script : list (Http.Response (Page R));   (* responses still to come *)
  sent : list P;                            (* requests made so far *)
  files : list (string * string)            (* files written: path, text *)
}.
Arguments script {R P} _.
Arguments sent {R P} _.
Arguments files {R P} _.

(** A stateful computation that may raise. *)
Definition M (W A : Type) : Type := W -> result A * W.

(** [if page:] and [if not x]: the truth value of an optional string. *)
Definition truthy (s : option string) : option string :=
  match s with
  | Some EmptyString => None
  | other => other
  end.

Section Paged.
Variables R P : Type.
(** The query parameters for a cursor, and [total += ...] for one result:
    the two places where the vendors differ. *)
Variable params : option string -> P.
Variable accumulate : Decimal.t -> R -> result Decimal.t.

(** [for result in bucket.get("results", []): total += ...]. *)
Fixpoint sum_results (total : Decimal.t) (rs : list R) : result Decimal.t :=
  match rs with
  | [] => Ok total
  | r :: rs' => total' <- accumulate total r ;; sum_results total' rs'
  end.

Definition get_results (b : Bucket R) : list R :=
  match results b with Some rs => rs | None => [] end.

Definition get_data (p : Page R) : list (Bucket R) :=
  match data p with Some bs => bs | None => [] end.

(** [for bucket in data.get("data", []): ...]. *)
Fixpoint sum_buckets (total : Decimal.t) (bs : list (Bucket R))
    : result Decimal.t :=
  match bs with
  | [] => Ok total
  | b :: bs' =>
      total' <- sum_results total (get_results b) ;; sum_buckets total' bs'
  end.

(** The [while True] of [_fetch_total_cost]: one GET per turn, taken from
    the script; a script that has run out is a connection that fails. *)
Fixpoint fetch_pages (script : list (Http.Response (Page R)))
    (sent : list P) (page : option string) (total : Decimal.t)
    : result Decimal.t * (list (Http.Response (Page R)) * list P) :=
  let sent := sent ++ [params (truthy page)] in
  match script with
  | [] => (Raise ConnectError, ([], sent))
  | response :: script' =>
      match Http.raise_for_status response with
      | Raise e => (Raise e, (script', sent))
      | Ok _ =>
          let data := Http.body response in
          match sum_buckets total (get_data data) with
          | Raise e => (Raise e, (script', sent))
          | Ok total' =>
              if negb (has_more data) then (Ok total', (script', sent))
              else fetch_pages script' sent (next_page data) total'
          end
      end
  end.

(** The body of [_fetch_total_cost], from [total = Decimal("0")] to
    [return int(math.ceil(total))]. *)
Definition fetch_total_once : M (World R P) Z :=
  fun w =>
    let '(r, (script', sent')) :=
      fetch_pages (script w) (sent w) None Decimal.zero in
    let w' := {| script := script'; sent := sent'; files := files w |} in
    match r with
    | Ok total => (Ok (Decimal.ceil total), w')
    | Raise e => (Raise e, w')
    end.

(** [@retry(stop=stop_after_attempt(3), wait=wait_exponential(...))]:
    the body is run again after any exception, three times at most, and
    then [RetryError] is raised. *)
Fixpoint retry {A : Type} (attempts : nat) (body : M (World R P) A)
    : M (World R P) A :=
  fun w =>
    match attempts with
    | O => (Raise RetryError, w)
    | S attempts' =>
        match body w with
        | (Ok a, w') => (Ok a, w')
        | (Raise _, w') => retry attempts' body w'
        end
    end.

(** The pages one successful walk consumes: what the spec calls all
    pages.  [None] when the script does not hold such a walk. *)
Fixpoint pages_walked (script : list (Http.Response (Page R)))
    : option (list (Page R)) :=
  match script with
  | [] => None
  | response :: script' =>
      if Http.is_success response then
        if has_more (Http.body response) then
          match pages_walked script' with
          | Some ps => Some (Http.body response :: ps)
          | None => None
          end
        else Some [Http.body response]
      else None
  end.

(** Every result of every bucket of these pages, in order. *)
Definition all_results (ps : list (Page R)) : list R :=
  flat_map (fun p => flat_map get_results (get_data p)) ps.

(** The cursors a walk over these pages sends: none, then each
    [next_page]. *)
Definition cursors (ps : list (Page R)) : list (option string) :=
  None :: map (fun p => truthy (next_page p)) (removelast ps).

End Paged.

(** The total when no addition rounds: [term r] is what the vendor's
    [accumulate] adds for the result [r], computed exactly. *)
Section Exactness.
Variable R : Type.
Variable term : R -> Decimal.t.
Variable term_fits : R -> Prop.

Fixpoint exact_total (total : Decimal.t) (rs : list R) : Decimal.t :=
  match rs with
  | [] => total
  | r :: rs' => exact_total (Decimal.exact_add total (term r)) rs'
  end.

(** Every term and every running total has at most 28 significant digits
    (and an exponent the context allows). *)
Fixpoint within_precision (total : Decimal.t) (rs : list R) : Prop :=
  match rs with
  | [] => True
  | r :: rs' =>
      term_fits r /\
      Decimal.fits_context (Decimal.exact_add total (term r)) /\
      within_precision (Decimal.exact_add total (term r)) rs'
  end.
End Exactness.

Arguments exact_total {R} term total rs.
Arguments within_precision {R} term term_fits total rs.

Definition Qsum (l : list Q) : Q := fold_right Qplus 0%Q l.


Arguments sum_results {R} accumulate total rs.
Arguments get_results {R} b.
Arguments get_data {R} p.
Arguments sum_buckets {R} accumulate total bs.
Arguments fetch_pages {R P} params accumulate script sent page total.
Arguments fetch_total_once {R P} params accumulate _.
Arguments retry {R P A} attempts body _.
Arguments pages_walked {R} script.
Arguments all_results {R} ps.
Arguments cursors {R} ps.

End CostReport.

(** ** The billing month of a plugin

    The first statements of [fetch_expense], the same in anthropic.py and
    in openai.py: [start_date = datetime.date(year, month, 1)], then
    [end_date] by the test [month == 12]. *)

Module Billing.

Definition window (year month : Z) : result (Date.date * Date.date) :=
  start_date <- Date.make year month 1 ;;
  end_date <- (if month =? 12 then Date.make (year + 1) 1 1
               else Date.make year (month + 1) 1) ;;
  Ok (start_date, end_date).

(** The first day of the month after [(year, month)]. *)
Definition first_of_next (year month : Z) : Date.date :=
  if month =? 12 then {| Date.year := year + 1; Date.month := 1; Date.day := 1 |}
  else {| Date.year := year; Date.month := month + 1; Date.day := 1 |}.


(** A month that [datetime.date] can hold together with the first day of
    the month after it. *)
Definition representable (year month : Z) : Prop :=
  1 <= year <= 9999 /\ 1 <= month <= 12 /\ ~ (year = 9999 /\ month = 12).

End Billing.

(** ** src/expensify_os/plugins/anthropic.py *)

Module Anthropic.
Import CostReport.

(** One entry of [results]: [amount] is a decimal string, already in
    cents; it is given as the numeral it spells, which [Decimal(amount_str)]
    reads exactly. *)
Record CostResult : Type := { amount : option Decimal.t }.

Record Params : Type := {
  starting_at : Date.date;      (* sent as isoformat + "T00:00:00Z" *)
  ending_at : Date.date;
  bucket_width : string;
  page : option string
}.

Definition W : Type := World CostResult Params.

Section Plugin.
Variable config : PluginConfig.t.
(** [_download_invoice]: the browser session, a collaborator. *)
Variable _download_invoice : Z -> Z -> result string.

Definition params (start_date end_date : Date.date) (page : option string)
    : Params :=
  {| starting_at := start_date; ending_at := end_date;
     bucket_width := "1d"; page := page |}.

(** [amount_str = result.get("amount", "0"); total += Decimal(amount_str)]. *)
Definition accumulate (total : Decimal.t) (r : CostResult) : result Decimal.t :=
  let amount_str := match amount r with Some a => a | None => Decimal.zero end in
  Decimal.add total amount_str.

Definition _fetch_total_cost (start_date end_date : Date.date) : M W Z :=
  retry 3 (fetch_total_once (params start_date end_date) accumulate).

(** The amount of a result, in cents, as the report spells it. *)
Definition cents (r : CostResult) : Decimal.t :=
  match amount r with Some a => a | None => Decimal.zero end.

Definition receipt_name (y m : Z) : string :=
  ("downloads/anthropic/anthropic_" ++ Fmt.d y ++ "-" ++ Fmt.d02 m ++ ".pdf")%string.

Definition fetch_expense (year month : Z) (dry_run : bool)
    : M W (option ExpenseData.t) :=
  fun w =>
    match Billing.window year month with
    | Raise e => (Raise e, w)
    | Ok (start_date, end_date) =>
    match _fetch_total_cost start_date end_date w with
    | (Raise e, w') => (Raise e, w')
    | (Ok total_cents, w') =>
        if total_cents =? 0 then (Ok None, w')
        else
          let record receipt_path :=
            {| ExpenseData.merchant := "Anthropic";
               ExpenseData.amount := total_cents;
               ExpenseData.currency := "USD";
               ExpenseData.date := start_date;
               ExpenseData.category := PluginConfig.category config;
               ExpenseData.comment :=
                 Some ("Anthropic API usage for " ++ Fmt.d year ++ "-"
                       ++ Fmt.d02 month)%string;
               ExpenseData.receipt_path := receipt_path |} in
          if negb dry_run then
            match _download_invoice year month with
            | Raise e => (Raise e, w')
            | Ok receipt_path => (Ok (Some (record receipt_path)), w')
            end
          else
            let receipt_path := receipt_name year month in
            let text := ("[DRY RUN] Invoice for " ++ Fmt.d year ++ "-"
                         ++ Fmt.d02 month)%string in
            (Ok (Some (record receipt_path)),
             {| script := script w'; sent := sent w';
                files := (receipt_path, text) :: files w' |})
    end end.

End Plugin.

End Anthropic.

(** ** src/expensify_os/plugins/openai.py *)

Module OpenAI.
Import CostReport.

(** One entry of [results]: [amount.value] is a JSON number of dollars.
    [Decimal(str(value))] reads exactly the numeral [str(value)], which is
    what the field holds here. *)
Record Amount : Type := { value : option Decimal.t }.
Record CostResult : Type := { amount : option Amount }.

Record Params : Type := {
  start_time : Z;
  end_time : Z;
  bucket_width : string;
  limit : Z;
  page : option string
}.

Definition W : Type := World CostResult Params.

Section Plugin.
Variable config : PluginConfig.t.
Variable _download_invoice : Z -> Z -> result string.

Definition params (start_date end_date : Date.date) (page : option string)
    : Params :=
  let start_ts := Date.utc_midnight_timestamp start_date in
  let end_ts := Date.utc_midnight_timestamp end_date in
  let days_in_range := Date.days_between start_date end_date in
  {| start_time := start_ts; end_time := end_ts; bucket_width := "1d";
     limit := Z.min days_in_range 180; page := page |}.

(** [amount = result.get("amount", {}); value = amount.get("value", 0);
    total += Decimal(str(value)) * 100]. *)
Definition accumulate (total : Decimal.t) (r : CostResult) : result Decimal.t :=
  let value :=
    match amount r with
    | Some a => match value a with Some v => v | None => Decimal.zero end
    | None => Decimal.zero
    end in
  cents <- Decimal.mul value (Decimal.of_int 100) ;;
  Decimal.add total cents.

Definition _fetch_total_cost (start_date end_date : Date.date) : M W Z :=
  retry 3 (fetch_total_once (params start_date end_date) accumulate).

(** The amount of a result in dollars, as the report spells it, and a
    hundred times that, computed exactly. *)
Definition dollars (r : CostResult) : Decimal.t :=
  match amount r with
  | Some a => match value a with Some v => v | None => Decimal.zero end
  | None => Decimal.zero
  end.

Definition cents (r : CostResult) : Decimal.t :=
  Decimal.exact_mul (dollars r) (Decimal.of_int 100).

Definition receipt_name (y m : Z) : string :=
  ("downloads/openai/openai_" ++ Fmt.d y ++ "-" ++ Fmt.d02 m ++ ".pdf")%string.

Definition fetch_expense (year month : Z) (dry_run : bool)
    : M W (option ExpenseData.t) :=
  fun w =>
    match Billing.window year month with
    | Raise e => (Raise e, w)
    | Ok (start_date, end_date) =>
    match _fetch_total_cost start_date end_date w with
    | (Raise e, w') => (Raise e, w')
    | (Ok total_cents, w') =>
        if total_cents =? 0 then (Ok None, w')
        else
          let record receipt_path :=
            {| ExpenseData.merchant := "OpenAI";
               ExpenseData.amount := total_cents;
               ExpenseData.currency := "USD";
               ExpenseData.date := start_date;
               ExpenseData.category := PluginConfig.category config;
               ExpenseData.comment :=
                 Some ("OpenAI API usage for " ++ Fmt.d year ++ "-"
                       ++ Fmt.d02 month)%string;
               ExpenseData.receipt_path := receipt_path |} in
          if negb dry_run then
            match _download_invoice year month with
            | Raise e => (Raise e, w')
            | Ok receipt_path => (Ok (Some (record receipt_path)), w')
            end
          else
            let receipt_path := receipt_name year month in
            let text := ("[DRY RUN] Invoice for " ++ Fmt.d year ++ "-"
                         ++ Fmt.d02 month)%string in
            (Ok (Some (record receipt_path)),
             {| script := script w'; sent := sent w';
                files := (receipt_path, text) :: files w' |})
    end end.

End Plugin.

End OpenAI.

(** ** JSON values, as [response.json()] returns them *)

Module Json.

Local Set Warnings "-register-all".

Inductive t : Type :=
| Null                                   (* None *)
| Bool (b : bool)
| Int (n : Z)
| Str (s : string)
| List (items : list t)
| Dict (items : list (string * t)).      (* a dict, in insertion order *)

Fixpoint lookup (key : string) (items : list (string * t)) : option t :=
  match items with
  | [] => None
  | (k, v) :: rest => if String.eqb key k then Some v else lookup key rest
  end.

(** [d.get(key, default)]. *)
Definition get (key : string) (default : t) (items : list (string * t)) : t :=
  match lookup key items with
  | Some v => v
  | None => default
  end.

(** The truth value Python gives a JSON value in [if x:]. *)
Definition truth (v : t) : bool :=
  match v with
  | Null => false
  | Bool b => b
  | Int n => negb (n =? 0)
  | Str s => negb (String.eqb s EmptyString)
  | List items => match items with [] => false | _ => true end
  | Dict items => match items with [] => false | _ => true end
  end.

End Json.

(** ** src/expensify_os/expensify/client.py *)

Module Client.
Local Open Scope string_scope.

(** The body of a response: its text, and what [response.json()] makes of
    it ([None] when the text is not JSON and [JSONDecodeError] is raised). *)
Record Body : Type := { text : string; parsed : option Json.t }.

(** A POST to [EXPENSIFY_API_URL]: the job description that is dumped into
    [requestJobDescription], and the multipart file, if any, as its name,
    its bytes and its content type. *)
Record Post : Type := {
  requestJobDescription : Json.t;
  file : option (string * string * string)
}.

(** The client's surroundings: the backend, as the script of its answers to
    the successive POSTs, the log of the POSTs made, the files on disk, and
    the client's own rate limiter with the clock it reads. *)
Record World : Type := {
  backend : list (Http.Response Body);
  posts : list Post;
  disk : list (string * string);
  clock : Z;
  timestamps : list Z
}.

Definition M (A : Type) : Type := World -> result A * World.

Definition ret {A} (a : A) : M A := fun w => (Ok a, w).
Definition raise {A} (e : exn) : M A := fun w => (Raise e, w).
Definition bindM {A B} (m : M A) (k : A -> M B) : M B :=
  fun w =>
    match m w with
    | (Ok a, w') => k a w'
    | (Raise e, w') => (Raise e, w')
    end.

Notation "x <~ m ;; k" := (bindM m (fun x => k))
  (at level 61, m at next level, right associativity).

(** [await self._rate_limiter.acquire()] on the limiter [RateLimiter()] that
    [__init__] creates; the clock moves to the instant of the grant. *)
Definition acquire : M unit :=
  fun w =>
    match RateLimiter.acquire RateLimiter.default (fun _ => 0%N)
            (clock w) (timestamps w) with
    | RateLimiter.Granted at_ ts =>
        (Ok tt, {| backend := backend w; posts := posts w; disk := disk w;
                   clock := at_; timestamps := ts |})
    | RateLimiter.Failed e => (Raise e, w)
    | RateLimiter.Pending => (Raise Diverged, w)
    end.

(** [await self._http.post(...)]: the request is logged and the backend's
    next answer comes back; a backend that answers no more is a connection
    that fails. *)
Definition post (p : Post) : M (Http.Response Body) :=
  fun w =>
    let log := (posts w ++ [p])%list in
    match backend w with
    | [] => (Raise ConnectError,
             {| backend := []; posts := log; disk := disk w;
                clock := clock w; timestamps := timestamps w |})
    | response :: rest =>
        (Ok response,
         {| backend := rest; posts := log; disk := disk w;
            clock := clock w; timestamps := timestamps w |})
    end.

Definition lift {A} (r : result A) : M A := fun w => (r, w).

(** [Path.exists()] and [Path.read_bytes()]. *)
Fixpoint read (path : string) (files : list (string * string)) : option string :=
  match files with
  | [] => None
  | (p, bytes) :: rest => if String.eqb path p then Some bytes else read path rest
  end.

Definition exists_ (path : string) : M bool :=
  fun w => (Ok (match read path (disk w) with Some _ => true | None => false end), w).

(** [Path.name]: what follows the last [/]. *)
Fixpoint name_of (path : string) : string :=
  match path with
  | EmptyString => EmptyString
  | String c rest =>
      if Ascii.eqb c "/" then name_of rest
      else if existsb (Ascii.eqb "/") (list_ascii_of_string rest) then name_of rest
      else path
  end.

Section WithConfig.
Variable config : ExpensifyConfig.t.
(** [str(x)] for a JSON value [x] that is not a string: how Python prints
    numbers, lists and dicts is left open. *)
Variable str : Json.t -> string.

Definition credentials : Json.t :=
  Json.Dict [("partnerUserID", Json.Str (ExpensifyConfig.partner_user_id config));
             ("partnerUserSecret", Json.Str (ExpensifyConfig.partner_user_secret config))].

(** [f"{x}"] for a JSON value. *)
Definition format (x : Json.t) : string :=
  match x with
  | Json.Str s => s
  | other => str other
  end.

(** [{"responseCode": 200, "responseMessage": response.text}]. *)
Definition plain_text_success (response : Http.Response Body) : Json.t :=
  Json.Dict [("responseCode", Json.Int 200);
             ("responseMessage", Json.Str (text (Http.body response)))].

(** [x >= 400] for a JSON value [x]: only numbers compare with an [int]. *)
Definition at_least_400 (x : Json.t) : result bool :=
  match x with
  | Json.Int n => Ok (400 <=? n)%Z
  | Json.Bool b => Ok false
  | _ => Raise TypeError
  end.

Definition _request (request_type : string) (input_settings : Json.t) : M Json.t :=
  _ <~ acquire ;;
  let job_description :=
    Json.Dict [("type", Json.Str request_type);
               ("credentials", credentials);
               ("inputSettings", input_settings)] in
  response <~ post {| requestJobDescription := job_description; file := None |} ;;
  _ <~ lift (Http.raise_for_status response) ;;
  match parsed (Http.body response) with
  | None => ret (plain_text_success response)
  | Some result =>
      match result with
      | Json.Dict items =>
          failed <~ lift (at_least_400 (Json.get "responseCode" (Json.Int 0) items)) ;;
          if failed then
            raise (RuntimeError
                     ("Expensify API error: "
                      ++ format (Json.get "responseMessage" result items)))
          else ret result
      | _ => ret result
      end
  end.

Definition create_expense (expense : ExpenseData.t) : M Json.t :=
  let input_settings :=
    Json.Dict
      [("type", Json.Str "create");
       ("employeeEmail", Json.Str (ExpensifyConfig.employee_email config));
       ("transactionList",
        Json.List
          [Json.Dict
             [("merchant", Json.Str (ExpenseData.merchant expense));
              ("amount", Json.Int (ExpenseData.amount expense));
              ("currency", Json.Str (ExpenseData.currency expense));
              ("created", Json.Str (DateFormat.isoformat (ExpenseData.date expense)));
              ("category", Json.Str (ExpenseData.category expense));
              ("comment",
               Json.Str (match ExpenseData.comment expense with
                         | Some c => c
                         | None => ""
                         end))]])] in
  _request "create" input_settings.

Definition upload_receipt (expense : ExpenseData.t) (transaction_id : Json.t)
    : M Json.t :=
  let receipt_path := ExpenseData.receipt_path expense in
  present <~ exists_ receipt_path ;;
  if negb present then
    raise (FileNotFoundError ("Receipt not found: " ++ receipt_path))
  else
    _ <~ acquire ;;
    fun w =>
      let bytes := match read receipt_path (disk w) with
                   | Some b => b
                   | None => EmptyString
                   end in
      (response <~ post
         {| requestJobDescription :=
              Json.Dict
                [("type", Json.Str "create");
                 ("credentials", credentials);
                 ("inputSettings",
                  Json.Dict
                    [("type", Json.Str "receiptUpload");
                     ("employeeEmail",
                      Json.Str (ExpensifyConfig.employee_email config));
                     ("transactionID", transaction_id)])];
            file := Some (name_of receipt_path, bytes, "application/pdf") |} ;;
       _ <~ lift (Http.raise_for_status response) ;;
       match parsed (Http.body response) with
       | Some result => ret result
       | None => ret (plain_text_success response)
       end) w.

(** [transaction_list[0].get("transactionID")] once [transaction_list] has
    passed [if transaction_list:]. *)
Definition first_transaction_id (transaction_list : Json.t) : result Json.t :=
  match transaction_list with
  | Json.List (first :: _) =>
      match first with
      | Json.Dict items => Ok (Json.get "transactionID" Json.Null items)
      | _ => Raise AttributeError
      end
  | Json.Dict _ => Raise KeyError
  | Json.Str _ => Raise AttributeError
  | _ => Raise TypeError
  end.

Definition submit_expense (expense : ExpenseData.t) : M Json.t :=
  create_result <~ create_expense expense ;;
  transaction_id <~
    lift (match create_result with
          | Json.Dict items =>
              let transaction_list := Json.get "transactionList" (Json.List []) items in
              if Json.truth transaction_list then first_transaction_id transaction_list
              else Ok Json.Null
          | _ => Ok Json.Null
          end) ;;
  present <~ (if Json.truth transaction_id
              then exists_ (ExpenseData.receipt_path expense)
              else ret false) ;;
  receipt_result <~ (if Json.truth transaction_id && present
                     then upload_receipt expense transaction_id
                     else ret Json.Null) ;;
  ret (Json.Dict [("create", create_result);
                  ("receipt", receipt_result);
                  ("transaction_id", transaction_id)]).

End WithConfig.

End Client.

(** ** src/expensify_os/cli.py *)

Module AppConfig.
Record t : Type := {
  expensify : ExpensifyConfig.t;
  plugins : list (string * PluginConfig.t)     (* a dict, in file order *)
}.
End AppConfig.

Module Cli.

(** The ["status"] of a result record. *)
Inductive status : Type := success | skipped | error.

(** One entry of [results]: [{"plugin": ..., "status": ..., ...}]. *)
Record RunResult : Type := {
  plugin : string;
  outcome : status;
  amount : option Z;
  currency : option string;
  message : option string        (* the key "error" *)
}.

(** How the process ends: [_run_async] returns, [sys.exit(code)] is called,
    or an exception leaves it. *)
Inductive exit : Type :=
| Returned
| SysExit (code : Z)
| Uncaught (e : exn).

Definition failure (x : exit) : Prop := x <> Returned.

Section Run.
(** The state of everything the plugins and the client touch. *)
Variable S : Type.

(** An [ExpensePlugin] instance: the two coroutines the run awaits. *)
Record Plugin : Type := {
  fetch_expense : Z -> Z -> bool -> S -> result (option ExpenseData.t) * S;
  cleanup : S -> result unit * S
}.

Variable config : AppConfig.t.
(** [_registry]: the plugin classes by name. *)
Variable registry : string -> option (PluginConfig.t -> Plugin).
(** [ExpensifyClient(config.expensify).submit_expense], on a fresh client. *)
Variable submit_expense : ExpenseData.t -> S -> result Json.t * S.
(** [str(e)] and [datetime.date.today()]. *)
Variable str : exn -> string.
Variable today : Date.date.

Fixpoint lookup (name : string) (items : list (string * PluginConfig.t))
    : option PluginConfig.t :=
  match items with
  | [] => None
  | (k, v) :: rest => if String.eqb name k then Some v else lookup name rest
  end.

(** [name in available]. *)
Definition available (name : string) : bool :=
  match registry name with Some _ => true | None => false end.

(** The target month: [--month], or the month before today's. *)
Definition target_month (month : option (Z * Z)) : Z * Z :=
  match month with
  | Some (year, mon) => (year, mon)
  | None =>
      if Date.month today =? 1 then (Date.year today - 1, 12)
      else (Date.year today, Date.month today - 1)
  end.

(** [plugin_names]. *)
Definition plugin_names (sources : list string) : list string :=
  match sources with
  | _ :: _ =>
      filter (fun s => match lookup s (AppConfig.plugins config) with
                       | Some pc => PluginConfig.enabled pc
                       | None => false
                       end) sources
  | [] =>
      map fst (filter (fun entry => PluginConfig.enabled (snd entry)
                                    && available (fst entry))
                 (AppConfig.plugins config))
  end.

(** The [try] block of the loop body, with its [except Exception]: the
    record the plugin gets. *)
Definition try_plugin (name : string) (p : Plugin) (year mon : Z) (dry_run : bool)
    (s : S) : RunResult * S :=
  let failed e := {| plugin := name; outcome := error; amount := None;
                     currency := None; message := Some (str e) |} in
  let submitted expense :=
    {| plugin := name; outcome := success;
       amount := Some (ExpenseData.amount expense);
       currency := Some (ExpenseData.currency expense); message := None |} in
  match fetch_expense p year mon dry_run s with
  | (Raise e, s1) => (failed e, s1)
  | (Ok None, s1) =>
      ({| plugin := name; outcome := skipped; amount := None;
          currency := None; message := None |}, s1)
  | (Ok (Some expense), s1) =>
      if negb dry_run then
        match submit_expense expense s1 with
        | (Raise e, s2) => (failed e, s2)
        | (Ok _, s2) => (submitted expense, s2)
        end
      else (submitted expense, s1)
  end.

(** [for name in plugin_names: ...]: an exception of [config.plugins[name]],
    of [get_plugin] or of the [finally] block leaves the loop. *)
Fixpoint run_plugins (names : list string) (year mon : Z) (dry_run : bool)
    (results : list RunResult) (s : S) : option exn * list RunResult * S :=
  match names with
  | [] => (None, results, s)
  | name :: rest =>
      match lookup name (AppConfig.plugins config) with
      | None => (Some KeyError, results, s)
      | Some plugin_config =>
          match registry name with
          | None => (Some KeyError, results, s)
          | Some cls =>
              let p := cls plugin_config in
              let '(record, s1) := try_plugin name p year mon dry_run s in
              match cleanup p s1 with
              | (Raise e, s2) => (Some e, results ++ [record], s2)
              | (Ok _, s2) =>
                  run_plugins rest year mon dry_run (results ++ [record]) s2
              end
          end
      end
  end.

Definition is_error (r : RunResult) : bool :=
  match outcome r with error => true | _ => false end.

(** [sum(1 for r in results if r["status"] == "error")]. *)
Definition error_count (results : list RunResult) : Z :=
  Z.of_nat (length (filter is_error results)).

Definition _run_async (month : option (Z * Z)) (sources : list string)
    (dry_run : bool) (s : S) : exit * list RunResult * S :=
  let '(year, mon) := target_month month in
  match plugin_names sources with
  | [] => (SysExit 1, [], s)
  | names =>
      match run_plugins names year mon dry_run [] s with
      | (Some e, results, s') => (Uncaught e, results, s')
      | (None, results, s') =>
          if 0 <? error_count results then (SysExit 1, results, s')
          else (Returned, results, s')
      end
  end.

(** Every selected plugin is registered and no [cleanup] raises. *)
Definition well_behaved (names : list string) : Prop :=
  forall name, In name names ->
    exists cls, registry name = Some cls /\
      forall pc s, exists s', cleanup (cls pc) s = (Ok tt, s').

End Run.

Arguments fetch_expense {S} _ _ _ _ _.
Arguments cleanup {S} _ _.

End Cli.

(** ** Sample data, from the test suite *)

Module Samples.
Local Open Scope string_scope.

(** The limiter of the test suite's blocking test, in ticks of 0.1 s:
    2 per 3 ticks, 100 per 600; and a caller that never oversleeps. *)
Definition two_per_three : RateLimiter.Config :=
  {| RateLimiter.short_limit := 2; RateLimiter.short_window := 3;
     RateLimiter.long_limit := 100; RateLimiter.long_window := 600 |}.

(** 2 per 10 ticks and 20 per 60. *)
Definition two_per_ten : RateLimiter.Config :=
  {| RateLimiter.short_limit := 2; RateLimiter.short_window := 10;
     RateLimiter.long_limit := 20; RateLimiter.long_window := 60 |}.

Definition after (g : Z) : RateLimiter.call :=
  {| RateLimiter.gap := g; RateLimiter.lag := fun _ => 0%N |}.

(** The decimal numeral [c * 10^e]: "5000.50" is [numeral 500050 (-2)]. *)
Definition numeral (c e : Z) : Decimal.t :=
  {| Decimal.coefficient := c; Decimal.exponent := e |}.

Definition january : Date.date := {| Date.year := 2026; Date.month := 1; Date.day := 1 |}.
Definition february : Date.date := {| Date.year := 2026; Date.month := 2; Date.day := 1 |}.

(** A last page of one bucket holding these amounts. *)
Definition last_page (amounts : list Decimal.t) : CostReport.Page Anthropic.CostResult :=
  {| CostReport.data :=
       Some [ {| CostReport.results :=
                   Some (map (fun a => {| Anthropic.amount := Some a |}) amounts) |} ];
     CostReport.has_more := false;
     CostReport.next_page := None |}.

(** The report of the test suite: the amounts "5000.50" and "2500.25". *)
Definition single_page : CostReport.Page Anthropic.CostResult :=
  last_page [numeral 500050 (-2); numeral 250025 (-2)].

(** A vendor that answers HTTP 200 with these pages, one per request. *)
Definition answering {R P : Type} (pages : list (CostReport.Page R))
    : CostReport.World R P :=
  {| CostReport.script :=
       map (fun p => {| Http.status_code := 200; Http.body := p |}) pages;
     CostReport.sent := [];
     CostReport.files := [] |}.

Definition some_config : PluginConfig.t :=
  {| PluginConfig.enabled := true;
     PluginConfig.credentials := [];
     PluginConfig.category := "AI & ML Services" |}.

(** [{"data": [], "has_more": false}]. *)
Definition no_buckets {R : Type} : CostReport.Page R :=
  {| CostReport.data := Some []; CostReport.has_more := false;
     CostReport.next_page := None |}.

(** The dry run of the test suite: one result of "5000.00" cents, and the
    record it gives. *)
Definition five_thousand : CostReport.Page Anthropic.CostResult :=
  last_page [numeral 500000 (-2)].

Definition dry_run_record : ExpenseData.t :=
  {| ExpenseData.merchant := "Anthropic";
     ExpenseData.amount := 5000;
     ExpenseData.currency := "USD";
     ExpenseData.date := january;
     ExpenseData.category := "AI & ML Services";
     ExpenseData.comment := Some "Anthropic API usage for 2026-01";
     ExpenseData.receipt_path := "downloads/anthropic/anthropic_2026-01.pdf" |}.



Definition expensify_config : ExpensifyConfig.t :=
  {| ExpensifyConfig.partner_user_id := "test_user";
     ExpensifyConfig.partner_user_secret := "test_secret";
     ExpensifyConfig.employee_email := "test@example.com";
     ExpensifyConfig.default_currency := "EUR" |}.

Definition expense : ExpenseData.t :=
  {| ExpenseData.merchant := "Anthropic";
     ExpenseData.amount := 12345;
     ExpenseData.currency := "USD";
     ExpenseData.date := {| Date.year := 2026; Date.month := 1; Date.day := 1 |};
     ExpenseData.category := "AI & ML Services";
     ExpenseData.comment := Some "Claude API usage for 2026-01";
     ExpenseData.receipt_path := "/tmp/receipt.pdf" |}.

(** HTTP 200 with a JSON body, and HTTP 200 with a body that is not JSON. *)
Definition json_200 (j : Json.t) : Http.Response Client.Body :=
  {| Http.status_code := 200;
     Http.body := {| Client.text := "{...}"; Client.parsed := Some j |} |}.


(** A fresh client, the receipt of [expense] on disk, and a backend that
    gives these answers. *)
Definition client_world (answers : list (Http.Response Client.Body)) : Client.World :=
  {| Client.backend := answers;
     Client.posts := [];
     Client.disk := [("/tmp/receipt.pdf", "%PDF-1.4 test receipt")];
     Client.clock := 0;
     Client.timestamps := [] |}.

Definition invalid_credentials : Json.t :=
  Json.Dict [("responseCode", Json.Int 410);
             ("responseMessage", Json.Str "Invalid credentials")].

Definition created (transaction_id : string) : Json.t :=
  Json.Dict [("responseCode", Json.Int 200);
             ("transactionList",
              Json.List [Json.Dict [("transactionID", Json.Str transaction_id)]])].

Definition code_200 : Json.t := Json.Dict [("responseCode", Json.Int 200)].

(** A run over two plugins, one that fails to fetch and one that has no
    charge; nothing else is touched, so the state is [unit]. *)
Definition failing_plugin : Cli.Plugin unit :=
  {| Cli.fetch_expense := fun _ _ _ s => (Raise ConnectError, s);
     Cli.cleanup := fun s => (Ok tt, s) |}.

Definition idle_plugin : Cli.Plugin unit :=
  {| Cli.fetch_expense := fun _ _ _ s => (Ok None, s);
     Cli.cleanup := fun s => (Ok tt, s) |}.

Definition registry (name : string) : option (PluginConfig.t -> Cli.Plugin unit) :=
  if String.eqb name "anthropic" then Some (fun _ => failing_plugin)
  else if String.eqb name "openai" then Some (fun _ => idle_plugin)
  else None.

Definition enabled_plugin : PluginConfig.t :=
  {| PluginConfig.enabled := true;
     PluginConfig.credentials := [];
     PluginConfig.category := "AI & ML Services" |}.

Definition app_config (names : list string) : AppConfig.t :=
  {| AppConfig.expensify := expensify_config;
     AppConfig.plugins := map (fun name => (name, enabled_plugin)) names |}.

Definition no_submit (e : ExpenseData.t) (s : unit) : result Json.t * unit :=
  (Ok Json.Null, s).

Definition a_day : Date.date := {| Date.year := 2026; Date.month := 2; Date.day := 10 |}.

End Samples.

(** * cli.py: [MonthType] *)

Module MonthType.
Local Open Scope string_scope.

(** [s.split(sep)] for a one-character [sep]. *)
Fixpoint split (sep : ascii) (s : string) : list string :=
  match s with
  | EmptyString => [EmptyString]
  | String c rest =>
      if Ascii.eqb c sep then EmptyString :: split sep rest
      else match split sep rest with
           | part :: parts => String c part :: parts
           | [] => [String c EmptyString]
           end
  end.

(** What [convert] is given: a tuple, or the text of the option. *)
Inductive value : Type :=
| Tuple (year month : Z)
| Text (s : string).

(** What it does: return a tuple, or [self.fail(message)]. *)
Inductive converted : Type :=
| Month (year month : Z)
| BadParameter (message : string).

Section Convert.
(** [int(s)] for a [str]; [None] is its [ValueError]. *)
Variable int : string -> option Z.

(** The [try] block; [None] is a [ValueError] or an [IndexError]. *)
Definition parse (s : string) : option (Z * Z) :=
  match split "-" s with
  | [] => None
  | part0 :: parts =>
      match int part0 with
      | None => None
      | Some year =>
          match parts with
          | [] => None
          | part1 :: _ =>
              match int part1 with
              | None => None
              | Some month =>
                  if negb ((1 <=? month)%Z && (month <=? 12)%Z) then None
                  else Some (year, month)
              end
          end
      end
  end.

Definition convert (v : value) : converted :=
  match v with
  | Tuple year month => Month year month
  | Text s =>
      match parse s with
      | Some (year, month) => Month year month
      | None =>
          BadParameter ("'" ++ s ++ "' is not a valid month (expected YYYY-MM)")
      end
  end.

End Convert.

End MonthType.

(** * cli.py: the [validate] command *)

Module Validate.

Definition is_KeyError (e : exn) : bool :=
  match e with KeyError => true | _ => false end.

Section Validate.
(** The state of everything the plugins touch. *)
Variable S : Type.

(** An [ExpensePlugin] instance: the two coroutines the command awaits. *)
Record Plugin : Type := {
  validate_credentials : S -> result bool * S;
  cleanup : S -> result unit * S
}.

(** [_registry]: the plugin classes by name. *)
Variable registry : string -> option (PluginConfig.t -> Plugin).

(** The [try] block of the loop body, from [get_plugin] to [cleanup]: the
    new value of [all_ok], or the exception that leaves the block. *)
Definition try_plugin (name : string) (plugin_config : PluginConfig.t)
    (all_ok : bool) (s : S) : result bool * S :=
  match registry name with
  | None => (Raise KeyError, s)
  | Some cls =>
      let plugin := cls plugin_config in
      match validate_credentials plugin s with
      | (Raise e, s1) => (Raise e, s1)
      | (Ok ok, s1) =>
          let all_ok := if negb ok then false else all_ok in
          match cleanup plugin s1 with
          | (Raise e, s2) => (Raise e, s2)
          | (Ok _, s2) => (Ok all_ok, s2)
          end
      end
  end.

(** [for name, plugin_config in config.plugins.items(): ...] with its
    [except KeyError]: the exception that leaves the loop, if any, and
    [all_ok]. *)
Fixpoint validate_plugins (items : list (string * PluginConfig.t))
    (all_ok : bool) (s : S) : option exn * bool * S :=
  match items with
  | [] => (None, all_ok, s)
  | (name, plugin_config) :: rest =>
      if negb (PluginConfig.enabled plugin_config) then
        validate_plugins rest all_ok s
      else
        match try_plugin name plugin_config all_ok s with
        | (Ok all_ok', s') => validate_plugins rest all_ok' s'
        | (Raise e, s') =>
            if is_KeyError e then validate_plugins rest false s'
            else (Some e, all_ok, s')
        end
  end.

(** [_validate_async], [loaded] being how [load_config] ended. *)
Definition _validate_async (loaded : result AppConfig.t) (s : S)
    : Cli.exit * S :=
  match loaded with
  | Raise _ => (Cli.SysExit 1, s)
  | Ok config =>
      match validate_plugins (AppConfig.plugins config) true s with
      | (Some e, _, s') => (Cli.Uncaught e, s')
      | (None, all_ok, s') =>
          if negb all_ok then (Cli.SysExit 1, s') else (Cli.Returned, s')
      end
  end.

(** For the statements: what [validate] reports for one entry of [config.plugins], [verdict]
    being what [validate_credentials] returns. *)
Definition passes (verdict : string -> PluginConfig.t -> bool)
    (entry : string * PluginConfig.t) : bool :=
  negb (PluginConfig.enabled (snd entry))
  || match registry (fst entry) with
     | Some _ => verdict (fst entry) (snd entry)
     | None => false
     end.

End Validate.

Arguments validate_credentials {S} _ _.
Arguments cleanup {S} _ _.

End Validate.

(** * utils/secrets.py *)

Module Secrets.
Local Open Scope string_scope.

Definition OP_PREFIX : string := "op://".

(** [is_secret_reference], on a [str]. *)
Definition is_secret_reference (value : string) : bool :=
  String.prefix OP_PREFIX value.

Section Op.
(** The [try] block of [resolve_secret]: what [op read reference] printed,
    stripped, or the [RuntimeError] its failure is turned into. *)
Variable op_read : string -> result string.

Definition resolve_secret (reference : string) : result string :=
  if negb (is_secret_reference reference) then Ok reference
  else op_read reference.

(** [for key, value in data.items(): resolved[key] = ...], [resolve] giving
    the new value. *)
Definition walk (resolve : Json.t -> result Json.t)
    : list (string * Json.t) -> result (list (string * Json.t)) :=
  fix walk (items : list (string * Json.t)) :=
    match items with
    | [] => Ok []
    | (key, value) :: rest =>
        match resolve value with
        | Raise e => Raise e
        | Ok value' =>
            match walk rest with
            | Raise e => Raise e
            | Ok rest' => Ok ((key, value') :: rest')
            end
        end
    end.

(** The three branches of the loop body: what is stored under the key. *)
Fixpoint resolve_value (value : Json.t) : result Json.t :=
  match value with
  | Json.Dict items =>
      match walk resolve_value items with
      | Raise e => Raise e
      | Ok items' => Ok (Json.Dict items')
      end
  | Json.Str s =>
      if is_secret_reference s then
        match resolve_secret s with
        | Raise e => Raise e
        | Ok secret => Ok (Json.Str secret)
        end
      else Ok value
  | _ => Ok value
  end.

Definition resolve_secrets_in_dict (data : list (string * Json.t))
    : result (list (string * Json.t)) :=
  walk resolve_value data.

(** For the statements, how a walk ends: with a result when every reference it met resolved,
    with the error of a reference that did not otherwise. *)
Definition ends_well {A : Type} (refs : list string) (r : result A) : Prop :=
  match r with
  | Ok _ => forall reference, In reference refs ->
                              exists secret, op_read reference = Ok secret
  | Raise e => exists reference, In reference refs /\ op_read reference = Raise e
  end.

End Op.

(** For the statements: the references a walk through the dictionaries
    meets, in the order it meets them. *)
Fixpoint references_of (value : Json.t) : list string :=
  match value with
  | Json.Dict items => flat_map (fun entry => references_of (snd entry)) items
  | Json.Str s => if is_secret_reference s then [s] else []
  | _ => []
  end.

Definition references (data : list (string * Json.t)) : list string :=
  flat_map (fun entry => references_of (snd entry)) data.

End Secrets.

(** * config.py *)

Module ConfigFile.
Local Open Scope string_scope.

Section Files.
(** [Path.exists] and [Path.home()]; paths are held as their [str]. *)
Variable exists_ : string -> bool.
Variable home : string.

Definition DEFAULT_CONFIG_PATHS : list string :=
  [ "config.yaml"; "config.yml";
    home ++ "/.config/expensify-os/config.yaml" ].

(** [", ".join(...)]. *)
Fixpoint join (sep : string) (parts : list string) : string :=
  match parts with
  | [] => ""
  | [p] => p
  | p :: rest => p ++ sep ++ join sep rest
  end.

Definition find_config_file (config_path : option string) : result string :=
  match config_path with
  | Some path =>
      if exists_ path then Ok path
      else Raise (FileNotFoundError ("Config file not found: " ++ path))
  | None =>
      match find exists_ DEFAULT_CONFIG_PATHS with
      | Some path => Ok path
      | None =>
          Raise (FileNotFoundError
                   ("No config file found. Searched: "
                    ++ join ", " DEFAULT_CONFIG_PATHS
                    ++ ". Create one from config.example.yaml."))
      end
  end.

End Files.

End ConfigFile.

(** * plugins/vodafone.py: the amount of [_extract_amount] *)

Module Vodafone.

(** The characters [[\d.,]] of the group the regular expression
    [€\s*([\d.,]+)] captures, the digits being the ASCII ones. *)
Inductive digit : Type := D0 | D1 | D2 | D3 | D4 | D5 | D6 | D7 | D8 | D9.

Inductive char : Type :=
| Digit (d : digit)
| Dot
| Comma.

Definition value (d : digit) : Z :=
  match d with
  | D0 => 0 | D1 => 1 | D2 => 2 | D3 => 3 | D4 => 4
  | D5 => 5 | D6 => 6 | D7 => 7 | D8 => 8 | D9 => 9
  end.

Definition is_dot (c : char) : bool :=
  match c with Dot => true | _ => false end.

Definition is_comma (c : char) : bool :=
  match c with Comma => true | _ => false end.

(** [s.replace(old, new)] for a one-character [old]. *)
Definition replace (old : char -> bool) (new : list char) (s : list char)
    : list char :=
  flat_map (fun c => if old c then new else [c]) s.

(** [int(s)] for a string of digits ([0] for the empty one, as in
    [int(intpart + fracpart or "0")]). *)
Definition number (ds : list digit) : Z :=
  fold_left (fun acc d => 10 * acc + value d) ds 0.

(** The longest prefix of digits, and what follows it. *)
Fixpoint leading_digits (s : list char) : list digit * list char :=
  match s with
  | Digit d :: rest =>
      let '(ds, rest') := leading_digits rest in (d :: ds, rest')
  | _ => ([], s)
  end.

(** [Decimal(s)] for [s] made of these characters: the parser accepts
    digits, then possibly a point and digits, with a digit somewhere;
    [None] is [decimal.InvalidOperation]. *)
Definition Decimal_of_str (s : list char) : option Decimal.t :=
  let '(intpart, rest) := leading_digits s in
  match rest with
  | [] =>
      match intpart with
      | [] => None
      | _ => Some {| Decimal.coefficient := number intpart;
                     Decimal.exponent := 0 |}
      end
  | Dot :: rest =>
      let '(fracpart, rest') := leading_digits rest in
      match rest', (intpart ++ fracpart)%list with
      | [], _ :: _ =>
          Some {| Decimal.coefficient := number (intpart ++ fracpart);
                  Decimal.exponent := - Z.of_nat (length fracpart) |}
      | _, _ => None
      end
  | _ => None
  end.

(** [int(d)], that is [d.__int__()]: the digits after the point are cut. *)
Definition to_int (d : Decimal.t) : Z :=
  if 0 <=? Decimal.exponent d
  then Decimal.coefficient d * 10 ^ Decimal.exponent d
  else Z.quot (Decimal.coefficient d) (10 ^ (- Decimal.exponent d)).

(** How the end of [_extract_amount] goes. *)
Inductive extracted : Type :=
| Returned (amount : option Z)
| InvalidOperation
| Raised (e : exn).

(** [_extract_amount] from [match = re.search(...)] on, [group1] being
    [match.group(1)] when there is a match. *)
Definition amount_of_match (group1 : option (list char)) : extracted :=
  match group1 with
  | None => Returned None
  | Some text =>
      let amount_str := replace is_comma [Dot] (replace is_dot [] text) in
      match Decimal_of_str amount_str with
      | None => InvalidOperation
      | Some amount_eur =>
          match Decimal.mul amount_eur (Decimal.of_int 100) with
          | Raise e => Raised e
          | Ok product => Returned (Some (to_int product))
          end
      end
  end.

(** For the statements: the digits of a text, and how many commas it
    has. *)
Definition digits_of (s : list char) : list digit :=
  flat_map (fun c => match c with Digit d => [d] | _ => [] end) s.

Definition commas (s : list char) : nat := length (filter is_comma s).

End Vodafone.

(** ** Further sample data *)

Module Cases.
Local Open Scope string_scope.

(** A first page, "1000.00" with more to come; a server error; and a vendor
    that answers the first page, then fails, then answers the one-page
    report of the test suite. *)
Definition first_page : CostReport.Page Anthropic.CostResult :=
  {| CostReport.data :=
       Some [ {| CostReport.results :=
                   Some [ {| Anthropic.amount := Some (Samples.numeral 100000 (-2)) |} ] |} ];
     CostReport.has_more := true;
     CostReport.next_page := Some "2026-01-02T00:00:00Z" |}.

Definition status_500 {R : Type} : Http.Response (CostReport.Page R) :=
  {| Http.status_code := 500; Http.body := Samples.no_buckets |}.

Definition status_200 {R : Type} (p : CostReport.Page R)
    : Http.Response (CostReport.Page R) :=
  {| Http.status_code := 200; Http.body := p |}.

Definition flaky_vendor : Anthropic.W :=
  {| CostReport.script := [status_200 first_page; status_500;
                           status_200 Samples.single_page];
     CostReport.sent := [];
     CostReport.files := [] |}.

(** A backend that is down, and the expense of the test suite whose receipt
    was never written. *)
Definition unavailable : Http.Response Client.Body :=
  {| Http.status_code := 503;
     Http.body := {| Client.text := "Service Unavailable"; Client.parsed := None |} |}.

Definition expense_without_receipt : ExpenseData.t :=
  {| ExpenseData.merchant := "Test";
     ExpenseData.amount := 100;
     ExpenseData.currency := "EUR";
     ExpenseData.date := {| Date.year := 2026; Date.month := 1; Date.day := 1 |};
     ExpenseData.category := "Test";
     ExpenseData.comment := None;
     ExpenseData.receipt_path := "/tmp/nonexistent.pdf" |}.

(** Plugins that do nothing but leave a trace: [fetch_expense] ends as
    [outcome] says and [cleanup] writes the plugin's name in the log, which
    is the whole state. *)
Definition traced_plugin (outcome : string -> result (option ExpenseData.t))
    (name : string) : Cli.Plugin (list string) :=
  {| Cli.fetch_expense := fun _ _ _ log => (outcome name, log);
     Cli.cleanup := fun log => (Ok tt, (log ++ [name])%list) |}.

Definition traced_registry (outcome : string -> result (option ExpenseData.t))
    (name : string) : option (PluginConfig.t -> Cli.Plugin (list string)) :=
  Some (fun _ => traced_plugin outcome name).

Definition traced_submit (outcome : ExpenseData.t -> result Json.t)
    (e : ExpenseData.t) (log : list string) : result Json.t * list string :=
  (outcome e, log).

(** Plugins for [validate]: one whose credentials are accepted or not, one
    whose [validate_credentials] raises. *)
Definition checked_plugin (ok : bool) : Validate.Plugin unit :=
  {| Validate.validate_credentials := fun s => (Ok ok, s);
     Validate.cleanup := fun s => (Ok tt, s) |}.

Definition raising_plugin (e : exn) : Validate.Plugin unit :=
  {| Validate.validate_credentials := fun s => (Raise e, s);
     Validate.cleanup := fun s => (Ok tt, s) |}.

Definition validators (name : string)
    : option (PluginConfig.t -> Validate.Plugin unit) :=
  if String.eqb name "anthropic" then Some (fun _ => checked_plugin true)
  else if String.eqb name "openai" then Some (fun _ => checked_plugin false)
  else if String.eqb name "vodafone" then Some (fun _ => raising_plugin ConnectError)
  else None.

Definition accepted (name : string) (_ : PluginConfig.t) : bool :=
  String.eqb name "anthropic".

(** A configuration as [yaml.safe_load] returns it, with two references,
    and a vault that knows them. *)
Definition raw_config : list (string * Json.t) :=
  [ ("expensify",
     Json.Dict [ ("partner_user_id", Json.Str "op://Private/Expensify/user");
                 ("employee_email", Json.Str "me@example.com") ]);
    ("plugins",
     Json.Dict [ ("anthropic",
                  Json.Dict [ ("enabled", Json.Bool true);
                              ("credentials",
                               Json.Dict [ ("admin_api_key",
                                            Json.Str "op://Private/Anthropic/key") ]) ]) ]) ].

Definition plain_config : list (string * Json.t) :=
  [ ("expensify", Json.Dict [ ("employee_email", Json.Str "me@example.com") ]);
    ("tags", Json.List [ Json.Str "op://Private/in/a-list" ]) ].

Definition vault (reference : string) : result string :=
  if String.eqb reference "op://Private/Expensify/user" then Ok "user-1"
  else if String.eqb reference "op://Private/Anthropic/key" then Ok "sk-ant-admin"
  else Raise (RuntimeError "Failed to resolve secret").

Definition locked_vault (reference : string) : result string :=
  Raise (RuntimeError "Timed out resolving secret").

(** An [int] that reads the two texts of an example. *)
Definition int_of (s : string) : option Z :=
  if String.eqb s "2026" then Some 2026
  else if String.eqb s "01" then Some 1
  else None.

End Cases.

(** * Theorems *)

Module DecimalFacts.
Import Decimal.

(** [ndigits] counts decimal digits. *)
Lemma ndigits_aux_pos (fuel : nat) (n : Z) : (1 <= ndigits_aux fuel n)%Z.
Proof.
  revert n. induction fuel as [|fuel IH]; intros n; cbn [ndigits_aux]; [lia|].
  destruct (n <? 10)%Z; [lia|]. specialize (IH (n / 10)%Z). lia.
Qed.

Lemma ndigits_aux_spec (fuel : nat) :
  forall n : Z,
    (0 < n)%Z -> (n < 10 ^ (Z.of_nat fuel + 1))%Z ->
    (10 ^ (ndigits_aux fuel n - 1) <= n < 10 ^ ndigits_aux fuel n)%Z.
Proof.
  induction fuel as [|fuel IH]; intros n Hpos Hlt.
  - simpl in *. lia.
  - cbn [ndigits_aux]. destruct (Z.ltb_spec n 10) as [H|H];
      [change (10 ^ (1 - 1))%Z with 1%Z; change (10 ^ 1)%Z with 10%Z; lia|].
    assert (Hq : (0 < n / 10)%Z) by (apply Z.div_str_pos; lia).
    assert (Hqlt : (n / 10 < 10 ^ (Z.of_nat fuel + 1))%Z).
    { apply Z.div_lt_upper_bound; [lia|].
      replace (Z.of_nat (S fuel) + 1)%Z with (Z.succ (Z.of_nat fuel + 1)) in Hlt by lia.
      rewrite Z.pow_succ_r in Hlt by lia. exact Hlt. }
    specialize (IH _ Hq Hqlt).
    pose proof (ndigits_aux_pos fuel (n / 10)) as Hd.
    set (d := ndigits_aux fuel (n / 10)) in *.
    replace (1 + d - 1)%Z with (Z.succ (d - 1)) by lia.
    replace (1 + d)%Z with (Z.succ d) by lia.
    rewrite !Z.pow_succ_r by lia.
    pose proof (Z.div_mod n 10 ltac:(lia)) as Hdm.
    pose proof (Z.mod_pos_bound n 10 ltac:(lia)) as Hmod.
    lia.
Qed.

Lemma ndigits_spec (n : Z) :
  (0 < n)%Z -> (10 ^ (ndigits n - 1) <= n < 10 ^ ndigits n)%Z.
Proof.
  intros Hpos. unfold ndigits. apply ndigits_aux_spec; [assumption|].
  rewrite Z2Nat.id by apply Z.log2_nonneg.
  destruct (Z.log2_spec n Hpos) as [_ Hlt].
  eapply Z.lt_le_trans; [exact Hlt|].
  replace (Z.succ (Z.log2 n)) with (Z.log2 n + 1)%Z by lia.
  apply Z.pow_le_mono_l. lia.
Qed.

(** A number within the context's precision and exponent range passes
    through [_fix] unchanged. *)
Lemma _fix_fits (d : t) : fits_context d -> _fix d = Ok d.
Proof.
  destruct d as [c e]. unfold fits_context, _fix. cbn [coefficient exponent].
  intros (Hlen & Hlo & Hhi).
  destruct (c =? 0) eqn:Hc.
  - apply Z.eqb_eq in Hc. subst c. do 2 f_equal.
    change (ndigits (Z.abs 0)) with 1 in Hhi.
    unfold Etop, Etiny, Emax, Emin, prec in *. lia.
  - set (len := ndigits (Z.abs c)) in *.
    destruct (Z.ltb_spec Etop (len + e - prec)) as [H|_];
      [unfold Etop, Etiny, Emax, Emin, prec in *; lia|].
    destruct (Z.ltb_spec (len + e - prec) Etiny) as [_|_].
    + destruct (Z.ltb_spec e Etiny) as [H|_]; [lia|reflexivity].
    + destruct (Z.ltb_spec e (len + e - prec)) as [H|_]; [|reflexivity].
      unfold prec in *; lia.
Qed.

Lemma add_fits (a b : t) :
  fits_context (exact_add a b) -> add a b = Ok (exact_add a b).
Proof. apply _fix_fits. Qed.

Lemma mul_fits (a b : t) :
  fits_context (exact_mul a b) -> mul a b = Ok (exact_mul a b).
Proof. apply _fix_fits. Qed.






Local Open Scope Q_scope.

Lemma ten_nonzero : ~ inject_Z 10 == 0.
Proof. discriminate. Qed.

(** Scaling the coefficient up is lowering the exponent. *)
Lemma to_Q_shift (c e k : Z) :
  (0 <= k)%Z ->
  inject_Z (c * 10 ^ k) * inject_Z 10 ^ e == inject_Z c * inject_Z 10 ^ (k + e).
Proof.
  intros Hk. rewrite inject_Z_mult, (Zpower_Qpower 10 k Hk).
  rewrite (Qpower_plus _ k e ten_nonzero). ring.
Qed.

Lemma to_Q_exact_add (a b : t) :
  to_Q (exact_add a b) == to_Q a + to_Q b.
Proof.
  destruct a as [ca ea], b as [cb eb]. unfold to_Q, exact_add. simpl.
  rewrite inject_Z_plus, Qmult_plus_distr_l.
  rewrite !to_Q_shift by lia.
  replace (ea - Z.min ea eb + Z.min ea eb)%Z with ea by lia.
  replace (eb - Z.min ea eb + Z.min ea eb)%Z with eb by lia.
  reflexivity.
Qed.



Lemma to_Q_zero : to_Q zero == 0.
Proof. reflexivity. Qed.

(** [math.ceil] is the ceiling of the number denoted. *)
Lemma ceil_is_Qceiling (d : t) : ceil d = Qceiling (to_Q d).
Proof.
  destruct d as [c e]. unfold ceil, to_Q. simpl.
  destruct (0 <=? e)%Z eqn:He.
  - apply Z.leb_le in He.
    rewrite <- (Zpower_Qpower 10 e He), <- inject_Z_mult.
    symmetry. apply Qceiling_Z.
  - apply Z.leb_gt in He.
    assert (Hp : (0 < 10 ^ (- e))%Z) by (apply Z.pow_pos_nonneg; lia).
    assert (E : inject_Z c * inject_Z 10 ^ e == c # Z.to_pos (10 ^ (- e))).
    { replace e with (- - e)%Z at 1 by lia.
      rewrite Qpower_opp, <- (Zpower_Qpower 10 (- e)) by lia.
      unfold Qeq, Qmult, Qinv, inject_Z. simpl.
      destruct (10 ^ (- e))%Z as [|p|p] eqn:Hpow; try lia.
      simpl. lia. }
    rewrite E. unfold Qceiling, Qfloor, Qopp. simpl.
    rewrite Z2Pos.id by assumption. reflexivity.
Qed.

End DecimalFacts.

Module CostReportFacts.
Import CostReport.

Section Exact.
Variables R P : Type.
Variable params : option string -> P.
Variable accumulate : Decimal.t -> R -> result Decimal.t.
Variable term : R -> Decimal.t.
Variable term_fits : R -> Prop.
Hypothesis accumulate_exact :
  forall total r,
    term_fits r ->
    Decimal.fits_context (Decimal.exact_add total (term r)) ->
    accumulate total r = Ok (Decimal.exact_add total (term r)).

Lemma sum_results_exact (rs : list R) :
  forall total,
    within_precision term term_fits total rs ->
    sum_results accumulate total rs = Ok (exact_total term total rs).
Proof.
  induction rs as [|r rs IH]; intros total Hfit; simpl; [reflexivity|].
  destruct Hfit as (Hr & Hsum & Hrest).
  rewrite (accumulate_exact total r Hr Hsum). simpl. now apply IH.
Qed.

Lemma exact_total_app (l1 l2 : list R) :
  forall total,
    exact_total term total (l1 ++ l2)
    = exact_total term (exact_total term total l1) l2.
Proof. induction l1 as [|r l1 IH]; intros total; simpl; auto. Qed.

Lemma within_precision_app (l1 l2 : list R) :
  forall total,
    within_precision term term_fits total (l1 ++ l2) ->
    within_precision term term_fits total l1 /\
    within_precision term term_fits (exact_total term total l1) l2.
Proof.
  induction l1 as [|r l1 IH]; intros total; simpl; [tauto|].
  intros (Hr & Hsum & Hrest). destruct (IH _ Hrest). tauto.
Qed.

Lemma sum_buckets_exact (bs : list (Bucket R)) :
  forall total,
    within_precision term term_fits total (flat_map get_results bs) ->
    sum_buckets accumulate total bs
    = Ok (exact_total term total (flat_map get_results bs)).
Proof.
  induction bs as [|b bs IH]; intros total Hfit; simpl; [reflexivity|].
  simpl in Hfit. apply within_precision_app in Hfit. destruct Hfit as [Hb Hbs].
  rewrite (sum_results_exact _ _ Hb). simpl.
  rewrite exact_total_app. now apply IH.
Qed.

(** The walk: one request per page, each with the cursor the page before
    supplied, and every result of every page added once. *)
Lemma fetch_pages_exact (script : list (Http.Response (Page R))) :
  forall pages sent page total,
    pages_walked script = Some pages ->
    within_precision term term_fits total (all_results pages) ->
    fetch_pages params accumulate script sent page total
    = (Ok (exact_total term total (all_results pages)),
       (skipn (length pages) script,
        sent ++ map params
                  (truthy page
                   :: map (fun p => truthy (next_page p)) (removelast pages)))).
Proof.
  induction script as [|response script IH];
    intros pages sent page total Hwalk Hfit; [discriminate|].
  simpl in Hwalk. simpl fetch_pages. unfold Http.raise_for_status.
  destruct (Http.is_success response); [|discriminate].
  destruct (has_more (Http.body response)) eqn:Hmore.
  - destruct (pages_walked script) as [ps|] eqn:Hps; [|discriminate].
    injection Hwalk as <-.
    unfold all_results in Hfit. simpl in Hfit.
    apply within_precision_app in Hfit. destruct Hfit as [Hhere Hrest].
    rewrite (sum_buckets_exact _ _ Hhere). simpl.
    rewrite (IH ps _ _ _ eq_refl Hrest).
    unfold all_results. simpl flat_map. rewrite exact_total_app.
    destruct ps as [|p ps].
    { destruct script as [|r' script']; [discriminate|]. simpl in Hps.
      destruct (Http.is_success r'); [|discriminate].
      destruct (has_more (Http.body r')); [|discriminate].
      destruct (pages_walked script'); discriminate. }
    simpl. rewrite <- app_assoc. reflexivity.
  - injection Hwalk as <-.
    unfold all_results in *. simpl in *. rewrite app_nil_r in *.
    rewrite (sum_buckets_exact _ _ Hfit). reflexivity.
Qed.

Lemma fetch_total_once_exact (w : World R P) (pages : list (Page R)) :
  pages_walked (script w) = Some pages ->
  within_precision term term_fits Decimal.zero (all_results pages) ->
  fetch_total_once params accumulate w
  = (Ok (Decimal.ceil (exact_total term Decimal.zero (all_results pages))),
     {| script := skipn (length pages) (script w);
        sent := sent w ++ map params (cursors pages);
        files := files w |}).
Proof.
  intros Hwalk Hfit. unfold fetch_total_once.
  rewrite (fetch_pages_exact _ pages (sent w) None Decimal.zero Hwalk Hfit).
  reflexivity.
Qed.

(** The exact total denotes the sum of the numbers its terms denote. *)
Lemma to_Q_exact_total (rs : list R) :
  forall total,
    (Decimal.to_Q (exact_total term total rs)
     == Decimal.to_Q total + Qsum (map (fun r => Decimal.to_Q (term r)) rs))%Q.
Proof.
  induction rs as [|r rs IH]; intros total; simpl.
  - ring.
  - rewrite IH, DecimalFacts.to_Q_exact_add. ring.
Qed.

Lemma ceil_exact_total (rs : list R) :
  Decimal.ceil (exact_total term Decimal.zero rs)
  = Qceiling (Qsum (map (fun r => Decimal.to_Q (term r)) rs)).
Proof.
  rewrite DecimalFacts.ceil_is_Qceiling. apply Qceiling_comp.
  rewrite to_Q_exact_total, DecimalFacts.to_Q_zero. ring.
Qed.

End Exact.



Lemma anthropic_accumulate_exact (total : Decimal.t) (r : Anthropic.CostResult) :
  True ->
  Decimal.fits_context (Decimal.exact_add total (Anthropic.cents r)) ->
  Anthropic.accumulate total r = Ok (Decimal.exact_add total (Anthropic.cents r)).
Proof. intros _. apply DecimalFacts.add_fits. Qed.

Lemma openai_accumulate_exact (total : Decimal.t) (r : OpenAI.CostResult) :
  Decimal.fits_context (OpenAI.cents r) ->
  Decimal.fits_context (Decimal.exact_add total (OpenAI.cents r)) ->
  OpenAI.accumulate total r = Ok (Decimal.exact_add total (OpenAI.cents r)).
Proof.
  intros Hmul Hadd. unfold OpenAI.accumulate.
  fold (OpenAI.dollars r).
  rewrite (DecimalFacts.mul_fits _ _ Hmul). simpl.
  apply DecimalFacts.add_fits. exact Hadd.
Qed.




(** The two-page report of the test suite: "1000.00", then "500.00". *)
Example two_pages_total :
  let page1 := {| data := Some [ {| results :=
                       Some [ {| Anthropic.amount := Some (Samples.numeral 100000 (-2)) |} ] |} ];
                  has_more := true; next_page := Some "2026-01-02T00:00:00Z"%string |} in
  let page2 := {| data := Some [ {| results :=
                       Some [ {| Anthropic.amount := Some (Samples.numeral 50000 (-2)) |} ] |} ];
                  has_more := false; next_page := None |} in
  Anthropic._fetch_total_cost Samples.january Samples.february (Samples.answering [page1; page2])
  = (Ok 1500,
     {| script := [];
        sent := [Anthropic.params Samples.january Samples.february None;
                 Anthropic.params Samples.january Samples.february (Some "2026-01-02T00:00:00Z"%string)];
        files := [] |}).
Proof. reflexivity. Qed.

(** OpenAI's report of the test suite: 50.25 and 10.75 dollars. *)
Example openai_total :
  let page := {| data := Some [ {| results :=
                    Some [ {| OpenAI.amount := Some {| OpenAI.value := Some (Samples.numeral 5025 (-2)) |} |};
                           {| OpenAI.amount := Some {| OpenAI.value := Some (Samples.numeral 1075 (-2)) |} |} ] |} ];
                 has_more := false; next_page := None |} in
  fst (OpenAI._fetch_total_cost Samples.january Samples.february (Samples.answering [page])) = Ok 6100.
Proof. reflexivity. Qed.


Section Requests.
Variables R P : Type.
Variable params : option string -> P.
Variable accumulate : Decimal.t -> R -> result Decimal.t.




End Requests.

Section Signs.
Variables R P : Type.
Variable params : option string -> P.
Variable accumulate : Decimal.t -> R -> result Decimal.t.
Variable amount_of : R -> Decimal.t.
Hypothesis accumulate_nonneg :
  forall total r total',
    accumulate total r = Ok total' ->
    0 <= Decimal.coefficient total ->
    0 <= Decimal.coefficient (amount_of r) ->
    0 <= Decimal.coefficient total'.





End Signs.

(** A walk over pages without a single result totals nothing. *)
Lemma no_result_total_zero {R P : Type} (params : option string -> P)
    (accumulate : Decimal.t -> R -> result Decimal.t)
    (w : World R P) (pages : list (Page R)) :
  pages_walked (script w) = Some pages ->
  all_results pages = [] ->
  fst (retry 3 (fetch_total_once params accumulate) w) = Ok 0.
Proof.
  intros Hwalk Hnone.
  assert (H : fetch_total_once params accumulate w
              = (Ok (Decimal.ceil (exact_total (fun _ => Decimal.zero) Decimal.zero
                                     (all_results pages))),
                 {| script := skipn (length pages) (script w);
                    sent := sent w ++ map params (cursors pages);
                    files := files w |})).
  { apply (fetch_total_once_exact _ _ _ _ _ (fun _ => False)); auto.
    - intros total r [].
    - rewrite Hnone. exact I. }
  rewrite Hnone in H. simpl. rewrite H. reflexivity.
Qed.

End CostReportFacts.

Module PluginFacts.
Import CostReport.

(** *** The billing window *)

Lemma window_representable (year month : Z) :
  Billing.representable year month ->
  Billing.window year month
  = Ok ({| Date.year := year; Date.month := month; Date.day := 1 |},
        Billing.first_of_next year month).
Proof.
  intros (Hy & Hm & Hlast). unfold Billing.window, Billing.first_of_next.
  assert (Hmake : forall y m, 1 <= y <= 9999 -> 1 <= m <= 12 ->
            Date.make y m 1 = Ok {| Date.year := y; Date.month := m; Date.day := 1 |}).
  { intros y m Hy' Hm'. unfold Date.make, Date.MINYEAR, Date.MAXYEAR.
    replace (1 <=? y) with true by (symmetry; apply Z.leb_le; lia).
    replace (y <=? 9999) with true by (symmetry; apply Z.leb_le; lia).
    replace (1 <=? m) with true by (symmetry; apply Z.leb_le; lia).
    replace (m <=? 12) with true by (symmetry; apply Z.leb_le; lia).
    simpl.
    assert (Hd : 1 <= Date._days_in_month y m).
    { unfold Date._days_in_month.
      destruct ((m =? 2) && Date._is_leap y); [lia|].
      assert (Hcase : m = 1 \/ m = 2 \/ m = 3 \/ m = 4 \/ m = 5 \/ m = 6 \/
                      m = 7 \/ m = 8 \/ m = 9 \/ m = 10 \/ m = 11 \/ m = 12) by lia.
      repeat (destruct Hcase as [->|Hcase]; [simpl; lia|]). subst m. simpl. lia. }
    replace (1 <=? Date._days_in_month y m) with true
      by (symmetry; apply Z.leb_le; lia).
    reflexivity. }
  rewrite (Hmake year month Hy Hm). simpl.
  destruct (month =? 12) eqn:H12.
  - apply Z.eqb_eq in H12. rewrite Hmake by lia. reflexivity.
  - apply Z.eqb_neq in H12. rewrite Hmake by lia. reflexivity.
Qed.

Lemma make_fields (y m d : Z) (date : Date.date) :
  Date.make y m d = Ok date ->
  Date.year date = y /\ Date.month date = m /\ Date.day date = d /\
  1 <= m <= 12 /\ 1 <= d.
Proof.
  unfold Date.make.
  destruct ((Date.MINYEAR <=? y) && (y <=? Date.MAXYEAR)); [|discriminate].
  destruct ((1 <=? m) && (m <=? 12)) eqn:Hm; [|discriminate].
  destruct ((1 <=? d) && (d <=? Date._days_in_month y m)) eqn:Hd; [|discriminate].
  simpl. intros [= <-]. simpl.
  apply andb_true_iff in Hm, Hd. destruct Hm as [H1 H2], Hd as [H3 _].
  apply Z.leb_le in H1, H2, H3. lia.
Qed.




(** The last month [datetime.date] can hold has no successor: the plugin
    raises before it asks anything. *)
Example december_9999_raises :
  Billing.window 9999 12 = Raise (ValueError "year is out of range").
Proof. reflexivity. Qed.

(** What OpenAI is asked for January 2026: the two midnights in seconds
    since the epoch and one bucket per day of the month. *)
Example openai_january_request :
  OpenAI.params Samples.january Samples.february None
  = {| OpenAI.start_time := 1767225600; OpenAI.end_time := 1769904000;
       OpenAI.bucket_width := "1d"; OpenAI.limit := 31; OpenAI.page := None |}.
Proof. reflexivity. Qed.

(** *** No charge, no record *)

(** C9.  When the aggregated total of the month is 0, [fetch_expense] of
    either plugin returns [None]: no record, and no exception; nothing is
    downloaded and no file is written.  A report whose pages hold no result
    at all (no bucket, or buckets without results, on every page) is such a
    month. *)
Theorem zero_total_is_no_expense (year month : Z) :
  Billing.representable year month ->
  let start_date := {| Date.year := year; Date.month := month; Date.day := 1 |} in
  let end_date := Billing.first_of_next year month in
  (forall config download dry_run (w w' : Anthropic.W),
      Anthropic._fetch_total_cost start_date end_date w = (Ok 0, w') ->
      Anthropic.fetch_expense config download year month dry_run w
      = (Ok None, w')) /\
  (forall config download dry_run (w w' : OpenAI.W),
      OpenAI._fetch_total_cost start_date end_date w = (Ok 0, w') ->
      OpenAI.fetch_expense config download year month dry_run w
      = (Ok None, w')) /\
  (forall config download dry_run (w : Anthropic.W) pages,
      pages_walked (script w) = Some pages ->
      all_results pages = [] ->
      fst (Anthropic.fetch_expense config download year month dry_run w)
      = Ok None) /\
  (forall config download dry_run (w : OpenAI.W) pages,
      pages_walked (script w) = Some pages ->
      all_results pages = [] ->
      fst (OpenAI.fetch_expense config download year month dry_run w)
      = Ok None).
Proof.
  intros Hrep start_date end_date.
  pose proof (window_representable year month Hrep) as Hwin.
  fold start_date end_date in Hwin.
  assert (HA : forall config download dry_run (w w' : Anthropic.W),
             Anthropic._fetch_total_cost start_date end_date w = (Ok 0, w') ->
             Anthropic.fetch_expense config download year month dry_run w
             = (Ok None, w')).
  { intros config download dry_run w w' Hzero.
    unfold Anthropic.fetch_expense. rewrite Hwin, Hzero. reflexivity. }
  assert (HO : forall config download dry_run (w w' : OpenAI.W),
             OpenAI._fetch_total_cost start_date end_date w = (Ok 0, w') ->
             OpenAI.fetch_expense config download year month dry_run w
             = (Ok None, w')).
  { intros config download dry_run w w' Hzero.
    unfold OpenAI.fetch_expense. rewrite Hwin, Hzero. reflexivity. }
  repeat split; [exact HA|exact HO| |].
  - intros config download dry_run w pages Hwalk Hnone.
    pose proof (CostReportFacts.no_result_total_zero
                  (Anthropic.params start_date end_date) Anthropic.accumulate
                  w pages Hwalk Hnone) as Hz.
    fold (Anthropic._fetch_total_cost start_date end_date w) in Hz.
    destruct (Anthropic._fetch_total_cost start_date end_date w) as [r w'] eqn:E.
    simpl in Hz. subst r. rewrite (HA config download dry_run w w' E). reflexivity.
  - intros config download dry_run w pages Hwalk Hnone.
    pose proof (CostReportFacts.no_result_total_zero
                  (OpenAI.params start_date end_date) OpenAI.accumulate
                  w pages Hwalk Hnone) as Hz.
    fold (OpenAI._fetch_total_cost start_date end_date w) in Hz.
    destruct (OpenAI._fetch_total_cost start_date end_date w) as [r w'] eqn:E.
    simpl in Hz. subst r. rewrite (HO config download dry_run w w' E). reflexivity.
Qed.

(** The test suite's month without charges: [{"data": [], "has_more":
    false}]. *)
Lemma zero_total_is_no_expense_witness :
  fst (Anthropic.fetch_expense Samples.some_config (fun _ _ => Ok "invoice.pdf"%string)
         2026 1 true (Samples.answering [Samples.no_buckets]))
  = Ok None.
Proof.
  refine (proj1 (proj2 (proj2 (zero_total_is_no_expense 2026 1 _)))
            Samples.some_config _ true (Samples.answering [Samples.no_buckets])
            [Samples.no_buckets] eq_refl eq_refl).
  unfold Billing.representable. lia.
Defined.

(** *** The amount of a record *)






End PluginFacts.

Module RateLimiterFacts.
Import RateLimiter.

Section Counting.

(** A filter that passes less, and rejects one element the other passes,
    is strictly shorter. *)
Lemma filter_length_le (p q : Z -> bool) (l : list Z) :
  (forall t, p t = true -> q t = true) ->
  (length (filter p l) <= length (filter q l))%nat.
Proof.
  intros Hpq. induction l as [|a l IH]; simpl; [lia|].
  destruct (p a) eqn:Hp.
  - rewrite (Hpq a Hp). simpl. lia.
  - destruct (q a); simpl; lia.
Qed.

Lemma filter_length_lt (p q : Z -> bool) (l : list Z) (o : Z) :
  (forall t, p t = true -> q t = true) ->
  In o l -> p o = false -> q o = true ->
  (length (filter p l) < length (filter q l))%nat.
Proof.
  intros Hpq. induction l as [|a l IH]; simpl; [tauto|].
  intros [->|Hin] Hp Hq.
  - rewrite Hp, Hq. simpl.
    pose proof (filter_length_le p q l Hpq). lia.
  - specialize (IH Hin Hp Hq).
    destruct (p a) eqn:Hpa.
    + rewrite (Hpq a Hpa). simpl. lia.
    + destruct (q a); simpl; lia.
Qed.

Lemma filter_length_bound (p : Z -> bool) (l : list Z) :
  (length (filter p l) <= length l)%nat.
Proof.
  induction l as [|a l IH]; simpl; [lia|]. destruct (p a); simpl; lia.
Qed.

(** [_prune] only pops from the left. *)
Lemma prune_below_suffix (cutoff : Z) (ts : list Z) :
  exists dropped, ts = dropped ++ prune_below cutoff ts.
Proof.
  induction ts as [|t ts [d Hd]]; simpl.
  - exists []. reflexivity.
  - destruct (t <? cutoff).
    + exists (t :: d). simpl. congruence.
    + exists []. reflexivity.
Qed.

Lemma prune_below_head (cutoff t0 : Z) (ts rest : list Z) :
  prune_below cutoff ts = t0 :: rest -> cutoff <= t0.
Proof.
  induction ts as [|t ts IH]; simpl; [discriminate|].
  destruct (t <? cutoff) eqn:Hlt; [exact IH|].
  intros [= -> _]. lia.
Qed.

Lemma prune_below_length (cutoff : Z) (ts : list Z) :
  (length (prune_below cutoff ts) <= length ts)%nat.
Proof.
  destruct (prune_below_suffix cutoff ts) as [d Hd].
  rewrite Hd at 2. rewrite length_app. lia.
Qed.

Lemma filter_prune_le (p : Z -> bool) (cutoff : Z) (ts : list Z) :
  (length (filter p (prune_below cutoff ts)) <= length (filter p ts))%nat.
Proof.
  destruct (prune_below_suffix cutoff ts) as [d Hd].
  rewrite Hd at 2. rewrite filter_app, length_app. lia.
Qed.


End Counting.

Section Passes.
Variable L : Config.
Hypothesis short_limit_pos : 1 <= short_limit L.
Hypothesis long_limit_pos : 1 <= long_limit L.

Lemma find_none_filter (p : Z -> bool) (l : list Z) :
  find p l = None -> length (filter p l) = 0%nat.
Proof.
  induction l as [|a l IH]; simpl; [reflexivity|].
  destruct (p a); [discriminate|exact IH].
Qed.

(** With limits of one or more [_wait_time] raises nothing, and its wait
    is read off the pruned deque as follows. *)
Lemma _wait_time_cases (now : Z) (ts : list Z) :
  let ts' := _prune L now ts in
  exists wait,
    _wait_time L now ts = Ok (ts', wait) /\ 0 <= wait /\
    (count_ge (now - short_window L) ts' < short_limit L \/
     exists o, In o ts' /\ now - short_window L <= o /\
               o + short_window L - now <= wait) /\
    (Z.of_nat (length ts') < long_limit L \/
     exists o, In o ts' /\ now - long_window L <= o /\
               o + long_window L - now <= wait) /\
    (0 < wait ->
     exists o, In o ts' /\
               (wait = o + short_window L - now \/
                wait = o + long_window L - now)).
Proof.
  intros ts'. unfold _wait_time. fold ts'.
  set (sc := count_ge (now - short_window L) ts').
  assert (Hshort : exists w1,
    (if short_limit L <=? sc
     then oldest_in_window <- next_ge (now - short_window L) ts' ;;
          Ok (Z.max 0 (oldest_in_window + short_window L - now))
     else Ok 0) = Ok w1 /\ 0 <= w1 /\
    (sc < short_limit L \/
     exists o, In o ts' /\ now - short_window L <= o /\
               o + short_window L - now <= w1) /\
    (0 < w1 -> exists o, In o ts' /\ w1 = o + short_window L - now)).
  { destruct (short_limit L <=? sc) eqn:Hc.
    - apply Z.leb_le in Hc. unfold next_ge.
      destruct (find (fun t => now - short_window L <=? t) ts') as [o|] eqn:Hf.
      + apply find_some in Hf. destruct Hf as [Hin Ho]. apply Z.leb_le in Ho.
        simpl. eexists. split; [reflexivity|].
        split; [lia|]. split.
        * right. exists o. repeat split; auto; lia.
        * intros Hpos. exists o. split; [assumption|lia].
      + apply find_none_filter in Hf. unfold sc, count_ge in Hc.
        rewrite Hf in Hc. simpl in Hc. lia.
    - apply Z.leb_gt in Hc. exists 0. split; [reflexivity|].
      split; [lia|]. split; [now left|]. lia. }
  destruct Hshort as (w1 & -> & Hw1 & Hs & Hpos1). simpl.
  destruct (long_limit L <=? Z.of_nat (length ts')) eqn:Hc.
  - apply Z.leb_le in Hc.
    destruct ts' as [|t0 rest] eqn:Hts; [simpl in Hc; lia|].
    assert (Hhead : now - long_window L <= t0).
    { unfold ts', _prune in Hts. eapply prune_below_head; eassumption. }
    eexists. split; [reflexivity|]. split; [lia|]. split.
    + destruct Hs as [Hs|(o & Hin & Ho & Hle)]; [now left|].
      right. exists o. repeat split; auto; lia.
    + split.
      * right. exists t0. repeat split; [now left|lia|lia].
      * intros Hpos.
        destruct (Z.max_spec w1 (t0 + long_window L - now)) as [[_ E]|[_ E]];
          rewrite E in *.
        -- exists t0. split; [now left|now right].
        -- destruct (Hpos1 Hpos) as (o & Hin & Ho). exists o. auto.
  - apply Z.leb_gt in Hc. exists w1. split; [reflexivity|].
    split; [lia|]. split; [exact Hs|]. split; [now left|].
    intros Hpos. destruct (Hpos1 Hpos) as (o & Hin & Ho). exists o. auto.
Qed.

Lemma pending_bound (now : Z) (ts : list Z) :
  (pending L now ts <= 2 * length ts)%nat.
Proof.
  unfold pending.
  pose proof (filter_length_bound (fun t => now <? t + short_window L) ts).
  pose proof (filter_length_bound (fun t => now <? t + long_window L) ts).
  lia.
Qed.

(** A sleep takes one timestamp out of the pending ones. *)
Lemma sleep_decreases (now wait now' : Z) (ts ts' : list Z) :
  attempt L now ts = Sleep wait ts' ->
  now + wait <= now' ->
  (pending L now' ts' < pending L now ts)%nat /\ now < now'.
Proof.
  unfold attempt. intros Ha Hnow'.
  destruct (_wait_time_cases now ts) as (w & Hw & _ & _ & _ & Hpos).
  rewrite Hw in Ha. destruct (w <=? 0) eqn:Hle; [discriminate|].
  apply Z.leb_gt in Hle. injection Ha as -> <-.
  destruct (Hpos Hle) as (o & Hin & Ho). split; [|lia].
  unfold pending.
  pose proof (filter_prune_le (fun t => now <? t + short_window L)
                (now - long_window L) ts) as Hs.
  pose proof (filter_prune_le (fun t => now <? t + long_window L)
                (now - long_window L) ts) as Hl.
  fold (_prune L now ts) in Hs, Hl.
  assert (Hmono : forall w0 t, (now' <? t + w0) = true -> (now <? t + w0) = true).
  { intros w0 t H. apply Z.ltb_lt in H. apply Z.ltb_lt. lia. }
  pose proof (filter_length_le _ _ (_prune L now ts) (Hmono (short_window L))) as Hs'.
  pose proof (filter_length_le _ _ (_prune L now ts) (Hmono (long_window L))) as Hl'.
  destruct Ho as [Ho|Ho].
  - assert (Hlt := filter_length_lt
              (fun t => now' <? t + short_window L)
              (fun t => now <? t + short_window L)
              (_prune L now ts) o (Hmono (short_window L)) Hin).
    assert (H1 : (now' <? o + short_window L) = false) by (apply Z.ltb_ge; lia).
    assert (H2 : (now <? o + short_window L) = true) by (apply Z.ltb_lt; lia).
    specialize (Hlt H1 H2). lia.
  - assert (Hlt := filter_length_lt
              (fun t => now' <? t + long_window L)
              (fun t => now <? t + long_window L)
              (_prune L now ts) o (Hmono (long_window L)) Hin).
    assert (H1 : (now' <? o + long_window L) = false) by (apply Z.ltb_ge; lia).
    assert (H2 : (now <? o + long_window L) = true) by (apply Z.ltb_lt; lia).
    specialize (Hlt H1 H2). lia.
Qed.

Lemma attempt_no_crash (now : Z) (ts : list Z) (e : exn) :
  attempt L now ts <> Crash e.
Proof.
  unfold attempt.
  destruct (_wait_time_cases now ts) as (w & -> & _).
  destruct (w <=? 0); discriminate.
Qed.

(** [acquire] returns: the loop ends in a grant as soon as the fuel
    exceeds the number of pending timestamps. *)
Lemma acquire_loop_enough (fuel : nat) :
  forall lag k now ts,
    (pending L now ts < fuel)%nat ->
    exists at_ ts', acquire_loop L fuel lag k now ts = Granted at_ ts'.
Proof.
  induction fuel as [|fuel IH]; intros lag k now ts Hfuel; [lia|].
  simpl. destruct (attempt L now ts) as [ts'|wait ts'|e] eqn:Ha.
  - eauto.
  - apply IH.
    destruct (sleep_decreases now wait (now + wait + Z.of_N (lag k)) ts ts' Ha)
      as [Hlt _]; lia.
  - exfalso. exact (attempt_no_crash _ _ _ Ha).
Qed.

Lemma acquire_returns (lag : nat -> N) (now : Z) (ts : list Z) :
  exists at_ ts', acquire L lag now ts = Granted at_ ts'.
Proof.
  unfold acquire. apply acquire_loop_enough.
  pose proof (pending_bound now ts). lia.
Qed.

(** A grant is the last pass of the loop, made at the granted instant on
    what earlier passes left of the deque. *)
Lemma acquire_loop_granted (fuel : nat) :
  forall lag k now ts at_ ts',
    acquire_loop L fuel lag k now ts = Granted at_ ts' ->
    exists dropped kept,
      ts = dropped ++ kept /\ now <= at_ /\ attempt L at_ kept = Recorded ts'.
Proof.
  induction fuel as [|fuel IH]; intros lag k now ts at_ ts' H; [discriminate|].
  simpl in H. destruct (attempt L now ts) as [ts1|wait ts1|e] eqn:Ha.
  - injection H as <- <-. exists [], ts. repeat split; [lia|assumption].
  - destruct (IH _ _ _ _ _ _ H) as (d & kept & Hd & Hle & Hrec).
    destruct (sleep_decreases now wait (now + wait + Z.of_N (lag k)) ts ts1 Ha)
      as [_ Hlt]; [lia|].
    assert (Hts1 : ts1 = _prune L now ts).
    { unfold attempt in Ha.
      destruct (_wait_time_cases now ts) as (w & Hw & _). rewrite Hw in Ha.
      destruct (w <=? 0); [discriminate|]. now injection Ha as _ <-. }
    destruct (prune_below_suffix (now - long_window L) ts) as [d0 Hd0].
    fold (_prune L now ts) in Hd0. rewrite <- Hts1, Hd in Hd0.
    exists (d0 ++ d), kept. rewrite <- app_assoc.
    repeat split; [assumption|lia|assumption].
  - discriminate.
Qed.










End Passes.



(** The third call of that test is delayed until the first grant is one
    short window old. *)
Example third_call_waits :
  run Samples.two_per_three [Samples.after 1; Samples.after 1; Samples.after 1] 0 [] = Granted 4 [1; 2; 4].
Proof. reflexivity. Qed.


(** Outside the amended claim: a clock that returns the same reading twice.
    Once the oldest timestamp of the short window is exactly one window old
    the computed wait is 0 whatever the count, so a second call at the same
    reading is granted too and the half-open window holds three. *)
Example same_reading_granted_twice :
  run Samples.two_per_ten
    [Samples.after 1; Samples.after 5; Samples.after 5; Samples.after 0] 0 []
  = Granted 11 [1; 6; 11; 11] /\
  count_gt (11 - 10) [1; 6; 11; 11] = 3.
Proof. split; reflexivity. Qed.

(** Limits below one are outside it as well: the first call raises. *)
Example zero_limit_raises :
  acquire {| short_limit := 0; short_window := 10;
             long_limit := 20; long_window := 60 |} (fun _ => 0%N) 0 []
  = Failed (RuntimeError "coroutine raised StopIteration").
Proof. reflexivity. Qed.

Section AsSpecified.
Variable L : Config.

Lemma find_hd_filter (p : Z -> bool) (l : list Z) :
  find p l = hd_error (filter p l).
Proof.
  induction l as [|a l IH]; simpl; [reflexivity|].
  destruct (p a); [reflexivity|exact IH].
Qed.

Lemma filter_all (p : Z -> bool) (l : list Z) :
  Forall (fun t => p t = true) l -> filter p l = l.
Proof.
  induction 1 as [|a l Ha _ IH]; simpl; [reflexivity|].
  rewrite Ha, IH. reflexivity.
Qed.

Lemma sorted_filter (p : Z -> bool) (l : list Z) :
  StronglySorted Z.le l -> StronglySorted Z.le (filter p l).
Proof.
  induction 1 as [|a l Hs IH Ha]; simpl; [constructor|].
  destruct (p a); [|exact IH].
  constructor; [exact IH|].
  rewrite Forall_forall in *. intros x Hx.
  apply filter_In in Hx. apply Ha. tauto.
Qed.

(** On an ordered deque the oldest entry is the leftmost one. *)
Lemma oldest_sorted (l : list Z) :
  StronglySorted Z.le l -> oldest l = hd_error l.
Proof.
  induction 1 as [|a l Hs IH Ha]; simpl; [reflexivity|].
  rewrite IH. destruct l as [|b l]; simpl; [reflexivity|].
  inversion Ha; subst. f_equal. lia.
Qed.

(** ... and popping from the left while the head is too old drops every
    entry that is too old. *)
Lemma prune_below_sorted (cutoff : Z) (l : list Z) :
  StronglySorted Z.le l -> prune_below cutoff l = drop_older cutoff l.
Proof.
  unfold drop_older.
  induction 1 as [|a l Hs IH Ha]; simpl; [reflexivity|].
  destruct (a <? cutoff) eqn:Hlt.
  - apply Z.ltb_lt in Hlt.
    replace (cutoff <=? a) with false by (symmetry; apply Z.leb_gt; lia).
    exact IH.
  - apply Z.ltb_ge in Hlt.
    replace (cutoff <=? a) with true by (symmetry; apply Z.leb_le; lia).
    f_equal. symmetry. apply filter_all.
    rewrite Forall_forall in *. intros x Hx. apply Z.leb_le.
    specialize (Ha x Hx). lia.
Qed.

Lemma _wait_time_is_spec_wait (now : Z) (ts : list Z) :
  StronglySorted Z.le ts -> _wait_time L now ts = spec_wait L now ts.
Proof.
  intros Hs. unfold _wait_time, spec_wait, _prune.
  rewrite (prune_below_sorted _ ts Hs).
  set (remaining := drop_older (now - long_window L) ts).
  assert (Hr : StronglySorted Z.le remaining) by now apply sorted_filter.
  assert (Hi : StronglySorted Z.le (drop_older (now - short_window L) remaining))
    by now apply sorted_filter.
  unfold count_ge, next_ge. rewrite find_hd_filter.
  fold (drop_older (now - short_window L) remaining).
  rewrite (oldest_sorted _ Hi), (oldest_sorted _ Hr).
  set (in_short := drop_older (now - short_window L) remaining).
  destruct (short_limit L <=? Z.of_nat (length in_short));
    [destruct (hd_error in_short)|]; simpl; try reflexivity;
    destruct (long_limit L <=? Z.of_nat (length remaining));
    destruct remaining; reflexivity.
Qed.

End AsSpecified.

(** C5.  On an ordered deque one pass of [acquire] computes the wait the
    spec describes: drop every timestamp older than [now - long_window]; if
    the timestamps [>= now - short_window] number [short_limit] or more the
    wait takes in (oldest of them) [+ short_window - now]; if those that
    remain number [long_limit] or more the wait is the maximum of that and
    (oldest remaining) [+ long_window - now]; and [now] is appended exactly
    when that wait is zero or less. *)
Theorem wait_time_follows_spec (L : Config) (now : Z) (ts : list Z) :
  Sorted Z.le ts ->
  _wait_time L now ts = spec_wait L now ts /\
  forall ts',
    attempt L now ts = Recorded ts' <->
    exists remaining wait,
      spec_wait L now ts = Ok (remaining, wait) /\ wait <= 0 /\
      ts' = remaining ++ [now].
Proof.
  intros Hs.
  assert (Hss : StronglySorted Z.le ts).
  { apply Sorted_StronglySorted; [|assumption]. intros x y z. lia. }
  pose proof (_wait_time_is_spec_wait L now ts Hss) as E.
  split; [exact E|].
  intros ts'. unfold attempt. rewrite E.
  destruct (spec_wait L now ts) as [[remaining wait]|e].
  - destruct (wait <=? 0) eqn:Hw.
    + apply Z.leb_le in Hw. split.
      * intros [= <-]. exists remaining, wait. auto.
      * intros (r & w & [= <- <-] & _ & ->). reflexivity.
    + apply Z.leb_gt in Hw. split; [discriminate|].
      intros (r & w & [= <- <-] & Hle & _). lia.
  - split; [discriminate|]. intros (r & w & H & _). discriminate.
Qed.

Lemma wait_time_follows_spec_witness :
  _wait_time Samples.two_per_three 3 [1; 2] = spec_wait Samples.two_per_three 3 [1; 2] /\
  forall ts',
    attempt Samples.two_per_three 3 [1; 2] = Recorded ts' <->
    exists remaining wait,
      spec_wait Samples.two_per_three 3 [1; 2] = Ok (remaining, wait) /\ wait <= 0 /\
      ts' = remaining ++ [3].
Proof.
  apply (wait_time_follows_spec Samples.two_per_three 3 [1; 2]).
  repeat constructor; simpl; lia.
Defined.

(** The pass of that witness: two grants in the last 3 ticks, the older one
    at 1, so the wait is [1 + 3 - 3 = 1] and nothing is appended. *)
Example wait_of_one_tick :
  attempt Samples.two_per_three 3 [1; 2] = Sleep 1 [1; 2].
Proof. reflexivity. Qed.

End RateLimiterFacts.

Module ClientFacts.
Import Client.
Local Open Scope string_scope.

(** The default limiter always lets the call through, and touches nothing
    but its own timestamps and the clock. *)
Lemma acquire_ok (w : World) :
  exists at_ ts,
    acquire w = (Ok tt, {| backend := backend w; posts := posts w;
                          disk := disk w; clock := at_; timestamps := ts |}).
Proof.
  unfold acquire.
  destruct (RateLimiterFacts.acquire_returns RateLimiter.default
              ltac:(simpl; lia) ltac:(simpl; lia)
              (fun _ => 0%N) (clock w) (timestamps w)) as (at_ & ts & ->).
  eauto.
Qed.

Section WithConfig.
Variable config : ExpensifyConfig.t.
Variable str : Json.t -> string.

(** What [_request] does with the backend's answer, once that answer has a
    success status. *)
Lemma _request_success (request_type : string) (input_settings : Json.t)
    (w : World) (response : Http.Response Body) (rest : list (Http.Response Body)) :
  backend w = response :: rest ->
  Http.is_success response = true ->
  exists at_ ts,
    let sent := {| requestJobDescription :=
                     Json.Dict [("type", Json.Str request_type);
                                ("credentials", credentials config);
                                ("inputSettings", input_settings)];
                   file := None |} in
    let w' := {| backend := rest; posts := (posts w ++ [sent])%list;
                 disk := disk w; clock := at_; timestamps := ts |} in
    _request config str request_type input_settings w
    = match parsed (Http.body response) with
      | None => (Ok (plain_text_success response), w')
      | Some (Json.Dict items) =>
          match at_least_400 (Json.get "responseCode" (Json.Int 0) items) with
          | Ok true =>
              (Raise (RuntimeError
                        ("Expensify API error: "
                         ++ format str (Json.get "responseMessage" (Json.Dict items) items))),
               w')
          | Ok false => (Ok (Json.Dict items), w')
          | Raise e => (Raise e, w')
          end
      | Some other => (Ok other, w')
      end.
Proof.
  intros Hb Hs. destruct (acquire_ok w) as (at_ & ts & Ha).
  exists at_, ts. unfold _request, bindM. rewrite Ha.
  unfold post. simpl. rewrite Hb. unfold lift, Http.raise_for_status.
  rewrite Hs.
  destruct (parsed (Http.body response)) as [[ | | | | |items]|]; try reflexivity.
  destruct (at_least_400 (Json.get "responseCode" (Json.Int 0) items))
    as [[|]|e]; reflexivity.
Qed.

Lemma upload_receipt_success (expense : ExpenseData.t) (transaction_id : Json.t)
    (w : World) (response : Http.Response Body) (rest : list (Http.Response Body))
    (bytes : string) :
  backend w = response :: rest ->
  Http.is_success response = true ->
  read (ExpenseData.receipt_path expense) (disk w) = Some bytes ->
  exists at_ ts,
    let sent := {| requestJobDescription :=
                     Json.Dict
                       [("type", Json.Str "create");
                        ("credentials", credentials config);
                        ("inputSettings",
                         Json.Dict
                           [("type", Json.Str "receiptUpload");
                            ("employeeEmail",
                             Json.Str (ExpensifyConfig.employee_email config));
                            ("transactionID", transaction_id)])];
                   file := Some (name_of (ExpenseData.receipt_path expense),
                                 bytes, "application/pdf") |} in
    upload_receipt config expense transaction_id w
    = (Ok (match parsed (Http.body response) with
           | Some result => result
           | None => plain_text_success response
           end),
       {| backend := rest; posts := (posts w ++ [sent])%list;
          disk := disk w; clock := at_; timestamps := ts |}).
Proof.
  intros Hb Hs Hfile. destruct (acquire_ok w) as (at_ & ts & Ha).
  exists at_, ts. unfold upload_receipt, bindM, exists_. rewrite Hfile. simpl.
  rewrite Ha. simpl. rewrite Hfile. unfold post. simpl. rewrite Hb.
  unfold lift, Http.raise_for_status. rewrite Hs.
  destruct (parsed (Http.body response)); reflexivity.
Qed.

End WithConfig.



(** The part of C3 that holds: on the create call an application error is
    raised with the backend's message, and [submit_expense] stops there,
    having made the one POST of the create call. *)
Lemma create_error_is_raised (config : ExpensifyConfig.t) (str : Json.t -> string)
    (expense : ExpenseData.t) (w : World)
    (response : Http.Response Body) (rest : list (Http.Response Body))
    (items : list (string * Json.t)) (code : Z) (message : string) :
  backend w = response :: rest ->
  Http.is_success response = true ->
  parsed (Http.body response) = Some (Json.Dict items) ->
  Json.lookup "responseCode" items = Some (Json.Int code) ->
  (400 <= code)%Z ->
  Json.lookup "responseMessage" items = Some (Json.Str message) ->
  exists w',
    create_expense config str expense w
    = (Raise (RuntimeError ("Expensify API error: " ++ message)), w') /\
    submit_expense config str expense w
    = (Raise (RuntimeError ("Expensify API error: " ++ message)), w') /\
    length (posts w') = S (length (posts w)).
Proof.
  intros Hb Hs Hp Hcode Hge Hmsg.
  unfold submit_expense, bindM, create_expense.
  match goal with
  | |- context [_request config str "create" ?settings w] =>
      destruct (_request_success config str "create" settings w response
                  rest Hb Hs) as (at_ & ts & H)
  end.
  simpl in H. rewrite Hp in H. unfold Json.get in H. rewrite Hcode, Hmsg in H.
  simpl in H. replace (400 <=? code)%Z with true in H
    by (symmetry; apply Z.leb_le; assumption).
  rewrite H. eexists. split; [reflexivity|]. split; [reflexivity|].
  simpl. rewrite length_app. simpl. lia.
Qed.

(** C3 at the failing input: the backend answers the receipt upload with
    HTTP 200 and [{"responseCode": 410, "responseMessage": "Invalid
    credentials"}].  The create call raises on that answer; the upload call
    returns it as its result, and [submit_expense] returns normally with the
    error envelope under ["receipt"]. *)
Theorem upload_returns_the_error_envelope (str : Json.t -> string) :
  fst (create_expense Samples.expensify_config str Samples.expense
         (Samples.client_world [Samples.json_200 Samples.invalid_credentials]))
  = Raise (RuntimeError "Expensify API error: Invalid credentials") /\
  fst (upload_receipt Samples.expensify_config Samples.expense (Json.Str "txn_123")
         (Samples.client_world [Samples.json_200 Samples.invalid_credentials]))
  = Ok Samples.invalid_credentials /\
  fst (submit_expense Samples.expensify_config str Samples.expense
         (Samples.client_world [Samples.json_200 (Samples.created "txn_456");
                                Samples.json_200 Samples.invalid_credentials]))
  = Ok (Json.Dict [("create", Samples.created "txn_456");
                   ("receipt", Samples.invalid_credentials);
                   ("transaction_id", Json.Str "txn_456")]).
Proof. split; [reflexivity|split; reflexivity]. Qed.

(** C4.  [submit_expense] reads the transaction identifier from the
    [transactionID] field of the first entry of the [transactionList] of the
    create response.  If the list is absent or empty there is no id, the
    upload step is skipped (the receipt result is [None]) and the create
    call is the only POST.  If the first entry holds an id and the receipt
    file exists, exactly one upload POST follows, for that id and with that
    file, and the result holds the create result, the upload result and the
    id under the three keys ["create"], ["receipt"] and ["transaction_id"]. *)
Theorem submit_expense_binds_receipt (config : ExpensifyConfig.t)
    (str : Json.t -> string) (expense : ExpenseData.t) (w : World)
    (create_response : Http.Response Body) (rest : list (Http.Response Body))
    (items : list (string * Json.t)) :
  backend w = create_response :: rest ->
  Http.is_success create_response = true ->
  parsed (Http.body create_response) = Some (Json.Dict items) ->
  at_least_400 (Json.get "responseCode" (Json.Int 0) items) = Ok false ->
  (Json.lookup "transactionList" items = None \/
   Json.lookup "transactionList" items = Some (Json.List []) ->
   exists w' create_post,
     submit_expense config str expense w
     = (Ok (Json.Dict [("create", Json.Dict items);
                       ("receipt", Json.Null);
                       ("transaction_id", Json.Null)]), w') /\
     posts w' = (posts w ++ [create_post])%list /\
     file create_post = None)
  /\
  (forall entry more transaction_id bytes upload_response rest',
      Json.lookup "transactionList" items
      = Some (Json.List (Json.Dict entry :: more)) ->
      Json.lookup "transactionID" entry = Some transaction_id ->
      Json.truth transaction_id = true ->
      read (ExpenseData.receipt_path expense) (disk w) = Some bytes ->
      rest = upload_response :: rest' ->
      Http.is_success upload_response = true ->
      exists w' create_post upload_post,
        submit_expense config str expense w
        = (Ok (Json.Dict
                 [("create", Json.Dict items);
                  ("receipt",
                   match parsed (Http.body upload_response) with
                   | Some result => result
                   | None => plain_text_success upload_response
                   end);
                  ("transaction_id", transaction_id)]), w') /\
        posts w' = (posts w ++ [create_post; upload_post])%list /\
        file create_post = None /\
        file upload_post
        = Some (name_of (ExpenseData.receipt_path expense), bytes, "application/pdf") /\
        requestJobDescription upload_post
        = Json.Dict
            [("type", Json.Str "create");
             ("credentials", credentials config);
             ("inputSettings",
              Json.Dict
                [("type", Json.Str "receiptUpload");
                 ("employeeEmail", Json.Str (ExpensifyConfig.employee_email config));
                 ("transactionID", transaction_id)])]).
Proof.
  intros Hb Hs Hp Hcode.
  assert (Hcreate : exists at_ ts create_post,
            file create_post = None /\
            create_expense config str expense w
            = (Ok (Json.Dict items),
               {| backend := rest; posts := (posts w ++ [create_post])%list;
                  disk := disk w; clock := at_; timestamps := ts |})).
  { unfold create_expense.
    match goal with
    | |- context [_request config str "create" ?settings w] =>
        destruct (_request_success config str "create" settings w
                    create_response rest Hb Hs) as (at_ & ts & H)
    end.
    simpl in H. rewrite Hp, Hcode in H.
    exists at_, ts. eexists. split; [|exact H]. reflexivity. }
  destruct Hcreate as (at_ & ts & create_post & Hfile & Hcreate).
  split.
  - intros Hnone. exists {| backend := rest; posts := (posts w ++ [create_post])%list;
                           disk := disk w; clock := at_; timestamps := ts |}, create_post.
    split; [|split; [reflexivity|exact Hfile]].
    unfold submit_expense, bindM. rewrite Hcreate. unfold lift, Json.get.
    destruct Hnone as [-> | ->]; reflexivity.
  - intros entry more transaction_id bytes upload_response rest'
      Hlist Hid Htruth Hread -> Hs2.
    set (w1 := {| backend := upload_response :: rest';
                  posts := (posts w ++ [create_post])%list;
                  disk := disk w; clock := at_; timestamps := ts |}) in *.
    destruct (upload_receipt_success config expense transaction_id w1
                upload_response rest' bytes eq_refl Hs2 Hread)
      as (at2 & ts2 & Hup).
    simpl in Hup.
    eexists. exists create_post. eexists.
    split.
    + unfold submit_expense, bindM. rewrite Hcreate. unfold lift, Json.get.
      rewrite Hlist. simpl.
      assert (Hget : Json.get "transactionID" Json.Null entry = transaction_id)
        by (unfold Json.get; now rewrite Hid).
      rewrite Hget, Htruth.
      unfold exists_ at 1. cbn [disk w1]. rewrite Hread. simpl.
      fold w1. rewrite Hup. reflexivity.
    + simpl. rewrite <- app_assoc. simpl.
      split; [reflexivity|]. split; [exact Hfile|]. split; reflexivity.
Qed.

(** The full flow of the test suite: the create response yields
    ["txn_456"], the upload is made and answered [{"responseCode": 200}]. *)
Lemma submit_expense_binds_receipt_witness :
  exists w' create_post upload_post,
    submit_expense Samples.expensify_config (fun _ => "") Samples.expense
      (Samples.client_world [Samples.json_200 (Samples.created "txn_456");
                             Samples.json_200 Samples.code_200])
    = (Ok (Json.Dict [("create", Samples.created "txn_456");
                      ("receipt", Samples.code_200);
                      ("transaction_id", Json.Str "txn_456")]), w') /\
    posts w' = [create_post; upload_post] /\
    file create_post = None /\
    file upload_post = Some ("receipt.pdf", "%PDF-1.4 test receipt", "application/pdf") /\
    requestJobDescription upload_post
    = Json.Dict
        [("type", Json.Str "create");
         ("credentials", credentials Samples.expensify_config);
         ("inputSettings",
          Json.Dict
            [("type", Json.Str "receiptUpload");
             ("employeeEmail", Json.Str "test@example.com");
             ("transactionID", Json.Str "txn_456")])].
Proof.
  refine (proj2 (submit_expense_binds_receipt Samples.expensify_config
                   (fun _ => "") Samples.expense
                   (Samples.client_world [Samples.json_200 (Samples.created "txn_456");
                                          Samples.json_200 Samples.code_200])
                   (Samples.json_200 (Samples.created "txn_456"))
                   [Samples.json_200 Samples.code_200]
                   _ eq_refl eq_refl eq_refl eq_refl)
            _ [] (Json.Str "txn_456") "%PDF-1.4 test receipt"
            (Samples.json_200 Samples.code_200) []
            eq_refl eq_refl eq_refl eq_refl eq_refl eq_refl).
Defined.

(** A first entry without the field, or with an empty one, gives no upload
    either: [transaction_id] is what the field holds and the receipt result
    is [None]. *)
Example empty_id_skips_upload :
  fst (submit_expense Samples.expensify_config (fun _ => "") Samples.expense
         (Samples.client_world [Samples.json_200 (Samples.created "")]))
  = Ok (Json.Dict [("create", Samples.created "");
                   ("receipt", Json.Null);
                   ("transaction_id", Json.Str "")]).
Proof. reflexivity. Qed.

End ClientFacts.

Module CliFacts.
Import Cli.

Section Run.
Variable S : Type.
Variable config : AppConfig.t.
Variable registry : string -> option (PluginConfig.t -> Plugin S).
Variable submit_expense : ExpenseData.t -> S -> result Json.t * S.
Variable str : exn -> string.
Variable today : Date.date.

Lemma lookup_In (name : string) (pc : PluginConfig.t)
    (items : list (string * PluginConfig.t)) :
  In (name, pc) items -> lookup name items <> None.
Proof.
  induction items as [|[k v] items IH]; simpl; [tauto|].
  intros [[= -> ->]|Hin].
  - rewrite String.eqb_refl. discriminate.
  - destruct (String.eqb name k); [discriminate|auto].
Qed.

(** [config.plugins[name]] never fails on a selected name. *)
Lemma plugin_names_configured (sources : list string) (name : string) :
  In name (plugin_names S config registry sources) ->
  lookup name (AppConfig.plugins config) <> None.
Proof.
  unfold plugin_names. destruct sources as [|s0 sources'].
  - intros Hin. apply in_map_iff in Hin. destruct Hin as ([k v] & <- & Hin).
    apply filter_In in Hin. apply (lookup_In k v). tauto.
  - intros Hin. apply filter_In in Hin. destruct Hin as [_ H].
    destruct (lookup name (AppConfig.plugins config)); [discriminate|discriminate].
Qed.

Lemma try_plugin_name (name : string) (p : Plugin S) (year mon : Z)
    (dry_run : bool) (s : S) :
  plugin (fst (try_plugin S submit_expense str name p year mon dry_run s)) = name.
Proof.
  unfold try_plugin.
  destruct (fetch_expense p year mon dry_run s) as [[[expense|]|e] s1];
    try reflexivity.
  destruct (negb dry_run); [|reflexivity].
  destruct (submit_expense expense s1) as [[j|e] s2]; reflexivity.
Qed.

(** With every plugin registered and every cleanup returning, the loop runs
    to its end and leaves one record per plugin, in order. *)
Lemma run_plugins_completes (names : list string) (year mon : Z) (dry_run : bool) :
  (forall name, In name names -> lookup name (AppConfig.plugins config) <> None) ->
  well_behaved S registry names ->
  forall results s,
    exists records s',
      run_plugins S config registry submit_expense str names year mon dry_run
        results s
      = (None, results ++ records, s') /\
      map plugin records = names.
Proof.
  induction names as [|name names IH]; intros Hcfg Hwb results s; simpl.
  - exists [], s. rewrite app_nil_r. auto.
  - destruct (lookup name (AppConfig.plugins config)) as [pc|] eqn:Hl;
      [|exfalso; apply (Hcfg name); [now left|assumption]].
    destruct (Hwb name (or_introl eq_refl)) as (cls & -> & Hclean).
    pose proof (try_plugin_name name (cls pc) year mon dry_run s) as Hname.
    destruct (try_plugin S submit_expense str name (cls pc) year mon dry_run s)
      as [record s1].
    simpl in Hname.
    destruct (Hclean pc s1) as [s2 ->].
    destruct (IH (fun n H => Hcfg n (or_intror H))
                 (fun n H => Hwb n (or_intror H))
                 (results ++ [record]) s2) as (records & s' & -> & Hmap).
    exists (record :: records), s'. rewrite <- app_assoc. simpl.
    split; [reflexivity|]. now rewrite Hname, Hmap.
Qed.

Lemma error_count_pos (results : list RunResult) :
  0 < error_count results <-> exists r, In r results /\ outcome r = error.
Proof.
  unfold error_count. split.
  - intros H. destruct (filter is_error results) as [|r rs] eqn:Hf;
      [simpl in H; lia|].
    assert (Hin : In r (filter is_error results)) by (rewrite Hf; now left).
    apply filter_In in Hin. destruct Hin as [Hin He].
    exists r. split; [assumption|].
    unfold is_error in He. destruct (outcome r); try discriminate. reflexivity.
  - intros (r & Hin & He).
    assert (Hin' : In r (filter is_error results)).
    { apply filter_In. split; [assumption|]. unfold is_error. now rewrite He. }
    destruct (filter is_error results); [destruct Hin'|simpl; lia].
Qed.

End Run.

(** C6 (as amended).  On a run that selects at least one plugin, all of
    them registered and none raising from its cleanup, every selected
    plugin gets one result record and the process exits with failure
    ([sys.exit(1)]) if and only if at least one record has status error;
    with skipped or successful plugins only, [_run_async] returns. *)
Theorem exit_reflects_plugin_errors (S : Type) (config : AppConfig.t)
    (registry : string -> option (PluginConfig.t -> Plugin S))
    (submit_expense : ExpenseData.t -> S -> result Json.t * S)
    (str : exn -> string) (today : Date.date)
    (month : option (Z * Z)) (sources : list string) (dry_run : bool) (s : S) :
  plugin_names S config registry sources <> [] ->
  well_behaved S registry (plugin_names S config registry sources) ->
  exists x results s',
    _run_async S config registry submit_expense str today month sources dry_run s
    = (x, results, s') /\
    (failure x <-> exists r, In r results /\ outcome r = error) /\
    (x = Returned \/ x = SysExit 1) /\
    map plugin results = plugin_names S config registry sources.
Proof.
  intros Hsome Hwb. unfold _run_async.
  destruct (target_month today month) as [year mon].
  destruct (run_plugins_completes S config registry submit_expense str
              (plugin_names S config registry sources) year mon dry_run
              (plugin_names_configured S config registry sources) Hwb [] s)
    as (records & s' & Hrun & Hmap).
  simpl in Hrun.
  destruct (plugin_names S config registry sources) as [|n ns] eqn:Hnames;
    [contradiction|].
  rewrite Hrun.
  pose proof (error_count_pos records) as Hcount.
  destruct (0 <? error_count records) eqn:Hpos.
  - apply Z.ltb_lt in Hpos. exists (SysExit 1), records, s'.
    split; [reflexivity|]. split; [|split; [now right|assumption]].
    split; [intros _; now apply Hcount|intros _; discriminate].
  - apply Z.ltb_ge in Hpos. exists Returned, records, s'.
    split; [reflexivity|]. split; [|split; [now left|assumption]].
    split; [intros H; now contradiction H|].
    intros H. apply Hcount in H. lia.
Qed.

Lemma exit_reflects_plugin_errors_witness :
  exists x results s',
    _run_async unit (Samples.app_config ["anthropic"; "openai"]%string)
      Samples.registry Samples.no_submit (fun _ => "connection failed"%string)
      Samples.a_day None [] false tt
    = (x, results, s') /\
    (failure x <-> exists r, In r results /\ outcome r = error) /\
    (x = Returned \/ x = SysExit 1) /\
    map plugin results = ["anthropic"; "openai"]%string.
Proof.
  apply (exit_reflects_plugin_errors unit
           (Samples.app_config ["anthropic"; "openai"]%string)
           Samples.registry Samples.no_submit (fun _ => "connection failed"%string)
           Samples.a_day None [] false tt).
  - discriminate.
  - intros name [<-|[<-|[]]]; eexists; (split; [reflexivity|]);
      intros pc s; exists s; reflexivity.
Defined.

(** That run: one error record, one skipped, and [sys.exit(1)]. *)
Example one_error_one_skipped :
  _run_async unit (Samples.app_config ["anthropic"; "openai"]%string)
    Samples.registry Samples.no_submit (fun _ => "connection failed"%string)
    Samples.a_day None [] false tt
  = (SysExit 1,
     [ {| plugin := "anthropic"; outcome := error; amount := None;
          currency := None; message := Some "connection failed"%string |};
       {| plugin := "openai"; outcome := skipped; amount := None;
          currency := None; message := None |} ],
     tt).
Proof. reflexivity. Qed.

(** C6 as stated fails on a run that selects no plugin: the guard
    [if not plugin_names: sys.exit(1)] ends the process with failure before
    any record exists. *)
Lemma no_plugin_counterexample :
  let run := _run_async unit (Samples.app_config []) Samples.registry
               Samples.no_submit (fun _ => EmptyString) Samples.a_day None [] false tt in
  run = (SysExit 1, [], tt) /\
  failure (fst (fst run)) /\
  ~ (exists r, In r (snd (fst run)) /\ outcome r = error).
Proof.
  split; [reflexivity|]. split; [discriminate|].
  intros (r & [] & _).
Qed.

(** Outside the amended claim: a plugin named by [--source] that the
    configuration enables but no module registers makes [get_plugin] raise,
    outside the [try]; the run ends there without an error record. *)
Example unregistered_source_is_uncaught :
  _run_async unit (Samples.app_config ["vodafone"]%string) Samples.registry
    Samples.no_submit (fun _ => EmptyString) Samples.a_day None
    ["vodafone"]%string false tt
  = (Uncaught KeyError, [], tt).
Proof. reflexivity. Qed.

End CliFacts.

(** * Further properties *)

Module RateLimiterMore.
Import RateLimiter.

Lemma attempt_recorded_shape (L : Config) (now : Z) (ts ts' : list Z) :
  attempt L now ts = Recorded ts' -> ts' = _prune L now ts ++ [now].
Proof.
  unfold attempt, _wait_time.
  destruct (if short_limit L <=? _ then _ else _) as [w|e]; simpl; [|discriminate].
  destruct (long_limit L <=? _).
  - destruct (_prune L now ts) as [|t0 rest]; simpl; [discriminate|].
    destruct (_ <=? 0); [|discriminate]. now intros [= <-].
  - destruct (_ <=? 0); [|discriminate]. now intros [= <-].
Qed.

(** X1.  With limits of one or more, [acquire] returns from every state of
    the deque, at every clock reading and however long its sleeps overrun:
    it is granted at an instant [at_] not before the call, and the deque it
    leaves is a suffix of the old one followed by [at_]. *)
Theorem acquire_always_returns (L : Config) (lag : nat -> N) (now : Z)
    (ts : list Z) :
  1 <= short_limit L -> 1 <= long_limit L ->
  exists at_ dropped kept,
    acquire L lag now ts = Granted at_ (kept ++ [at_]) /\
    now <= at_ /\ ts = dropped ++ kept.
Proof.
  intros Hs Hl.
  destruct (RateLimiterFacts.acquire_returns L Hs Hl lag now ts)
    as (at_ & ts' & Hacq).
  unfold acquire in Hacq.
  destruct (RateLimiterFacts.acquire_loop_granted L Hs Hl _ _ _ _ _ _ _ Hacq)
    as (d & kept & Hd & Hle & Hrec).
  apply attempt_recorded_shape in Hrec.
  destruct (RateLimiterFacts.prune_below_suffix (at_ - long_window L) kept)
    as [d' Hd'].
  fold (_prune L at_ kept) in Hd'.
  exists at_, (d ++ d'), (_prune L at_ kept).
  split; [unfold acquire; rewrite Hacq, Hrec; reflexivity|].
  split; [assumption|]. rewrite <- app_assoc, <- Hd'. assumption.
Qed.

Lemma acquire_always_returns_witness :
  exists at_ dropped kept,
    acquire default (fun _ => 0%N) 100 [10; 95; 96; 97; 98; 99]
    = Granted at_ (kept ++ [at_]) /\
    100 <= at_ /\ [10; 95; 96; 97; 98; 99] = dropped ++ kept.
Proof.
  apply (acquire_always_returns default (fun _ => 0%N) 100 [10; 95; 96; 97; 98; 99]);
    simpl; lia.
Defined.

(** X2.  While the deque holds fewer timestamps than either limit, a call
    is granted at once, at the very reading of its first pass: no sleep
    happens. *)
Theorem under_both_limits_no_wait (L : Config) (lag : nat -> N) (now : Z)
    (ts : list Z) :
  Z.of_nat (length ts) < short_limit L ->
  Z.of_nat (length ts) < long_limit L ->
  acquire L lag now ts = Granted now (_prune L now ts ++ [now]).
Proof.
  intros Hs Hl.
  pose proof (RateLimiterFacts.prune_below_length (now - long_window L) ts) as Hlen.
  fold (_prune L now ts) in Hlen.
  pose proof (RateLimiterFacts.filter_length_bound
                (fun t => now - short_window L <=? t) (_prune L now ts)) as Hcount.
  unfold acquire. cbn [acquire_loop]. unfold attempt, _wait_time, count_ge.
  replace (short_limit L <=? _) with false by (symmetry; apply Z.leb_gt; lia).
  simpl.
  replace (long_limit L <=? _) with false by (symmetry; apply Z.leb_gt; lia).
  reflexivity.
Qed.

Lemma under_both_limits_no_wait_witness :
  acquire default (fun _ => 0%N) 7 [5; 6]
  = Granted 7 (_prune default 7 [5; 6] ++ [7]).
Proof.
  apply (under_both_limits_no_wait default (fun _ => 0%N) 7 [5; 6]); simpl; lia.
Defined.



(** X4.  [_prune] pops from the left only, and only timestamps older than
    [now - long_window]: whatever the order of the deque, nothing inside
    the long window is ever dropped, and the head it leaves is inside it. *)
Theorem prune_drops_only_expired (L : Config) (now : Z) (ts : list Z) :
  exists dropped,
    ts = dropped ++ _prune L now ts /\
    Forall (fun t => t < now - long_window L) dropped /\
    (forall t0 rest, _prune L now ts = t0 :: rest -> now - long_window L <= t0).
Proof.
  unfold _prune. induction ts as [|t ts (d & Hd & Hold & Hhead)]; simpl.
  - exists []. repeat split; [constructor|discriminate].
  - destruct (Z.ltb_spec t (now - long_window L)) as [Hlt|Hge].
    + exists (t :: d). simpl. split; [congruence|].
      split; [constructor; assumption|exact Hhead].
    + exists []. split; [reflexivity|]. split; [constructor|].
      intros t0 rest [= <- _]. assumption.
Qed.

(** X5.  When the short window is full, that is when [short_limit] or more
    timestamps are [>= now - short_window], the call is granted no earlier
    than one short window after the oldest of them. *)
Theorem full_short_window_delays (L : Config) (lag : nat -> N) (now : Z)
    (ts : list Z) :
  1 <= short_limit L -> 1 <= long_limit L ->
  short_limit L <= count_ge (now - short_window L) (_prune L now ts) ->
  exists oldest_in_window at_ ts',
    next_ge (now - short_window L) (_prune L now ts) = Ok oldest_in_window /\
    acquire L lag now ts = Granted at_ ts' /\
    oldest_in_window + short_window L <= at_.
Proof.
  intros Hs Hl Hfull.
  unfold next_ge.
  destruct (find (fun t => now - short_window L <=? t) (_prune L now ts))
    as [o|] eqn:Hfind.
  2:{ apply RateLimiterFacts.find_none_filter in Hfind.
      unfold count_ge in Hfull. rewrite Hfind in Hfull. simpl in Hfull. lia. }
  destruct (RateLimiterFacts.acquire_returns L Hs Hl lag now ts)
    as (at_ & ts' & Hacq).
  exists o, at_, ts'. split; [reflexivity|]. split; [assumption|].
  assert (Hwait : exists w, _wait_time L now ts = Ok (_prune L now ts, w)
                            /\ o + short_window L - now <= w).
  { unfold _wait_time, next_ge. rewrite Hfind.
    replace (short_limit L <=? _) with true by (symmetry; apply Z.leb_le; lia).
    simpl. destruct (long_limit L <=? _).
    - destruct (_prune L now ts) as [|t0 rest]; [discriminate|].
      eexists. split; [reflexivity|]. lia.
    - eexists. split; [reflexivity|]. lia. }
  destruct Hwait as (w & Hw & Hlow).
  unfold acquire in Hacq. cbn [acquire_loop] in Hacq.
  unfold attempt in Hacq. rewrite Hw in Hacq.
  destruct (Z.leb_spec w 0) as [Hle|Hgt].
  - injection Hacq as <- _. lia.
  - apply (RateLimiterFacts.acquire_loop_granted L Hs Hl) in Hacq.
    destruct Hacq as (_ & _ & _ & Hle & _). lia.
Qed.

Lemma full_short_window_delays_witness :
  exists oldest_in_window at_ ts',
    next_ge (3 - short_window Samples.two_per_three)
      (_prune Samples.two_per_three 3 [1; 2]) = Ok oldest_in_window /\
    acquire Samples.two_per_three (fun _ => 0%N) 3 [1; 2] = Granted at_ ts' /\
    oldest_in_window + short_window Samples.two_per_three <= at_.
Proof.
  apply (full_short_window_delays Samples.two_per_three (fun _ => 0%N) 3 [1; 2]).
  - simpl. lia.
  - simpl. lia.
  - vm_compute. discriminate.
Defined.

End RateLimiterMore.

Module CostReportMore.
Import CostReport.

Section Attempts.
Variables R P : Type.
Variable params : option string -> P.
Variable accumulate : Decimal.t -> R -> result Decimal.t.

(** An attempt whose first request is refused (no answer, or a status
    outside 2xx) raises after that one request. *)
Lemma attempt_refused (w : World R P) :
  Forall (fun r => Http.is_success r = false) (firstn 1 (script w)) ->
  exists e,
    fetch_total_once params accumulate w
    = (Raise e, {| script := tl (script w);
                   sent := sent w ++ [params None];
                   files := files w |}).
Proof.
  intros H. unfold fetch_total_once.
  destruct (script w) as [|r rest]; simpl.
  - eexists. reflexivity.
  - inversion H as [|? ? Hr _]; subst. unfold Http.raise_for_status.
    rewrite Hr. eexists. reflexivity.
Qed.

Lemma three_refusals (w : World R P) :
  Forall (fun r => Http.is_success r = false) (firstn 3 (script w)) ->
  retry 3 (fetch_total_once params accumulate) w
  = (Raise RetryError,
     {| script := skipn 3 (script w);
        sent := sent w ++ [params None; params None; params None];
        files := files w |}).
Proof.
  intros H.
  assert (H1 : Forall (fun r => Http.is_success r = false) (firstn 1 (script w))).
  { destruct (script w) as [|r1 l]; [constructor|].
    inversion H; subst. repeat constructor; assumption. }
  assert (H2 : Forall (fun r => Http.is_success r = false)
                 (firstn 1 (tl (script w)))).
  { destruct (script w) as [|r1 [|r2 l]]; try constructor.
    - simpl in H. inversion H as [|? ? _ H']; subst.
      inversion H'; subst. assumption.
    - constructor. }
  assert (H3 : Forall (fun r => Http.is_success r = false)
                 (firstn 1 (tl (tl (script w))))).
  { destruct (script w) as [|r1 [|r2 [|r3 l]]]; try constructor.
    - simpl in H. inversion H as [|? ? _ H']; subst.
      inversion H' as [|? ? _ H'']; subst. inversion H''; subst. assumption.
    - constructor. }
  cbn [retry].
  destruct (attempt_refused w H1) as [e1 ->].
  set (w1 := {| script := tl (script w); sent := sent w ++ [params None];
                files := files w |}).
  destruct (attempt_refused w1 H2) as [e2 ->].
  set (w2 := {| script := tl (script w1); sent := sent w1 ++ [params None];
                files := files w1 |}).
  destruct (attempt_refused w2 H3) as [e3 ->].
  simpl. rewrite <- !app_assoc. simpl.
  destruct (script w) as [|r1 [|r2 [|r3 l]]]; reflexivity.
Qed.

(** [_fetch_total_cost] leaves the files alone. *)
Lemma retry_files (n : nat) :
  forall w, files (snd (retry n (fetch_total_once params accumulate) w)) = files w.
Proof.
  induction n as [|n IH]; intros w; simpl; [reflexivity|].
  assert (Hf : files (snd (fetch_total_once params accumulate w)) = files w).
  { unfold fetch_total_once.
    destruct (fetch_pages params accumulate (script w) (sent w) None Decimal.zero)
      as [[t|e] [s1 s2]]; reflexivity. }
  destruct (fetch_total_once params accumulate w) as [[z|e] w1]; simpl in *.
  - assumption.
  - rewrite IH. assumption.
Qed.

Variable term : R -> Decimal.t.
Variable term_fits : R -> Prop.
Hypothesis accumulate_exact :
  forall total r,
    term_fits r ->
    Decimal.fits_context (Decimal.exact_add total (term r)) ->
    accumulate total r = Ok (Decimal.exact_add total (term r)).

Lemma second_attempt_total (w w1 : World R P) (e : exn) (pages : list (Page R)) :
  fetch_total_once params accumulate w = (Raise e, w1) ->
  pages_walked (script w1) = Some pages ->
  within_precision term term_fits Decimal.zero (all_results pages) ->
  retry 3 (fetch_total_once params accumulate) w
  = (Ok (Qceiling (Qsum (map (fun r => Decimal.to_Q (term r)) (all_results pages)))),
     {| script := skipn (length pages) (script w1);
        sent := sent w1 ++ map params (cursors pages);
        files := files w1 |}).
Proof.
  intros Hfail Hwalk Hfit. cbn [retry]. rewrite Hfail.
  rewrite (CostReportFacts.fetch_total_once_exact _ _ params accumulate term
             term_fits accumulate_exact w1 pages Hwalk Hfit).
  rewrite (CostReportFacts.ceil_exact_total _ term). reflexivity.
Qed.

End Attempts.

(** X6.  When the vendor refuses the first request of three attempts in a
    row (no answer at all, or a status outside 2xx), [_fetch_total_cost] of
    either plugin gives up with [RetryError] after exactly three requests,
    none of which carries a cursor. *)
Theorem three_refusals_give_up :
  (forall start_date end_date (w : Anthropic.W),
      Forall (fun r => Http.is_success r = false) (firstn 3 (script w)) ->
      Anthropic._fetch_total_cost start_date end_date w
      = (Raise RetryError,
         {| script := skipn 3 (script w);
            sent := sent w ++ [Anthropic.params start_date end_date None;
                               Anthropic.params start_date end_date None;
                               Anthropic.params start_date end_date None];
            files := files w |})) /\
  (forall start_date end_date (w : OpenAI.W),
      Forall (fun r => Http.is_success r = false) (firstn 3 (script w)) ->
      OpenAI._fetch_total_cost start_date end_date w
      = (Raise RetryError,
         {| script := skipn 3 (script w);
            sent := sent w ++ [OpenAI.params start_date end_date None;
                               OpenAI.params start_date end_date None;
                               OpenAI.params start_date end_date None];
            files := files w |})).
Proof.
  split; intros start_date end_date w H.
  - apply (three_refusals _ _ (Anthropic.params start_date end_date)
             Anthropic.accumulate w H).
  - apply (three_refusals _ _ (OpenAI.params start_date end_date)
             OpenAI.accumulate w H).
Qed.

(** A vendor that cannot be reached at all. *)
Lemma three_refusals_give_up_witness :
  Anthropic._fetch_total_cost Samples.january Samples.february
    (Samples.answering [])
  = (Raise RetryError,
     {| script := [];
        sent := [Anthropic.params Samples.january Samples.february None;
                 Anthropic.params Samples.january Samples.february None;
                 Anthropic.params Samples.january Samples.february None];
        files := [] |}).
Proof.
  apply (proj1 three_refusals_give_up Samples.january Samples.february
           (Samples.answering [])).
  constructor.
Defined.

(** X7.  When the first attempt of [_fetch_total_cost] fails, wherever in
    its walk, the second attempt starts again without a cursor, and the
    total returned is the ceiling of the sum over the pages of that second
    walk alone: nothing the failed attempt had added is counted. *)
Theorem failed_attempt_is_not_counted :
  (forall start_date end_date (w w1 : Anthropic.W) e pages,
      fetch_total_once (Anthropic.params start_date end_date)
        Anthropic.accumulate w = (Raise e, w1) ->
      pages_walked (script w1) = Some pages ->
      within_precision Anthropic.cents (fun _ => True) Decimal.zero
        (all_results pages) ->
      Anthropic._fetch_total_cost start_date end_date w
      = (Ok (Qceiling (Qsum (map (fun r => Decimal.to_Q (Anthropic.cents r))
                               (all_results pages)))),
         {| script := skipn (length pages) (script w1);
            sent := sent w1
                    ++ map (Anthropic.params start_date end_date) (cursors pages);
            files := files w1 |})) /\
  (forall start_date end_date (w w1 : OpenAI.W) e pages,
      fetch_total_once (OpenAI.params start_date end_date)
        OpenAI.accumulate w = (Raise e, w1) ->
      pages_walked (script w1) = Some pages ->
      within_precision OpenAI.cents
        (fun r => Decimal.fits_context (OpenAI.cents r)) Decimal.zero
        (all_results pages) ->
      OpenAI._fetch_total_cost start_date end_date w
      = (Ok (Qceiling (Qsum (map (fun r => Decimal.to_Q (OpenAI.cents r))
                               (all_results pages)))),
         {| script := skipn (length pages) (script w1);
            sent := sent w1
                    ++ map (OpenAI.params start_date end_date) (cursors pages);
            files := files w1 |})).
Proof.
  split; intros start_date end_date w w1 e pages Hfail Hwalk Hfit.
  - exact (second_attempt_total _ _ _ _ Anthropic.cents (fun _ => True)
             CostReportFacts.anthropic_accumulate_exact w w1 e pages
             Hfail Hwalk Hfit).
  - exact (second_attempt_total _ _ _ _ OpenAI.cents _
             CostReportFacts.openai_accumulate_exact w w1 e pages
             Hfail Hwalk Hfit).
Qed.

Lemma failed_attempt_is_not_counted_witness :
  Anthropic._fetch_total_cost Samples.january Samples.february Cases.flaky_vendor
  = (Ok 7501,
     {| script := [];
        sent := [Anthropic.params Samples.january Samples.february None;
                 Anthropic.params Samples.january Samples.february
                   (Some "2026-01-02T00:00:00Z"%string);
                 Anthropic.params Samples.january Samples.february None];
        files := [] |}).
Proof.
  refine (proj1 failed_attempt_is_not_counted Samples.january Samples.february
            Cases.flaky_vendor
            {| script := [Cases.status_200 Samples.single_page];
               sent := [Anthropic.params Samples.january Samples.february None;
                        Anthropic.params Samples.january Samples.february
                          (Some "2026-01-02T00:00:00Z"%string)];
               files := [] |}
            (HTTPStatusError 500) [Samples.single_page] eq_refl eq_refl _).
  simpl. unfold Decimal.fits_context.
  repeat split; vm_compute; discriminate.
Defined.

End CostReportMore.

Module PluginMore.
Import CostReport.

(** *** Calendar arithmetic *)

Lemma days_before_next_year (y : Z) :
  Date._days_before_year (y + 1) - Date._days_before_year y
  = 365 + (if Date._is_leap y then 1 else 0).
Proof.
  unfold Date._days_before_year, Date._is_leap.
  replace (y + 1 - 1) with y by lia.
  destruct (Z.eqb_spec (y mod 4) 0) as [H4|H4];
    destruct (Z.eqb_spec (y mod 100) 0) as [H100|H100];
    destruct (Z.eqb_spec (y mod 400) 0) as [H400|H400]; simpl;
    Z.div_mod_to_equations; lia.
Qed.

Lemma month_cases (m : Z) :
  1 <= m <= 12 ->
  m = 1 \/ m = 2 \/ m = 3 \/ m = 4 \/ m = 5 \/ m = 6 \/
  m = 7 \/ m = 8 \/ m = 9 \/ m = 10 \/ m = 11 \/ m = 12.
Proof. lia. Qed.

(** From the first of a month to the first of the next there are as many
    days as the month has. *)
Lemma days_to_first_of_next (year month : Z) :
  1 <= month <= 12 ->
  Date.days_between
    {| Date.year := year; Date.month := month; Date.day := 1 |}
    (Billing.first_of_next year month)
  = Date._days_in_month year month.
Proof.
  intros Hm. unfold Date.days_between, Billing.first_of_next, Date.toordinal.
  pose proof (days_before_next_year year) as Hy.
  unfold Date._days_before_month, Date._days_in_month.
  destruct (month_cases month Hm) as
    [->|[->|[->|[->|[->|[->|[->|[->|[->|[->|[->| ->]]]]]]]]]]];
    cbn [Z.eqb Pos.eqb Date.year Date.month Date.day Z.add Pos.add Pos.succ
         Z.to_nat Pos.to_nat Pos.iter_op Nat.add nth Z.ltb Z.compare
         Pos.compare Pos.compare_cont andb];
    destruct (Date._is_leap year); simpl in *; lia.
Qed.

Lemma days_in_month_range (year month : Z) :
  1 <= month <= 12 -> 28 <= Date._days_in_month year month <= 31.
Proof.
  intros Hm. unfold Date._days_in_month.
  destruct (month_cases month Hm) as
    [->|[->|[->|[->|[->|[->|[->|[->|[->|[->|[->| ->]]]]]]]]]]];
    simpl; destruct (Date._is_leap year); simpl; lia.
Qed.

(** X8.  The request OpenAI gets for a month asks for one bucket per day
    of that month: [limit] is the number of days of the month (28 to 31,
    so the cap of 180 never applies) and [end_time] lies that many days of
    86400 seconds after [start_time]. *)
Theorem openai_asks_for_each_day (year month : Z) (page : option string) :
  1 <= month <= 12 ->
  let request :=
    OpenAI.params {| Date.year := year; Date.month := month; Date.day := 1 |}
      (Billing.first_of_next year month) page in
  OpenAI.limit request = Date._days_in_month year month /\
  28 <= OpenAI.limit request <= 31 /\
  OpenAI.end_time request - OpenAI.start_time request
  = 86400 * Date._days_in_month year month.
Proof.
  intros Hm request.
  pose proof (days_to_first_of_next year month Hm) as Hdays.
  pose proof (days_in_month_range year month Hm) as Hrange.
  unfold request, OpenAI.params. cbn [OpenAI.limit OpenAI.end_time OpenAI.start_time].
  rewrite Hdays. split; [lia|]. split; [lia|].
  unfold Date.utc_midnight_timestamp. unfold Date.days_between in Hdays. lia.
Qed.

Lemma openai_asks_for_each_day_witness :
  let request :=
    OpenAI.params {| Date.year := 2024; Date.month := 2; Date.day := 1 |}
      (Billing.first_of_next 2024 2) None in
  OpenAI.limit request = Date._days_in_month 2024 2 /\
  28 <= OpenAI.limit request <= 31 /\
  OpenAI.end_time request - OpenAI.start_time request
  = 86400 * Date._days_in_month 2024 2.
Proof.
  apply (openai_asks_for_each_day 2024 2 None). lia.
Defined.

(** February 2024 has 29 days. *)
Example leap_february : Date._days_in_month 2024 2 = 29.
Proof. reflexivity. Qed.

(** *** Months that cannot be asked for *)





(** *** Dry runs and real runs *)

(** X10.  A dry run never reaches the browser: the outcome of
    [fetch_expense] does not depend on [_download_invoice] at all, and a
    record it returns points at the placeholder file
    [downloads/<vendor>/<vendor>_YYYY-MM.pdf], which is the one file the
    call has written. *)
Theorem dry_run_writes_a_placeholder :
  (forall config download1 download2 year month (w : Anthropic.W),
      Anthropic.fetch_expense config download1 year month true w
      = Anthropic.fetch_expense config download2 year month true w) /\
  (forall config download year month (w w' : Anthropic.W) record,
      Anthropic.fetch_expense config download year month true w
      = (Ok (Some record), w') ->
      ExpenseData.receipt_path record = Anthropic.receipt_name year month /\
      exists text, files w' = (ExpenseData.receipt_path record, text) :: files w) /\
  (forall config download1 download2 year month (w : OpenAI.W),
      OpenAI.fetch_expense config download1 year month true w
      = OpenAI.fetch_expense config download2 year month true w) /\
  (forall config download year month (w w' : OpenAI.W) record,
      OpenAI.fetch_expense config download year month true w
      = (Ok (Some record), w') ->
      ExpenseData.receipt_path record = OpenAI.receipt_name year month /\
      exists text, files w' = (ExpenseData.receipt_path record, text) :: files w).
Proof.
  split; [|split; [|split]].
  - intros. reflexivity.
  - intros config download year month w w' record H.
    unfold Anthropic.fetch_expense in H.
    destruct (Billing.window year month) as [[s e]|?]; [|discriminate].
    pose proof (CostReportMore.retry_files _ _ (Anthropic.params s e)
                  Anthropic.accumulate 3 w) as Hfiles.
    fold (Anthropic._fetch_total_cost s e w) in Hfiles.
    destruct (Anthropic._fetch_total_cost s e w) as [[total|?] w1]; [|discriminate].
    destruct (total =? 0); [discriminate|]. simpl in H, Hfiles.
    injection H as <- <-. split; [reflexivity|].
    eexists. simpl. rewrite Hfiles. reflexivity.
  - intros. reflexivity.
  - intros config download year month w w' record H.
    unfold OpenAI.fetch_expense in H.
    destruct (Billing.window year month) as [[s e]|?]; [|discriminate].
    pose proof (CostReportMore.retry_files _ _ (OpenAI.params s e)
                  OpenAI.accumulate 3 w) as Hfiles.
    fold (OpenAI._fetch_total_cost s e w) in Hfiles.
    destruct (OpenAI._fetch_total_cost s e w) as [[total|?] w1]; [|discriminate].
    destruct (total =? 0); [discriminate|]. simpl in H, Hfiles.
    injection H as <- <-. split; [reflexivity|].
    eexists. simpl. rewrite Hfiles. reflexivity.
Qed.

(** X11.  Outside a dry run, a record that [fetch_expense] returns carries
    the path that [_download_invoice] returned for that month, so a failed
    download yields no record; the plugin itself writes no file; and the
    record is dated the first day of the month, in USD, under the
    merchant's name and the configured category. *)
Theorem real_run_record_has_the_download :
  (forall config download year month (w w' : Anthropic.W) record,
      Anthropic.fetch_expense config download year month false w
      = (Ok (Some record), w') ->
      download year month = Ok (ExpenseData.receipt_path record) /\
      files w' = files w /\
      ExpenseData.date record
      = {| Date.year := year; Date.month := month; Date.day := 1 |} /\
      ExpenseData.merchant record = "Anthropic"%string /\
      ExpenseData.currency record = "USD"%string /\
      ExpenseData.category record = PluginConfig.category config) /\
  (forall config download year month (w w' : OpenAI.W) record,
      OpenAI.fetch_expense config download year month false w
      = (Ok (Some record), w') ->
      download year month = Ok (ExpenseData.receipt_path record) /\
      files w' = files w /\
      ExpenseData.date record
      = {| Date.year := year; Date.month := month; Date.day := 1 |} /\
      ExpenseData.merchant record = "OpenAI"%string /\
      ExpenseData.currency record = "USD"%string /\
      ExpenseData.category record = PluginConfig.category config).
Proof.
  split; intros config download year month w w' record H.
  - unfold Anthropic.fetch_expense in H.
    destruct (Billing.window year month) as [[s e]|?] eqn:Hwin; [|discriminate].
    assert (Hs : s = {| Date.year := year; Date.month := month; Date.day := 1 |}).
    { unfold Billing.window in Hwin.
      destruct (Date.make year month 1) as [d|?] eqn:Hmake; [|discriminate].
      destruct (PluginFacts.make_fields _ _ _ _ Hmake) as (E1 & E2 & E3 & _).
      simpl in Hwin.
      destruct (if month =? 12 then _ else _); [|discriminate].
      injection Hwin as <- _. destruct d; simpl in *; congruence. }
    pose proof (CostReportMore.retry_files _ _ (Anthropic.params s e)
                  Anthropic.accumulate 3 w) as Hfiles.
    fold (Anthropic._fetch_total_cost s e w) in Hfiles.
    destruct (Anthropic._fetch_total_cost s e w) as [[total|?] w1]; [|discriminate].
    destruct (total =? 0); [discriminate|]. simpl in H, Hfiles.
    destruct (download year month) as [path|?]; [|discriminate].
    injection H as <- <-. simpl. repeat split; assumption.
  - unfold OpenAI.fetch_expense in H.
    destruct (Billing.window year month) as [[s e]|?] eqn:Hwin; [|discriminate].
    assert (Hs : s = {| Date.year := year; Date.month := month; Date.day := 1 |}).
    { unfold Billing.window in Hwin.
      destruct (Date.make year month 1) as [d|?] eqn:Hmake; [|discriminate].
      destruct (PluginFacts.make_fields _ _ _ _ Hmake) as (E1 & E2 & E3 & _).
      simpl in Hwin.
      destruct (if month =? 12 then _ else _); [|discriminate].
      injection Hwin as <- _. destruct d; simpl in *; congruence. }
    pose proof (CostReportMore.retry_files _ _ (OpenAI.params s e)
                  OpenAI.accumulate 3 w) as Hfiles.
    fold (OpenAI._fetch_total_cost s e w) in Hfiles.
    destruct (OpenAI._fetch_total_cost s e w) as [[total|?] w1]; [|discriminate].
    destruct (total =? 0); [discriminate|]. simpl in H, Hfiles.
    destruct (download year month) as [path|?]; [|discriminate].
    injection H as <- <-. simpl. repeat split; assumption.
Qed.

Lemma dry_run_writes_a_placeholder_witness :
  ExpenseData.receipt_path Samples.dry_run_record = Anthropic.receipt_name 2026 1 /\
  exists text,
    [("downloads/anthropic/anthropic_2026-01.pdf"%string,
      "[DRY RUN] Invoice for 2026-01"%string)]
    = (ExpenseData.receipt_path Samples.dry_run_record, text) :: [].
Proof.
  refine (proj1 (proj2 dry_run_writes_a_placeholder) Samples.some_config
            (fun _ _ => Raise ConnectError) 2026 1
            (Samples.answering [Samples.five_thousand])
            {| script := [];
               sent := [Anthropic.params Samples.january Samples.february None];
               files := [("downloads/anthropic/anthropic_2026-01.pdf"%string,
                          "[DRY RUN] Invoice for 2026-01"%string)] |}
            Samples.dry_run_record eq_refl).
Defined.

Lemma real_run_record_has_the_download_witness :
  let record :=
    {| ExpenseData.merchant := "Anthropic";
       ExpenseData.amount := 5000;
       ExpenseData.currency := "USD";
       ExpenseData.date := Samples.january;
       ExpenseData.category := "AI & ML Services";
       ExpenseData.comment := Some "Anthropic API usage for 2026-01"%string;
       ExpenseData.receipt_path := "downloads/anthropic/invoice-0001.pdf" |} in
  (fun _ _ => Ok "downloads/anthropic/invoice-0001.pdf"%string) 2026 1
  = Ok (ExpenseData.receipt_path record) /\
  @nil (string * string) = [] /\
  ExpenseData.date record = Samples.january /\
  ExpenseData.merchant record = "Anthropic"%string /\
  ExpenseData.currency record = "USD"%string /\
  ExpenseData.category record = PluginConfig.category Samples.some_config.
Proof.
  intros record.
  refine (proj1 real_run_record_has_the_download Samples.some_config
            (fun _ _ => Ok "downloads/anthropic/invoice-0001.pdf"%string) 2026 1
            (Samples.answering [Samples.five_thousand])
            {| script := [];
               sent := [Anthropic.params Samples.january Samples.february None];
               files := [] |}
            record eq_refl).
Defined.

End PluginMore.

Module ClientMore.
Import Client.
Local Open Scope string_scope.

Section WithConfig.
Variable config : ExpensifyConfig.t.
Variable str : Json.t -> string.

(** [_request], step by step, from the world the grant leaves. *)
Lemma _request_steps (request_type : string) (input_settings : Json.t)
    (w wa : World) (response : Http.Response Body)
    (rest : list (Http.Response Body)) :
  acquire w = (Ok tt, wa) ->
  backend wa = response :: rest ->
  let sent := {| requestJobDescription :=
                   Json.Dict [("type", Json.Str request_type);
                              ("credentials", credentials config);
                              ("inputSettings", input_settings)];
                 file := None |} in
  let w' := {| backend := rest; posts := (posts wa ++ [sent])%list;
               disk := disk wa; clock := clock wa;
               timestamps := timestamps wa |} in
  _request config str request_type input_settings w
  = if Http.is_success response then
      match parsed (Http.body response) with
      | None => (Ok (plain_text_success response), w')
      | Some (Json.Dict items) =>
          match at_least_400 (Json.get "responseCode" (Json.Int 0) items) with
          | Ok true =>
              (Raise (RuntimeError
                        ("Expensify API error: "
                         ++ format str (Json.get "responseMessage" (Json.Dict items) items))),
               w')
          | Ok false => (Ok (Json.Dict items), w')
          | Raise e => (Raise e, w')
          end
      | Some other => (Ok other, w')
      end
    else (Raise (HTTPStatusError (Http.status_code response)), w').
Proof.
  intros Ha Hb. unfold _request, bindM. rewrite Ha.
  unfold post. simpl. rewrite Hb. unfold lift, Http.raise_for_status.
  destruct (Http.is_success response); [|reflexivity].
  destruct (parsed (Http.body response)) as [[ | | | | |items]|]; try reflexivity.
  destruct (at_least_400 (Json.get "responseCode" (Json.Int 0) items))
    as [[|]|e]; reflexivity.
Qed.

Lemma upload_receipt_steps (expense : ExpenseData.t) (transaction_id : Json.t)
    (w wa : World) (response : Http.Response Body)
    (rest : list (Http.Response Body)) (bytes : string) :
  read (ExpenseData.receipt_path expense) (disk w) = Some bytes ->
  acquire w = (Ok tt, wa) ->
  disk wa = disk w ->
  backend wa = response :: rest ->
  let sent := {| requestJobDescription :=
                   Json.Dict
                     [("type", Json.Str "create");
                      ("credentials", credentials config);
                      ("inputSettings",
                       Json.Dict
                         [("type", Json.Str "receiptUpload");
                          ("employeeEmail",
                           Json.Str (ExpensifyConfig.employee_email config));
                          ("transactionID", transaction_id)])];
                 file := Some (name_of (ExpenseData.receipt_path expense),
                               bytes, "application/pdf") |} in
  let w' := {| backend := rest; posts := (posts wa ++ [sent])%list;
               disk := disk wa; clock := clock wa;
               timestamps := timestamps wa |} in
  upload_receipt config expense transaction_id w
  = if Http.is_success response then
      (Ok (match parsed (Http.body response) with
           | Some result => result
           | None => plain_text_success response
           end), w')
    else (Raise (HTTPStatusError (Http.status_code response)), w').
Proof.
  intros Hfile Ha Hdisk Hb.
  unfold upload_receipt, bindM, exists_. rewrite Hfile. simpl.
  rewrite <- Hdisk in Hfile.
  rewrite Ha. simpl. rewrite Hfile. unfold post. simpl. rewrite Hb.
  unfold lift, Http.raise_for_status.
  destruct (Http.is_success response); [|reflexivity].
  destruct (parsed (Http.body response)); reflexivity.
Qed.

End WithConfig.

(** X12.  A status outside 2xx on the create call leaves [create_expense]
    and [submit_expense] with [HTTPStatusError] for that status (not the
    [RuntimeError] of an application error), after the one POST of the
    create call: no upload is attempted.  The upload call raises the same
    way on such a status. *)
Theorem transport_error_is_raised (config : ExpensifyConfig.t)
    (str : Json.t -> string) (expense : ExpenseData.t) (w : World)
    (response : Http.Response Body) (rest : list (Http.Response Body)) :
  backend w = response :: rest ->
  Http.is_success response = false ->
  (exists w',
      create_expense config str expense w
      = (Raise (HTTPStatusError (Http.status_code response)), w') /\
      submit_expense config str expense w
      = (Raise (HTTPStatusError (Http.status_code response)), w') /\
      length (posts w') = S (length (posts w)) /\
      backend w' = rest) /\
  (forall transaction_id bytes,
      read (ExpenseData.receipt_path expense) (disk w) = Some bytes ->
      fst (upload_receipt config expense transaction_id w)
      = Raise (HTTPStatusError (Http.status_code response))).
Proof.
  intros Hb Hs. destruct (ClientFacts.acquire_ok w) as (at_ & ts & Ha).
  split.
  - unfold submit_expense, bindM, create_expense.
    match goal with
    | |- context [_request config str "create" ?settings w] =>
        pose proof (_request_steps config str "create" settings w _ response
                      rest Ha Hb) as H
    end.
    simpl in H. rewrite Hs in H. rewrite H.
    eexists. split; [reflexivity|]. split; [reflexivity|].
    simpl. rewrite length_app. simpl. split; [lia|reflexivity].
  - intros transaction_id bytes Hfile.
    rewrite (upload_receipt_steps config expense transaction_id w _ response
               rest bytes Hfile Ha eq_refl Hb).
    rewrite Hs. reflexivity.
Qed.

(** X13.  [upload_receipt] for a receipt file that does not exist raises
    [FileNotFoundError] naming the path, before anything else happens: no
    POST is made and no slot of the rate limiter is taken. *)
Theorem missing_receipt_is_not_uploaded (config : ExpensifyConfig.t)
    (expense : ExpenseData.t) (transaction_id : Json.t) (w : World) :
  read (ExpenseData.receipt_path expense) (disk w) = None ->
  upload_receipt config expense transaction_id w
  = (Raise (FileNotFoundError
              ("Receipt not found: " ++ ExpenseData.receipt_path expense)), w).
Proof.
  intros Hfile. unfold upload_receipt, bindM, exists_. rewrite Hfile. reflexivity.
Qed.

(** X14.  [submit_expense] checks for the receipt file itself: when the
    create response holds an id but the file does not exist, the upload is
    skipped without any error; the result holds the create result, no
    receipt result and the id, and the create call was the only POST. *)
Theorem missing_receipt_skips_upload (config : ExpensifyConfig.t)
    (str : Json.t -> string) (expense : ExpenseData.t) (w : World)
    (response : Http.Response Body) (rest : list (Http.Response Body))
    (items entry : list (string * Json.t)) (more : list Json.t)
    (transaction_id : Json.t) :
  backend w = response :: rest ->
  Http.is_success response = true ->
  parsed (Http.body response) = Some (Json.Dict items) ->
  at_least_400 (Json.get "responseCode" (Json.Int 0) items) = Ok false ->
  Json.lookup "transactionList" items
  = Some (Json.List (Json.Dict entry :: more)) ->
  Json.lookup "transactionID" entry = Some transaction_id ->
  read (ExpenseData.receipt_path expense) (disk w) = None ->
  exists w',
    submit_expense config str expense w
    = (Ok (Json.Dict [("create", Json.Dict items);
                      ("receipt", Json.Null);
                      ("transaction_id", transaction_id)]), w') /\
    length (posts w') = S (length (posts w)) /\
    backend w' = rest.
Proof.
  intros Hb Hs Hp Hcode Hlist Hid Hfile.
  destruct (ClientFacts.acquire_ok w) as (at_ & ts & Ha).
  unfold submit_expense, bindM, create_expense.
  match goal with
  | |- context [_request config str "create" ?settings w] =>
      pose proof (_request_steps config str "create" settings w _ response
                    rest Ha Hb) as H
  end.
  simpl in H. rewrite Hs, Hp, Hcode in H. rewrite H.
  unfold lift, Json.get. rewrite Hlist. simpl.
  assert (Hget : Json.get "transactionID" Json.Null entry = transaction_id)
    by (unfold Json.get; now rewrite Hid).
  rewrite Hget. unfold exists_, ret.
  destruct (Json.truth transaction_id); cbn [disk]; try rewrite Hfile; simpl;
    (eexists; split; [reflexivity|]; simpl; rewrite length_app; simpl;
     split; [lia|reflexivity]).
Qed.

(** X15.  The two calls of [submit_expense] go through the one rate limiter
    of the client, one admission each: on a fresh client neither call has
    to wait, and after the full flow the limiter holds two timestamps, both
    the reading of the clock, which has not moved. *)
Theorem full_flow_takes_two_admissions (config : ExpensifyConfig.t)
    (str : Json.t -> string) (expense : ExpenseData.t) (w : World)
    (create_response upload_response : Http.Response Body)
    (rest : list (Http.Response Body))
    (items entry : list (string * Json.t)) (more : list Json.t)
    (transaction_id : Json.t) (bytes : string) :
  timestamps w = [] ->
  backend w = create_response :: upload_response :: rest ->
  Http.is_success create_response = true ->
  parsed (Http.body create_response) = Some (Json.Dict items) ->
  at_least_400 (Json.get "responseCode" (Json.Int 0) items) = Ok false ->
  Json.lookup "transactionList" items
  = Some (Json.List (Json.Dict entry :: more)) ->
  Json.lookup "transactionID" entry = Some transaction_id ->
  Json.truth transaction_id = true ->
  read (ExpenseData.receipt_path expense) (disk w) = Some bytes ->
  Http.is_success upload_response = true ->
  exists result w',
    submit_expense config str expense w = (Ok result, w') /\
    timestamps w' = [clock w; clock w] /\
    clock w' = clock w /\
    length (posts w') = S (S (length (posts w))).
Proof.
  intros Hts Hb Hs Hp Hcode Hlist Hid Htruth Hfile Hs2.
  assert (Ha : acquire w
               = (Ok tt, {| backend := backend w; posts := posts w;
                            disk := disk w; clock := clock w;
                            timestamps := [clock w] |})).
  { unfold acquire. rewrite Hts. reflexivity. }
  unfold submit_expense, bindM, create_expense.
  match goal with
  | |- context [_request config str "create" ?settings w] =>
      pose proof (_request_steps config str "create" settings w _
                    create_response (upload_response :: rest) Ha Hb) as H
  end.
  simpl in H. rewrite Hs, Hp, Hcode in H. rewrite H. clear H.
  unfold lift, Json.get. rewrite Hlist. simpl.
  assert (Hget : Json.get "transactionID" Json.Null entry = transaction_id)
    by (unfold Json.get; now rewrite Hid).
  rewrite Hget, Htruth. unfold exists_ at 1. cbn [disk]. rewrite Hfile. simpl.
  match goal with
  | |- context [upload_receipt config expense transaction_id ?w1] =>
      assert (Ha2 : acquire w1
                    = (Ok tt, {| backend := backend w1; posts := posts w1;
                                 disk := disk w1; clock := clock w;
                                 timestamps := [clock w; clock w] |}));
      [|pose proof (upload_receipt_steps config expense transaction_id w1 _
                      upload_response rest bytes Hfile Ha2 eq_refl eq_refl) as H2]
  end.
  { unfold acquire, RateLimiter.acquire. cbn [timestamps clock length Nat.mul Nat.add].
    cbn [RateLimiter.acquire_loop]. unfold RateLimiter.attempt, RateLimiter._wait_time,
      RateLimiter._prune. cbn [RateLimiter.prune_below RateLimiter.long_window
                               RateLimiter.default].
    replace (clock w <? clock w - 60)%Z with false
      by (symmetry; apply Z.ltb_ge; lia).
    unfold RateLimiter.count_ge. cbn [filter RateLimiter.short_window
                                      RateLimiter.short_limit RateLimiter.long_limit
                                      RateLimiter.default].
    destruct (clock w - 10 <=? clock w)%Z; reflexivity. }
  simpl in H2. rewrite Hs2 in H2. rewrite H2.
  eexists. eexists. split; [reflexivity|]. simpl.
  split; [reflexivity|]. split; [reflexivity|].
  rewrite !length_app. simpl. lia.
Qed.

Lemma transport_error_is_raised_witness :
  (exists w',
      create_expense Samples.expensify_config (fun _ => "") Samples.expense
        (Samples.client_world [Cases.unavailable])
      = (Raise (HTTPStatusError 503), w') /\
      submit_expense Samples.expensify_config (fun _ => "") Samples.expense
        (Samples.client_world [Cases.unavailable])
      = (Raise (HTTPStatusError 503), w') /\
      length (posts w') = 1%nat /\
      backend w' = []) /\
  (forall transaction_id bytes,
      read (ExpenseData.receipt_path Samples.expense)
        (disk (Samples.client_world [Cases.unavailable])) = Some bytes ->
      fst (upload_receipt Samples.expensify_config Samples.expense transaction_id
             (Samples.client_world [Cases.unavailable]))
      = Raise (HTTPStatusError 503)).
Proof.
  exact (transport_error_is_raised Samples.expensify_config (fun _ => "")
           Samples.expense (Samples.client_world [Cases.unavailable])
           Cases.unavailable [] eq_refl eq_refl).
Defined.

Lemma missing_receipt_is_not_uploaded_witness :
  upload_receipt Samples.expensify_config Cases.expense_without_receipt
    (Json.Str "txn_123") (Samples.client_world [Samples.json_200 Samples.code_200])
  = (Raise (FileNotFoundError "Receipt not found: /tmp/nonexistent.pdf"),
     Samples.client_world [Samples.json_200 Samples.code_200]).
Proof.
  exact (missing_receipt_is_not_uploaded Samples.expensify_config
           Cases.expense_without_receipt (Json.Str "txn_123")
           (Samples.client_world [Samples.json_200 Samples.code_200]) eq_refl).
Defined.

Lemma missing_receipt_skips_upload_witness :
  exists w',
    submit_expense Samples.expensify_config (fun _ => "")
      Cases.expense_without_receipt
      (Samples.client_world [Samples.json_200 (Samples.created "txn_456")])
    = (Ok (Json.Dict [("create", Samples.created "txn_456");
                      ("receipt", Json.Null);
                      ("transaction_id", Json.Str "txn_456")]), w') /\
    length (posts w') = 1%nat /\
    backend w' = [].
Proof.
  exact (missing_receipt_skips_upload Samples.expensify_config (fun _ => "")
           Cases.expense_without_receipt
           (Samples.client_world [Samples.json_200 (Samples.created "txn_456")])
           (Samples.json_200 (Samples.created "txn_456")) [] _ _ []
           (Json.Str "txn_456")
           eq_refl eq_refl eq_refl eq_refl eq_refl eq_refl eq_refl).
Defined.

Lemma full_flow_takes_two_admissions_witness :
  exists result w',
    submit_expense Samples.expensify_config (fun _ => "") Samples.expense
      (Samples.client_world [Samples.json_200 (Samples.created "txn_456");
                             Samples.json_200 Samples.code_200])
    = (Ok result, w') /\
    timestamps w' = [0; 0]%Z /\
    clock w' = 0%Z /\
    length (posts w') = 2%nat.
Proof.
  exact (full_flow_takes_two_admissions Samples.expensify_config (fun _ => "")
           Samples.expense
           (Samples.client_world [Samples.json_200 (Samples.created "txn_456");
                                  Samples.json_200 Samples.code_200])
           (Samples.json_200 (Samples.created "txn_456"))
           (Samples.json_200 Samples.code_200) [] _ _ []
           (Json.Str "txn_456") "%PDF-1.4 test receipt"
           eq_refl eq_refl eq_refl eq_refl eq_refl eq_refl eq_refl eq_refl
           eq_refl eq_refl).
Defined.

End ClientMore.

Module CliMore.
Import Cli.

Section Run.
Variable S : Type.
Variable config : AppConfig.t.
Variable registry : string -> option (PluginConfig.t -> Plugin S).
Variable str : exn -> string.
Variable today : Date.date.

Lemma try_plugin_dry (submit1 submit2 : ExpenseData.t -> S -> result Json.t * S)
    (name : string) (p : Plugin S) (year mon : Z) (s : S) :
  try_plugin S submit1 str name p year mon true s
  = try_plugin S submit2 str name p year mon true s.
Proof. reflexivity. Qed.

Lemma run_plugins_dry (submit1 submit2 : ExpenseData.t -> S -> result Json.t * S)
    (names : list string) (year mon : Z) :
  forall results s,
    run_plugins S config registry submit1 str names year mon true results s
    = run_plugins S config registry submit2 str names year mon true results s.
Proof.
  induction names as [|name names IH]; intros results s; simpl; [reflexivity|].
  destruct (lookup name (AppConfig.plugins config)) as [pc|]; [|reflexivity].
  destruct (registry name) as [cls|]; [|reflexivity].
  rewrite (try_plugin_dry submit1 submit2).
  destruct (try_plugin S submit2 str name (cls pc) year mon true s) as [record s1].
  destruct (cleanup (cls pc) s1) as [[u|e] s2]; [apply IH|reflexivity].
Qed.

Lemma lookup_Some_In (name : string) (pc : PluginConfig.t)
    (items : list (string * PluginConfig.t)) :
  lookup name items = Some pc -> In (name, pc) items.
Proof.
  induction items as [|[k v] items IH]; simpl; [discriminate|].
  destruct (String.eqb_spec name k) as [->|Hne].
  - intros [= ->]. now left.
  - intros H. right. auto.
Qed.

End Run.

(** X16.  In a dry run the Expensify client is never used: the exit, the
    result records and the final state of [_run_async] are the same
    whatever [submit_expense] would do. *)
Theorem dry_run_never_submits (S : Type) (config : AppConfig.t)
    (registry : string -> option (PluginConfig.t -> Plugin S))
    (submit1 submit2 : ExpenseData.t -> S -> result Json.t * S)
    (str : exn -> string) (today : Date.date)
    (month : option (Z * Z)) (sources : list string) (s : S) :
  _run_async S config registry submit1 str today month sources true s
  = _run_async S config registry submit2 str today month sources true s.
Proof.
  unfold _run_async. destruct (target_month today month) as [year mon].
  destruct (plugin_names S config registry sources) as [|n ns]; [reflexivity|].
  rewrite (run_plugins_dry S config registry str submit1 submit2). reflexivity.
Qed.

(** X17.  Only enabled plugins of the configuration run.  With [--source]
    the run follows the order of the command line and silently leaves out
    the names that are not configured or not enabled; without it, the
    plugins run are exactly the configured ones that are enabled and
    registered, so that [get_plugin] cannot fail on them. *)
Theorem only_enabled_plugins_run (S : Type) (config : AppConfig.t)
    (registry : string -> option (PluginConfig.t -> Plugin S))
    (sources : list string) :
  (forall name,
      In name (plugin_names S config registry sources) ->
      exists pc, In (name, pc) (AppConfig.plugins config) /\
                 PluginConfig.enabled pc = true) /\
  (sources <> [] ->
   plugin_names S config registry sources
   = filter (fun s => match lookup s (AppConfig.plugins config) with
                      | Some pc => PluginConfig.enabled pc
                      | None => false
                      end) sources) /\
  (forall name,
      In name (plugin_names S config registry []) <->
      exists pc, In (name, pc) (AppConfig.plugins config) /\
                 PluginConfig.enabled pc = true /\ registry name <> None).
Proof.
  split; [|split].
  - intros name Hin. unfold plugin_names in Hin.
    destruct sources as [|s0 sources'].
    + apply in_map_iff in Hin. destruct Hin as ([k v] & <- & Hin).
      apply filter_In in Hin. destruct Hin as [Hin Hen].
      apply andb_true_iff in Hen. exists v. simpl in *. tauto.
    + apply filter_In in Hin. destruct Hin as [_ Hen].
      destruct (lookup name (AppConfig.plugins config)) as [pc|] eqn:Hl;
        [|discriminate].
      exists pc. split; [|assumption]. now apply lookup_Some_In.
  - intros Hne. destruct sources; [contradiction|reflexivity].
  - intros name. unfold plugin_names, available. split.
    + intros Hin. apply in_map_iff in Hin. destruct Hin as ([k v] & <- & Hin).
      apply filter_In in Hin. destruct Hin as [Hin Hen].
      apply andb_true_iff in Hen. simpl in *. destruct Hen as [Hen Hav].
      exists v. repeat split; try assumption.
      destruct (registry k); [discriminate|discriminate].
    + intros (pc & Hin & Hen & Hreg).
      apply in_map_iff. exists (name, pc). split; [reflexivity|].
      apply filter_In. split; [assumption|]. simpl. rewrite Hen.
      destruct (registry name); [reflexivity|contradiction].
Qed.

(** X18.  Without [--month] the run targets the month before today's:
    the month after the target month starts on the first day of today's
    month, January rolling back to December of the year before. *)
Theorem default_month_is_the_previous_one (today : Date.date) :
  1 <= Date.month today <= 12 ->
  let '(year, mon) := target_month today None in
  1 <= mon <= 12 /\
  Billing.first_of_next year mon
  = {| Date.year := Date.year today; Date.month := Date.month today;
       Date.day := 1 |}.
Proof.
  intros Hm. unfold target_month, Billing.first_of_next.
  destruct (Z.eqb_spec (Date.month today) 1) as [H1|H1].
  - simpl. rewrite H1. split; [lia|]. f_equal. lia.
  - destruct (Z.eqb_spec (Date.month today - 1) 12) as [H12|H12]; [lia|].
    split; [lia|]. f_equal. lia.
Qed.

Lemma default_month_is_the_previous_one_witness :
  let '(year, mon) := target_month Samples.a_day None in
  1 <= mon <= 12 /\
  Billing.first_of_next year mon
  = {| Date.year := 2026; Date.month := 2; Date.day := 1 |}.
Proof.
  apply (default_month_is_the_previous_one Samples.a_day). simpl. lia.
Defined.

(** X19.  Every plugin's [cleanup] runs exactly once, in the order of the
    run, whether its [fetch_expense] or the submission raised or not: with
    plugins whose cleanup writes their name in a log, the log after the run
    is the log before it followed by the names of the plugins run. *)
Theorem cleanup_runs_once_per_plugin (config : AppConfig.t)
    (fetched : string -> result (option ExpenseData.t))
    (submitted : ExpenseData.t -> result Json.t)
    (str : exn -> string) (today : Date.date)
    (month : option (Z * Z)) (sources : list string) (dry_run : bool)
    (log : list string) :
  snd (_run_async (list string) config (Cases.traced_registry fetched)
         (Cases.traced_submit submitted) str today month sources dry_run log)
  = log ++ plugin_names (list string) config (Cases.traced_registry fetched) sources.
Proof.
  unfold _run_async. destruct (target_month today month) as [year mon].
  pose proof (CliFacts.plugin_names_configured (list string) config
                (Cases.traced_registry fetched) sources) as Hcfg.
  set (names := plugin_names (list string) config
                  (Cases.traced_registry fetched) sources) in *.
  assert (Hrun : forall results log0,
            (forall name, In name names ->
                          lookup name (AppConfig.plugins config) <> None) ->
            exists records,
              run_plugins (list string) config (Cases.traced_registry fetched)
                (Cases.traced_submit submitted) str names year mon dry_run
                results log0
              = (None, records, log0 ++ names)).
  { clear Hcfg. induction names as [|name names IH]; intros results log0 Hcfg.
    - simpl. rewrite app_nil_r. eauto.
    - simpl. destruct (lookup name (AppConfig.plugins config)) as [pc|] eqn:Hl;
        [|exfalso; apply (Hcfg name); [now left|assumption]].
      assert (Hlog : snd (try_plugin (list string) (Cases.traced_submit submitted)
                            str name (Cases.traced_plugin fetched name)
                            year mon dry_run log0) = log0).
      { unfold try_plugin. simpl.
        destruct (fetched name) as [[expense|]|e]; try reflexivity.
        destruct (negb dry_run); [|reflexivity].
        unfold Cases.traced_submit. destruct (submitted expense); reflexivity. }
      destruct (try_plugin _ _ _ _ _ _ _ _ _) as [record log1].
      simpl in Hlog. subst log1. simpl.
      destruct (IH (results ++ [record]) (log0 ++ [name])
                   (fun n H => Hcfg n (or_intror H))) as [records ->].
      exists records. rewrite <- app_assoc. reflexivity. }
  destruct names as [|n ns] eqn:Hnames.
  - simpl. now rewrite app_nil_r.
  - destruct (Hrun [] log Hcfg) as [records ->].
    destruct (0 <? error_count records); reflexivity.
Qed.

End CliMore.

Module ValidateMore.
Import Validate.
Local Open Scope string_scope.

Section Validate.
Variable S : Type.
Variable registry : string -> option (PluginConfig.t -> Plugin S).

Lemma validate_plugins_returning (verdict : string -> PluginConfig.t -> bool)
    (items : list (string * PluginConfig.t)) :
  (forall name pc cls,
      In (name, pc) items -> PluginConfig.enabled pc = true ->
      registry name = Some cls ->
      (forall s, exists s',
          validate_credentials (cls pc) s = (Ok (verdict name pc), s')) /\
      (forall s, exists s', cleanup (cls pc) s = (Ok tt, s'))) ->
  forall all_ok s, exists s',
    validate_plugins S registry items all_ok s
    = (None, all_ok && forallb (passes S registry verdict) items, s').
Proof.
  induction items as [|[name pc] items IH]; intros Hok all_ok s.
  - exists s. simpl. now rewrite andb_true_r.
  - assert (Hrest : forall name pc cls,
               In (name, pc) items -> PluginConfig.enabled pc = true ->
               registry name = Some cls ->
               (forall s, exists s',
                   validate_credentials (cls pc) s = (Ok (verdict name pc), s')) /\
               (forall s, exists s', cleanup (cls pc) s = (Ok tt, s'))).
    { intros n p c Hin. apply Hok. now right. }
    specialize (IH Hrest). simpl. unfold passes at 1. simpl.
    destruct (PluginConfig.enabled pc) eqn:Hen; simpl.
    + unfold try_plugin. destruct (registry name) as [cls|] eqn:Hreg.
      * destruct (Hok name pc cls (or_introl eq_refl) Hen Hreg) as [Hv Hc].
        destruct (Hv s) as [s1 ->]. destruct (Hc s1) as [s2 ->].
        destruct (IH (if negb (verdict name pc) then false else all_ok) s2)
          as [s' ->].
        exists s'. destruct (verdict name pc), all_ok; reflexivity.
      * simpl. destruct (IH false s) as [s' ->]. exists s'.
        now rewrite andb_false_r.
    + apply IH.
Qed.

Lemma validate_plugins_false (items : list (string * PluginConfig.t)) :
  forall s e all_ok s',
    validate_plugins S registry items false s <> (e, all_ok, s') \/ all_ok = false.
Proof.
  induction items as [|[name pc] items IH]; intros s e all_ok s'; simpl.
  - destruct all_ok; [left; congruence|now right].
  - destruct (negb (PluginConfig.enabled pc)); [apply IH|].
    destruct (try_plugin S registry name pc false s) as [[b|x] s1] eqn:Htry.
    + assert (b = false) as ->; [|apply IH].
      unfold try_plugin in Htry. destruct (registry name) as [cls|]; [|congruence].
      destruct (validate_credentials (cls pc) s) as [[ok|x] s2]; [|congruence].
      destruct (cleanup (cls pc) s2) as [[u|x] s3]; [|congruence].
      destruct (negb ok); congruence.
    + destruct (is_KeyError x); [apply IH|].
      destruct all_ok; [left; congruence|now right].
Qed.

Lemma validate_plugins_disabled (before after : list (string * PluginConfig.t)) :
  (forall entry, In entry before -> PluginConfig.enabled (snd entry) = false) ->
  forall all_ok s,
    validate_plugins S registry (before ++ after)%list all_ok s
    = validate_plugins S registry after all_ok s.
Proof.
  induction before as [|[name pc] before IH]; intros Hdis all_ok s;
    [reflexivity|].
  pose proof (Hdis (name, pc) (or_introl eq_refl)) as Hpc. simpl in Hpc.
  simpl. rewrite Hpc. simpl.
  apply IH. intros entry Hin. apply Hdis. now right.
Qed.

End Validate.

(** X20.  When the configuration loads and no [validate_credentials] or
    [cleanup] of an enabled, registered plugin raises, [validate] returns
    normally exactly when every enabled plugin is registered and has its
    credentials accepted, and ends with [sys.exit(1)] otherwise; disabled
    plugins do not count, whatever they are. *)
Theorem validate_exit_tells_all_passed (S : Type)
    (registry : string -> option (PluginConfig.t -> Plugin S))
    (verdict : string -> PluginConfig.t -> bool)
    (config : AppConfig.t) (s : S) :
  (forall name pc cls,
      In (name, pc) (AppConfig.plugins config) ->
      PluginConfig.enabled pc = true ->
      registry name = Some cls ->
      (forall s, exists s',
          validate_credentials (cls pc) s = (Ok (verdict name pc), s')) /\
      (forall s, exists s', cleanup (cls pc) s = (Ok tt, s'))) ->
  fst (_validate_async S registry (Ok config) s)
  = if forallb (passes S registry verdict) (AppConfig.plugins config)
    then Cli.Returned else Cli.SysExit 1.
Proof.
  intros Hok. unfold _validate_async.
  destruct (validate_plugins_returning S registry verdict
              (AppConfig.plugins config) Hok true s) as [s' ->].
  simpl. destruct (forallb _ _); reflexivity.
Qed.

Lemma validate_exit_tells_all_passed_witness :
  fst (_validate_async unit Cases.validators
         (Ok (Samples.app_config ["anthropic"; "openai"; "github"])) tt)
  = Cli.SysExit 1.
Proof.
  apply (validate_exit_tells_all_passed unit Cases.validators Cases.accepted
           (Samples.app_config ["anthropic"; "openai"; "github"]) tt).
  intros name pc cls Hin _ Hreg. simpl in Hin.
  destruct Hin as [H|[H|[H|[]]]]; inversion H; subst; clear H;
    inversion Hreg; subst; clear Hreg;
    (split; intros s0; exists s0; reflexivity).
Defined.

(** X21.  [validate] has no [finally]: when [validate_credentials] of the
    first enabled plugin raises, that plugin's [cleanup] is not awaited.
    An exception other than [KeyError] leaves the command at once, the
    plugins after it unchecked; a [KeyError] is reported as an unknown
    plugin and the loop goes on from the state the exception left.  In
    both cases the command does not return normally. *)
Theorem validate_raising_plugin_fails (S : Type)
    (registry : string -> option (PluginConfig.t -> Plugin S))
    (config : AppConfig.t)
    (before after : list (string * PluginConfig.t))
    (name : string) (pc : PluginConfig.t) (cls : PluginConfig.t -> Plugin S)
    (e : exn) (s s1 : S) :
  AppConfig.plugins config = (before ++ (name, pc) :: after)%list ->
  (forall entry, In entry before -> PluginConfig.enabled (snd entry) = false) ->
  PluginConfig.enabled pc = true ->
  registry name = Some cls ->
  validate_credentials (cls pc) s = (Raise e, s1) ->
  (e <> KeyError ->
   _validate_async S registry (Ok config) s = (Cli.Uncaught e, s1)) /\
  (e = KeyError ->
   validate_plugins S registry (AppConfig.plugins config) true s
   = validate_plugins S registry after false s1) /\
  Cli.failure (fst (_validate_async S registry (Ok config) s)).
Proof.
  intros Hplugins Hdis Hen Hreg Hraise.
  assert (Hloop : validate_plugins S registry (AppConfig.plugins config) true s
                  = if is_KeyError e
                    then validate_plugins S registry after false s1
                    else (Some e, true, s1)).
  { rewrite Hplugins, (validate_plugins_disabled S registry before _ Hdis).
    simpl. rewrite Hen. simpl. unfold try_plugin. rewrite Hreg, Hraise.
    reflexivity. }
  split; [|split].
  - intros Hne. unfold _validate_async. rewrite Hloop.
    destruct e; try reflexivity. contradiction.
  - intros ->. exact Hloop.
  - unfold Cli.failure, _validate_async. rewrite Hloop.
    destruct (is_KeyError e); [|simpl; discriminate].
    destruct (validate_plugins S registry after false s1) as [[[x|] b] s2] eqn:Hv;
      [simpl; discriminate|].
    destruct (validate_plugins_false S registry after s1 None b s2) as [H | ->];
      [contradiction|simpl; discriminate].
Qed.

Lemma validate_raising_plugin_fails_witness :
  _validate_async unit Cases.validators
    (Ok (Samples.app_config ["vodafone"; "anthropic"])) tt
  = (Cli.Uncaught ConnectError, tt).
Proof.
  refine (proj1 (validate_raising_plugin_fails unit Cases.validators
                   (Samples.app_config ["vodafone"; "anthropic"])
                   [] [("anthropic", Samples.enabled_plugin)]
                   "vodafone" Samples.enabled_plugin
                   (fun _ => Cases.raising_plugin ConnectError)
                   ConnectError tt tt eq_refl _ eq_refl eq_refl eq_refl) _).
  - intros entry [].
  - discriminate.
Defined.

End ValidateMore.

Module SecretsMore.
Import Secrets.
Local Open Scope string_scope.

(** Induction on a value, through its dictionaries. *)
Lemma json_value_ind (P : Json.t -> Prop) :
  (forall v, match v with Json.Dict _ => False | _ => True end -> P v) ->
  (forall items, Forall (fun entry => P (snd entry)) items ->
                 P (Json.Dict items)) ->
  forall v, P v.
Proof.
  intros Hleaf Hdict. fix IH 1. intros [ | b | n | s | l | items];
    try (apply Hleaf; exact I).
  apply Hdict. induction items as [|[k v] items IHitems]; constructor.
  - apply IH.
  - apply IHitems.
Qed.

Section Op.
Variable op_read : string -> result string.

Lemma walk_unchanged (items : list (string * Json.t)) :
  Forall (fun entry => references_of (snd entry) = [] ->
                       resolve_value op_read (snd entry) = Ok (snd entry)) items ->
  references items = [] ->
  walk (resolve_value op_read) items = Ok items.
Proof.
  induction 1 as [|[k v] items Hv _ IH]; intros Hnone; [reflexivity|].
  unfold references in Hnone. simpl in Hnone.
  apply app_eq_nil in Hnone. destruct Hnone as [Hv0 Hrest].
  simpl in *. rewrite (Hv Hv0), (IH Hrest). reflexivity.
Qed.

Lemma resolve_value_unchanged (v : Json.t) :
  references_of v = [] -> resolve_value op_read v = Ok v.
Proof.
  induction v as [v Hleaf|items IH] using json_value_ind.
  - destruct v; try reflexivity; [|contradiction].
    simpl. destruct (is_secret_reference s); [discriminate|reflexivity].
  - intros Hnone. simpl. rewrite (walk_unchanged items IH Hnone). reflexivity.
Qed.

Lemma walk_ends_well (items : list (string * Json.t)) :
  Forall (fun entry => ends_well op_read (references_of (snd entry))
                         (resolve_value op_read (snd entry))) items ->
  ends_well op_read (references items) (walk (resolve_value op_read) items).
Proof.
  induction 1 as [|[k v] items Hv _ IH]; [intros reference []|].
  unfold references in *. simpl in *.
  destruct (resolve_value op_read v) as [v'|e]; simpl in *.
  - destruct (walk (resolve_value op_read) items) as [rest'|e]; simpl in *.
    + intros reference Hin. apply in_app_or in Hin. destruct Hin; auto.
    + destruct IH as (reference & Hin & Hop). exists reference.
      split; [apply in_or_app; now right|assumption].
  - destruct Hv as (reference & Hin & Hop). exists reference.
    split; [apply in_or_app; now left|assumption].
Qed.

Lemma resolve_value_ends_well (v : Json.t) :
  ends_well op_read (references_of v) (resolve_value op_read v).
Proof.
  induction v as [v Hleaf|items IH] using json_value_ind.
  - destruct v; try (intros reference []); [|contradiction].
    simpl. unfold resolve_secret.
    destruct (is_secret_reference s) eqn:Href; simpl; [|intros reference []].
    destruct (op_read s) as [secret|e] eqn:Hop; simpl.
    + intros reference [<-|[]]. eauto.
    + exists s. split; [now left|assumption].
  - pose proof (walk_ends_well items IH) as Hwalk. simpl.
    destruct (walk (resolve_value op_read) items); exact Hwalk.
Qed.

Hypothesis secrets_are_plain :
  forall reference secret,
    op_read reference = Ok secret -> is_secret_reference secret = false.

Lemma walk_resolved (items : list (string * Json.t)) :
  Forall (fun entry => forall v', resolve_value op_read (snd entry) = Ok v' ->
                                  references_of v' = []) items ->
  forall items',
    walk (resolve_value op_read) items = Ok items' ->
    references items' = [] /\ map fst items' = map fst items.
Proof.
  induction 1 as [|[k v] items Hv _ IH]; intros items' Hwalk; simpl in *.
  - injection Hwalk as <-. split; reflexivity.
  - destruct (resolve_value op_read v) as [v'|e]; [|discriminate].
    destruct (walk (resolve_value op_read) items) as [rest'|e]; [|discriminate].
    injection Hwalk as <-. destruct (IH rest' eq_refl) as [Hnone Hkeys].
    unfold references in *. simpl. rewrite (Hv v' eq_refl), Hnone, Hkeys.
    split; reflexivity.
Qed.

Lemma resolve_value_resolved (v : Json.t) :
  forall v', resolve_value op_read v = Ok v' -> references_of v' = [].
Proof.
  induction v as [v Hleaf|items IH] using json_value_ind; intros v' Hv.
  - destruct v; try (injection Hv as <-; reflexivity); [|contradiction].
    simpl in Hv. unfold resolve_secret in Hv.
    destruct (is_secret_reference s) eqn:Href; simpl in Hv.
    + destruct (op_read s) as [secret|e] eqn:Hop; [|discriminate].
      injection Hv as <-. simpl. now rewrite (secrets_are_plain s secret Hop).
    + injection Hv as <-. simpl. now rewrite Href.
  - simpl in Hv.
    destruct (walk (resolve_value op_read) items) as [items'|e] eqn:Hwalk;
      [|discriminate].
    injection Hv as <-. apply (walk_resolved items IH items' Hwalk).
Qed.

End Op.

(** X22.  A configuration in which no dictionary holds a reference is
    returned as it is, and [op] is not needed for it: the result is the
    same whatever [op read] would do.  References inside a list are not
    looked for. *)
Theorem no_reference_needs_no_vault (op_read : string -> result string)
    (data : list (string * Json.t)) :
  references data = [] ->
  resolve_secrets_in_dict op_read data = Ok data.
Proof.
  intros Hnone. unfold resolve_secrets_in_dict.
  apply walk_unchanged; [|assumption].
  apply Forall_forall. intros entry _. apply resolve_value_unchanged.
Qed.

Lemma no_reference_needs_no_vault_witness :
  resolve_secrets_in_dict Cases.locked_vault Cases.plain_config
  = Ok Cases.plain_config.
Proof.
  apply (no_reference_needs_no_vault Cases.locked_vault Cases.plain_config).
  reflexivity.
Defined.

(** X23.  [resolve_secrets_in_dict] returns exactly when [op read]
    resolves every reference met in the dictionaries, and an exception it
    raises is the one [resolve_secret] raised for one of them: no error is
    swallowed and none is made up. *)
Theorem resolution_succeeds_iff_every_reference_resolves
    (op_read : string -> result string) (data : list (string * Json.t)) :
  ((exists resolved, resolve_secrets_in_dict op_read data = Ok resolved) <->
   (forall reference, In reference (references data) ->
                      exists secret, op_read reference = Ok secret)) /\
  (forall e, resolve_secrets_in_dict op_read data = Raise e ->
             exists reference,
               In reference (references data) /\ op_read reference = Raise e).
Proof.
  assert (Hends : ends_well op_read (references data)
                    (resolve_secrets_in_dict op_read data)).
  { apply walk_ends_well. apply Forall_forall. intros entry _.
    apply resolve_value_ends_well. }
  destruct (resolve_secrets_in_dict op_read data) as [resolved|e]; simpl in Hends.
  - split; [|discriminate]. split; [intros _; exact Hends|eauto].
  - split.
    + split; [intros [resolved H]; discriminate|].
      intros Hall. destruct Hends as (reference & Hin & Hop).
      destruct (Hall reference Hin) as [secret Hs]. congruence.
    + intros e' [= <-]. exact Hends.
Qed.

(** X24.  Provided [op read] never prints something that is itself a
    reference, a resolved configuration has no reference left in its
    dictionaries, and it has the keys of the raw one, in the same order. *)
Theorem resolved_config_has_no_reference (op_read : string -> result string)
    (data resolved : list (string * Json.t)) :
  (forall reference secret,
      op_read reference = Ok secret -> is_secret_reference secret = false) ->
  resolve_secrets_in_dict op_read data = Ok resolved ->
  references resolved = [] /\ map fst resolved = map fst data.
Proof.
  intros Hplain Hres. apply (walk_resolved op_read data); [|exact Hres].
  apply Forall_forall. intros entry _. apply resolve_value_resolved, Hplain.
Qed.

Lemma resolved_config_has_no_reference_witness :
  exists resolved,
    resolve_secrets_in_dict Cases.vault Cases.raw_config = Ok resolved /\
    references resolved = [] /\ map fst resolved = ["expensify"; "plugins"].
Proof.
  eexists. split; [reflexivity|].
  apply (resolved_config_has_no_reference Cases.vault Cases.raw_config).
  - intros reference secret. unfold Cases.vault.
    destruct (String.eqb reference "op://Private/Expensify/user");
      [intros [= <-]; reflexivity|].
    destruct (String.eqb reference "op://Private/Anthropic/key");
      [intros [= <-]; reflexivity|discriminate].
  - reflexivity.
Defined.

End SecretsMore.

Module ConfigFileMore.
Import ConfigFile.
Local Open Scope string_scope.

(** X25.  [find_config_file] only returns a path that exists.  An explicit
    path is the only one tried: when it does not exist the call raises even
    if a default file is there.  Without an explicit path the first
    existing default is returned, [config.yaml] before [config.yml] before
    the one of the home directory, and the call raises exactly when none
    exists. *)
Theorem config_file_found_exists (exists_ : string -> bool) (home : string)
    (config_path : option string) :
  (forall path, find_config_file exists_ home config_path = Ok path ->
                exists_ path = true /\
                match config_path with
                | Some explicit => path = explicit
                | None => In path (DEFAULT_CONFIG_PATHS home)
                end) /\
  (forall explicit, config_path = Some explicit -> exists_ explicit = false ->
                    exists msg, find_config_file exists_ home config_path
                                = Raise (FileNotFoundError msg)) /\
  (config_path = None ->
   ((exists e, find_config_file exists_ home None = Raise e) <->
    forall path, In path (DEFAULT_CONFIG_PATHS home) -> exists_ path = false) /\
   (exists_ "config.yaml" = true ->
    find_config_file exists_ home None = Ok "config.yaml") /\
   (exists_ "config.yaml" = false -> exists_ "config.yml" = true ->
    find_config_file exists_ home None = Ok "config.yml") /\
   (exists_ "config.yaml" = false -> exists_ "config.yml" = false ->
    exists_ (home ++ "/.config/expensify-os/config.yaml") = true ->
    find_config_file exists_ home None
    = Ok (home ++ "/.config/expensify-os/config.yaml"))).
Proof.
  split; [|split].
  - intros path. unfold find_config_file. destruct config_path as [explicit|].
    + destruct (exists_ explicit) eqn:Hex; [|discriminate].
      intros [= <-]. auto.
    + destruct (find exists_ (DEFAULT_CONFIG_PATHS home)) as [p|] eqn:Hfind;
        [|discriminate].
      intros [= <-]. apply find_some in Hfind. tauto.
  - intros explicit -> Hex. simpl. rewrite Hex. eauto.
  - intros _. split; [|split; [|split]].
    + unfold find_config_file.
      destruct (find exists_ (DEFAULT_CONFIG_PATHS home)) as [p|] eqn:Hfind.
      * split; [intros [e H]; discriminate|].
        intros Hnone. apply find_some in Hfind. destruct Hfind as [Hin Hex].
        rewrite (Hnone p Hin) in Hex. discriminate.
      * split; [|eauto]. intros _ path Hin.
        apply (find_none _ _ Hfind path Hin).
    + intros Hex. unfold find_config_file. simpl. rewrite Hex. reflexivity.
    + intros H1 H2. unfold find_config_file. simpl. rewrite H1, H2. reflexivity.
    + intros H1 H2 H3. unfold find_config_file. simpl. rewrite H1, H2, H3.
      reflexivity.
Qed.

End ConfigFileMore.

Module VodafoneMore.
Import Vodafone.

(** [match.group(1)] once the dots are dropped and the comma is a point. *)
Lemma cleaned_app (a b : list char) :
  replace is_comma [Dot] (replace is_dot [] (a ++ b))
  = replace is_comma [Dot] (replace is_dot [] a)
    ++ replace is_comma [Dot] (replace is_dot [] b).
Proof. unfold replace. now rewrite !flat_map_app. Qed.

Lemma cleaned_no_comma (s : list char) :
  commas s = 0%nat ->
  replace is_comma [Dot] (replace is_dot [] s) = map Digit (digits_of s).
Proof.
  induction s as [|c s IH]; [reflexivity|].
  destruct c as [d| |]; unfold commas; simpl; intros H.
  - f_equal. apply IH, H.
  - apply IH, H.
  - discriminate.
Qed.

Lemma leading_digits_map (ds : list digit) (rest : list char) :
  match rest with Digit _ :: _ => False | _ => True end ->
  leading_digits (map Digit ds ++ rest) = (ds, rest).
Proof.
  intros Hrest. induction ds as [|d ds IH]; simpl.
  - destruct rest as [|[d| |] rest]; [reflexivity|contradiction|reflexivity|reflexivity].
  - now rewrite IH.
Qed.

Lemma leading_digits_spec (s : list char) :
  forall ds rest, leading_digits s = (ds, rest) -> s = map Digit ds ++ rest.
Proof.
  induction s as [|c s IH]; intros ds rest H; simpl in H.
  - injection H as <- <-. reflexivity.
  - destruct c as [d| |]; try (injection H as <- <-; reflexivity).
    destruct (leading_digits s) as [ds' rest'] eqn:Hs.
    injection H as <- <-. simpl. f_equal. now apply IH.
Qed.

Lemma parse_whole (ds : list digit) :
  ds <> [] ->
  Decimal_of_str (map Digit ds)
  = Some {| Decimal.coefficient := number ds; Decimal.exponent := 0 |}.
Proof.
  intros Hne. unfold Decimal_of_str.
  rewrite <- (app_nil_r (map Digit ds)), (leading_digits_map ds [] I).
  destruct ds; [contradiction|reflexivity].
Qed.

Lemma parse_point (ds fs : list digit) :
  ds ++ fs <> [] ->
  Decimal_of_str (map Digit ds ++ Dot :: map Digit fs)
  = Some {| Decimal.coefficient := number (ds ++ fs);
            Decimal.exponent := - Z.of_nat (length fs) |}.
Proof.
  intros Hne. unfold Decimal_of_str.
  rewrite (leading_digits_map ds (Dot :: map Digit fs) I).
  rewrite <- (app_nil_r (map Digit fs)), (leading_digits_map fs [] I).
  destruct (ds ++ fs); [contradiction|reflexivity].
Qed.

Lemma digits_of_app (a b : list char) :
  digits_of (a ++ b) = digits_of a ++ digits_of b.
Proof. unfold digits_of. apply flat_map_app. Qed.

Lemma parse_with_comma (whole frac : list char) :
  commas whole = 0%nat -> commas frac = 0%nat ->
  digits_of (whole ++ Comma :: frac) <> [] ->
  Decimal_of_str
    (replace is_comma [Dot] (replace is_dot [] (whole ++ Comma :: frac)))
  = Some {| Decimal.coefficient := number (digits_of (whole ++ Comma :: frac));
            Decimal.exponent := - Z.of_nat (length (digits_of frac)) |}.
Proof.
  intros Hw Hf Hne. rewrite cleaned_app, (cleaned_no_comma whole Hw).
  change (replace is_comma [Dot] (replace is_dot [] (Comma :: frac)))
    with (Dot :: replace is_comma [Dot] (replace is_dot [] frac)).
  rewrite (cleaned_no_comma frac Hf).
  rewrite digits_of_app in *.
  change (digits_of (Comma :: frac)) with (digits_of frac) in *.
  now apply parse_point.
Qed.

Lemma number_from (ds : list digit) :
  forall acc, 0 <= acc ->
    0 <= fold_left (fun acc d => 10 * acc + value d) ds acc.
Proof.
  induction ds as [|d ds IH]; intros acc Hacc; cbn [fold_left]; [assumption|].
  apply IH. assert (0 <= value d) by (destruct d; simpl; lia). lia.
Qed.

Lemma number_nonneg (ds : list digit) : 0 <= number ds.
Proof. apply number_from. lia. Qed.

Lemma ndigits_le (n k : Z) :
  0 <= n < 10 ^ k -> 1 <= k -> Decimal.ndigits n <= k.
Proof.
  intros [Hlo Hhi] Hk.
  destruct (Z.eq_dec n 0) as [->|Hn]; [exact Hk|].
  destruct (DecimalFacts.ndigits_spec n ltac:(lia)) as [Hle _].
  destruct (Z_lt_le_dec k (Decimal.ndigits n)) as [Hlt|]; [|assumption].
  exfalso.
  assert (10 ^ k <= 10 ^ (Decimal.ndigits n - 1)); [|lia].
  apply Z.pow_le_mono_r; lia.
Qed.

(** The product by [100] is exact for a number of at most 26 digits. *)
Lemma times_100_exact (n k : Z) :
  0 <= n < 10 ^ 26 -> 0 <= k <= - Decimal.Etiny ->
  Decimal.mul {| Decimal.coefficient := n; Decimal.exponent := - k |}
    (Decimal.of_int 100)
  = Ok {| Decimal.coefficient := n * 100; Decimal.exponent := - k + 0 |}.
Proof.
  intros Hn Hk. apply DecimalFacts.mul_fits.
  unfold Decimal.fits_context, Decimal.exact_mul. simpl.
  assert (Hlen : Decimal.ndigits (Z.abs (n * 100)) <= 28).
  { apply ndigits_le; [|lia]. rewrite Z.abs_eq by lia.
    change (10 ^ 28) with (10 ^ 26 * 100). lia. }
  unfold Decimal.prec, Decimal.Emax. unfold Decimal.Etiny, Decimal.Emin,
    Decimal.prec in *. lia.
Qed.

Lemma to_int_cut (n k : Z) :
  0 <= k ->
  to_int {| Decimal.coefficient := n; Decimal.exponent := - k + 0 |}
  = Z.quot n (10 ^ k).
Proof.
  intros Hk. unfold to_int. simpl.
  destruct (0 <=? - k + 0) eqn:He.
  - apply Z.leb_le in He. assert (k = 0) as -> by lia.
    simpl. rewrite Z.quot_1_r. lia.
  - f_equal. f_equal. lia.
Qed.

Lemma dots_of_cleaned (s : list char) :
  length (filter is_dot (replace is_comma [Dot] (replace is_dot [] s)))
  = commas s.
Proof.
  induction s as [|[d| |] s IH]; unfold commas in *; simpl; auto.
Qed.

Lemma no_dot_in_digits (ds : list digit) : filter is_dot (map Digit ds) = [].
Proof. induction ds; simpl; auto. Qed.

Lemma parsed_has_one_point (s : list char) (d : Decimal.t) :
  Decimal_of_str s = Some d -> (length (filter is_dot s) <= 1)%nat.
Proof.
  unfold Decimal_of_str.
  destruct (leading_digits s) as [intpart rest] eqn:Hs.
  apply leading_digits_spec in Hs. subst s.
  rewrite filter_app, no_dot_in_digits. simpl.
  destruct rest as [|[x| |] rest]; try discriminate; [simpl; lia|].
  destruct (leading_digits rest) as [fracpart rest'] eqn:Hr.
  apply leading_digits_spec in Hr. subst rest.
  destruct rest'; [|discriminate]. intros _. simpl.
  rewrite app_nil_r, no_dot_in_digits. simpl. lia.
Qed.

Lemma cleaned_no_digit (s : list char) :
  digits_of s = [] ->
  Decimal_of_str (replace is_comma [Dot] (replace is_dot [] s)) = None.
Proof.
  intros Hnone.
  assert (Hdots : replace is_comma [Dot] (replace is_dot [] s)
                  = repeat Dot (commas s)).
  { induction s as [|[d| |] s IH]; unfold commas in *; simpl in *;
      [reflexivity|discriminate|auto|f_equal; auto]. }
  rewrite Hdots. destruct (commas s) as [|[|n]]; reflexivity.
Qed.

Lemma split_at_comma (s : list char) :
  commas s = 1%nat ->
  exists whole frac,
    s = whole ++ Comma :: frac /\ commas whole = 0%nat /\ commas frac = 0%nat.
Proof.
  induction s as [|c s IH]; unfold commas in *; simpl; [discriminate|].
  destruct c as [d| |]; simpl; intros H.
  - destruct (IH H) as (whole & frac & -> & Hw & Hf).
    exists (Digit d :: whole), frac. simpl. auto.
  - destruct (IH H) as (whole & frac & -> & Hw & Hf).
    exists (Dot :: whole), frac. simpl. auto.
  - exists [], s. simpl. split; [reflexivity|]. split; [reflexivity|lia].
Qed.

(** X26.  An amount written with a decimal comma, with or without dots
    between the thousands, gives its value in cents cut, not rounded, to
    a whole number: the digits taken as one number, times 100, divided by
    ten to the number of decimals.  With two decimals the cents are the
    digits as they stand.  (The number has at most 26 digits, so that the
    product is exact in the decimal context.) *)
Theorem comma_amount_is_cut_to_cents (whole frac : list char) :
  commas whole = 0%nat -> commas frac = 0%nat ->
  digits_of (whole ++ Comma :: frac) <> [] ->
  number (digits_of (whole ++ Comma :: frac)) < 10 ^ 26 ->
  Z.of_nat (length (digits_of frac)) <= - Decimal.Etiny ->
  amount_of_match (Some (whole ++ Comma :: frac))
  = Returned
      (Some (Z.quot (number (digits_of (whole ++ Comma :: frac)) * 100)
               (10 ^ Z.of_nat (length (digits_of frac))))) /\
  (length (digits_of frac) = 2%nat ->
   amount_of_match (Some (whole ++ Comma :: frac))
   = Returned (Some (number (digits_of (whole ++ Comma :: frac))))).
Proof.
  intros Hw Hf Hne Hlt Hk.
  assert (Hamount : amount_of_match (Some (whole ++ Comma :: frac))
            = Returned
                (Some (Z.quot (number (digits_of (whole ++ Comma :: frac)) * 100)
                         (10 ^ Z.of_nat (length (digits_of frac)))))).
  { unfold amount_of_match. rewrite (parse_with_comma whole frac Hw Hf Hne).
    pose proof (number_nonneg (digits_of (whole ++ Comma :: frac))) as H0.
    rewrite times_100_exact by lia. rewrite to_int_cut by lia. reflexivity. }
  split; [exact Hamount|].
  intros H2. rewrite Hamount, H2. do 2 f_equal.
  change (10 ^ Z.of_nat 2) with 100. apply Z.quot_mul. discriminate.
Qed.

Lemma comma_amount_is_cut_to_cents_witness :
  amount_of_match
    (Some [Digit D1; Dot; Digit D2; Digit D3; Digit D4; Comma;
           Digit D5; Digit D6; Digit D9])
  = Returned (Some 123456).
Proof.
  refine (proj1 (comma_amount_is_cut_to_cents
                   [Digit D1; Dot; Digit D2; Digit D3; Digit D4]
                   [Digit D5; Digit D6; Digit D9]
                   eq_refl eq_refl _ _ _)).
  - discriminate.
  - reflexivity.
  - vm_compute. discriminate.
Defined.

(** X27.  A dot is never a decimal point: in an amount without a comma the
    dots are dropped and the digits are whole euros, so that the text
    [45.23] gives 452300 cents. *)
Theorem dot_is_not_a_decimal_point (text : list char) :
  commas text = 0%nat ->
  digits_of text <> [] ->
  number (digits_of text) < 10 ^ 26 ->
  amount_of_match (Some text) = Returned (Some (number (digits_of text) * 100)).
Proof.
  intros Hc Hne Hlt. unfold amount_of_match.
  rewrite (cleaned_no_comma text Hc), (parse_whole _ Hne).
  pose proof (number_nonneg (digits_of text)) as H0.
  change 0 with (- 0) at 1.
  rewrite times_100_exact by (unfold Decimal.Etiny, Decimal.Emin, Decimal.prec; lia).
  rewrite to_int_cut by lia. simpl. now rewrite Z.quot_1_r.
Qed.

Lemma dot_is_not_a_decimal_point_witness :
  amount_of_match (Some [Digit D4; Digit D5; Dot; Digit D2; Digit D3])
  = Returned (Some 452300).
Proof.
  apply (dot_is_not_a_decimal_point [Digit D4; Digit D5; Dot; Digit D2; Digit D3]).
  - reflexivity.
  - discriminate.
  - reflexivity.
Defined.

(** X28.  [_extract_amount] raises [decimal.InvalidOperation], rather than
    return [None], exactly when the matched text has two commas or more,
    or no digit at all. *)
Theorem malformed_amount_raises (text : list char) :
  amount_of_match (Some text) = InvalidOperation <->
  (2 <= commas text)%nat \/ digits_of text = [].
Proof.
  split.
  - intros Hinv.
    destruct (le_lt_dec 2 (commas text)) as [H2|H2]; [now left|].
    destruct (digits_of text) as [|d ds] eqn:Hd; [now right|]. exfalso.
    assert (Hparse : exists dec,
               Decimal_of_str (replace is_comma [Dot] (replace is_dot [] text))
               = Some dec).
    { destruct (commas text) as [|[|n]] eqn:Hc; [| |lia].
      - rewrite (cleaned_no_comma text Hc), parse_whole; [eauto|].
        rewrite Hd. discriminate.
      - destruct (split_at_comma text Hc) as (whole & frac & -> & Hw & Hf).
        rewrite (parse_with_comma whole frac Hw Hf); [eauto|].
        rewrite Hd. discriminate. }
    destruct Hparse as [dec Hparse]. unfold amount_of_match in Hinv.
    rewrite Hparse in Hinv.
    destruct (Decimal.mul dec (Decimal.of_int 100)); discriminate.
  - intros [H2|Hnone]; unfold amount_of_match.
    + destruct (Decimal_of_str _) as [dec|] eqn:Hparse; [|reflexivity].
      apply parsed_has_one_point in Hparse. rewrite dots_of_cleaned in Hparse.
      lia.
    + now rewrite (cleaned_no_digit text Hnone).
Qed.

End VodafoneMore.

Module MonthTypeMore.
Import MonthType.
Local Open Scope string_scope.

Lemma split_nonempty (sep : ascii) (s : string) : split sep s <> [].
Proof.
  destruct s as [|c rest]; simpl; [discriminate|].
  destruct (Ascii.eqb c sep); [discriminate|].
  destruct (split sep rest); discriminate.
Qed.

Lemma split_app (sep : ascii) (s t : string) :
  split sep (s ++ String sep t) = (split sep s ++ split sep t)%list.
Proof.
  induction s as [|c rest IH]; simpl.
  - now rewrite Ascii.eqb_refl.
  - destruct (Ascii.eqb c sep); [now rewrite IH|].
    rewrite IH. pose proof (split_nonempty sep rest) as Hne.
    destruct (split sep rest); [contradiction|reflexivity].
Qed.

(** X29.  The month [--month] is converted to lies between 1 and 12, the
    year being any integer; and [convert] reads the first two parts only:
    a text that is accepted is still accepted as the same month when a
    dash and anything else is added to it, a day for instance. *)
Theorem month_text_is_read_up_to_the_second_dash (int : string -> option Z)
    (s : string) (year month : Z) :
  convert int (Text s) = Month year month ->
  (1 <= month <= 12)%Z /\
  forall t, convert int (Text (s ++ String "-" t)) = Month year month.
Proof.
  unfold convert. destruct (parse int s) as [[y m]|] eqn:Hparse; [|discriminate].
  intros [= <- <-]. unfold parse in Hparse.
  destruct (split "-" s) as [|part0 parts] eqn:Hs; [discriminate|].
  destruct (int part0) as [y0|] eqn:H0; [|discriminate].
  destruct parts as [|part1 parts]; [discriminate|].
  destruct (int part1) as [m1|] eqn:H1; [|discriminate].
  destruct ((1 <=? m1)%Z && (m1 <=? 12)%Z) eqn:Hrange; [|discriminate].
  injection Hparse as <- <-. split.
  - apply andb_true_iff in Hrange. lia.
  - intros t. unfold parse. rewrite split_app, Hs. simpl.
    now rewrite H0, H1, Hrange.
Qed.

Lemma month_text_is_read_up_to_the_second_dash_witness :
  (1 <= 1 <= 12)%Z /\
  forall t, convert Cases.int_of (Text ("2026-01" ++ String "-" t))
            = Month 2026 1.
Proof.
  apply (month_text_is_read_up_to_the_second_dash Cases.int_of "2026-01" 2026 1).
  reflexivity.
Defined.

End MonthTypeMore.
